(** * Crash dumps of the SBCL runtime: [save_gc_crashdump] and
      [load_gc_crashdump] of src/runtime/monitor.c

    The development follows the configuration in which the dump code is
    compiled and reachable from the monitor's "save" command: x86-64 with
    threads, the C stack used as control stack, and immobile space
    (LISP_FEATURE_X86_64, LISP_FEATURE_SB_THREAD,
    LISP_FEATURE_C_STACK_IS_CONTROL_STACK, LISP_FEATURE_IMMOBILE_SPACE).
    Integers are [Z] with the wrap-around of their C type written out,
    memory objects are lists of bytes, the dump file is a list of bytes. *)

(** The monitor of the same file, [ldb_monitor] with its table of
    commands and the commands [dump], [context], [quit], [help], [exit]
    and [save], follows the dump code; C strings are [String.string]. *)

From Stdlib Require Import ZArith List Lia Bool.
From Stdlib Require Ascii String.
From coqutil Require Import Byte Word.LittleEndianList.
Import ListNotations.
Import Ascii.AsciiSyntax String.StringSyntax.
Delimit Scope string_scope with string.
Delimit Scope char_scope with char.
Local Open Scope Z_scope.

(** ** Machine integers (LP64) *)

Definition wrap_unsigned (bits z : Z) : Z := z mod 2 ^ bits.
Definition wrap_signed (bits z : Z) : Z :=
  (z + 2 ^ (bits - 1)) mod 2 ^ bits - 2 ^ (bits - 1).

(** [uword_t], [lispobj], [size_t], [unsigned long] *)
Definition to_uword : Z -> Z := wrap_unsigned 64.
(** [long], [sword_t], [ssize_t] *)
Definition to_long : Z -> Z := wrap_signed 64.
(** [int] *)
Definition to_int : Z -> Z := wrap_signed 32.
(** [char] (signed on this target) *)
Definition to_char : Z -> Z := wrap_signed 8.

Definition N_WORD_BYTES : Z := 8.
Definition WORD_SHIFT : Z := 3.

(** ** Memory objects as byte lists *)

Definition zeros (n : Z) : list byte := repeat Byte.x00 (Z.to_nat n).

(** The [len] bytes found [off] bytes into the object. *)
Definition bytes_at (mem : list byte) (off len : Z) : list byte :=
  firstn (Z.to_nat len) (skipn (Z.to_nat off) mem).

(** The object with [src] copied over it from offset [off]. *)
Definition blit (mem : list byte) (off : Z) (src : list byte) : list byte :=
  firstn (Z.to_nat off) mem ++ src ++ skipn (Z.to_nat off + length src) mem.

Definition fits (mem : list byte) (off len : Z) : bool :=
  (0 <=? off) && (0 <=? len) && (off + len <=? Z.of_nat (length mem)).

Definition load_word (mem : list byte) (off : Z) : Z :=
  le_combine (bytes_at mem off N_WORD_BYTES).

Definition store_word (mem : list byte) (off v : Z) : list byte :=
  blit mem off (le_split 8 v).

(** ** The process image: globals of the runtime and its threads *)

(** [struct thread] with the memory it points to.  [control_stack] is
    the memory that ends at [control_stack_end]; [binding_stack] the
    memory that starts at [binding_stack_start]; [tls] the memory that
    starts at the structure itself (the structure followed by the
    thread-local storage); [interrupt_context] the [os_context_t] that
    [nth_interrupt_context(0, th)] points to. *)
Record thread : Type := {
  th_address : Z;
  control_stack_end : Z;
  control_stack : list byte;
  binding_stack_start : Z;
  binding_stack_pointer : Z;
  binding_stack : list byte;
  tls : list byte;
  interrupt_context : list byte
}.

(** The scalar globals of the runtime that the dump code reads or
    assigns ([free_tls_index] is [SymbolValue(FREE_TLS_INDEX,0)]). *)
Inductive global : Type :=
| static_space_free_pointer
| DYNAMIC_SPACE_START
| next_free_page
| gc_card_table_nbits
| gc_card_table_mask
| FIXEDOBJ_SPACE_START
| fixedobj_free_pointer
| VARYOBJ_SPACE_START
| varyobj_free_pointer
| free_tls_index
| lisp_package_vector
| sb_sprof_enabled
| pin_all_dynamic_space_code.

(** The memory objects it reads or fills: the three spaces from their
    start address on, and the tables the globals of these names point to. *)
Inductive region : Type :=
| static_space
| dynamic_space
| page_table
| gc_card_mark
| fixedobj_space
| fixedobj_pages
| varyobj_space
| varyobj_page_touched_bits
| varyobj_pages.

Definition global_eqb (a b : global) : bool :=
  match a, b with
  | static_space_free_pointer, static_space_free_pointer
  | DYNAMIC_SPACE_START, DYNAMIC_SPACE_START
  | next_free_page, next_free_page
  | gc_card_table_nbits, gc_card_table_nbits
  | gc_card_table_mask, gc_card_table_mask
  | FIXEDOBJ_SPACE_START, FIXEDOBJ_SPACE_START
  | fixedobj_free_pointer, fixedobj_free_pointer
  | VARYOBJ_SPACE_START, VARYOBJ_SPACE_START
  | varyobj_free_pointer, varyobj_free_pointer
  | free_tls_index, free_tls_index
  | lisp_package_vector, lisp_package_vector
  | sb_sprof_enabled, sb_sprof_enabled
  | pin_all_dynamic_space_code, pin_all_dynamic_space_code => true
  | _, _ => false
  end.

Definition region_eqb (a b : region) : bool :=
  match a, b with
  | static_space, static_space
  | dynamic_space, dynamic_space
  | page_table, page_table
  | gc_card_mark, gc_card_mark
  | fixedobj_space, fixedobj_space
  | fixedobj_pages, fixedobj_pages
  | varyobj_space, varyobj_space
  | varyobj_page_touched_bits, varyobj_page_touched_bits
  | varyobj_pages, varyobj_pages => true
  | _, _ => false
  end.

Record runtime : Type := {
  var : global -> Z;
  mem : region -> list byte;
  all_threads : list thread
}.

Definition set_var (g : global) (v : Z) (rt : runtime) : runtime :=
  {| var := fun g' => if global_eqb g g' then v else var rt g';
     mem := mem rt;
     all_threads := all_threads rt |}.

Definition set_mem (r : region) (bs : list byte) (rt : runtime) : runtime :=
  {| var := var rt;
     mem := fun r' => if region_eqb r r' then bs else mem rt r';
     all_threads := all_threads rt |}.

Definition set_all_threads (ths : list thread) (rt : runtime) : runtime :=
  {| var := var rt; mem := mem rt; all_threads := ths |}.

(** ** Constants of the build

    The values come from headers that are not part of the files under
    study (genesis/*.h, gencgc-internal.h, thread.h, immobile-space.h,
    the os context of the platform); they are parameters here, and so
    is the answer of [gc_managed_addr_p], which depends on where the
    spaces lie. *)

Record build : Type := {
  STATIC_SPACE_START : Z;
  STATIC_SPACE_SIZE : Z;
  GENCGC_PAGE_BYTES : Z;
  GENCGC_CARD_BYTES : Z;
  DEFAULT_DYNAMIC_SPACE_SIZE : Z;
  dynamic_space_size : Z;
  sizeof_page : Z;                     (* sizeof (struct page) *)
  page_type : list byte -> Z;          (* the .type field of a struct page *)
  is_code : Z -> bool;
  is_lisp_pointer : Z -> bool;
  FIXEDOBJ_SPACE_SIZE : Z;
  VARYOBJ_SPACE_SIZE : Z;
  IMMOBILE_CARD_BYTES : Z;
  sizeof_thread : Z;                   (* sizeof (struct thread) *)
  sizeof_os_context : Z;               (* sizeof (os_context_t) *)
  reg_SP : Z;                          (* byte offset of the stack pointer
                                          register in an os_context_t *)
  FREE_INTERRUPT_CONTEXT_INDEX : Z;    (* byte offset of the symbol's
                                          thread-local slot *)
  N_FIXNUM_TAG_BITS : Z;
  offsetof_prev : Z;                   (* offsetof (struct thread, prev) *)
  offsetof_next : Z;                   (* offsetof (struct thread, next) *)
  INSTANCE_POINTER_LOWTAG : Z;
  LOWTAG_MASK : Z;
  SIMPLE_BASE_STRING_WIDETAG : Z;
  offsetof_name : Z;                   (* offsetof (struct thread_instance, name) *)
  gc_managed_addr_p : runtime -> Z -> bool
}.

(** ** How a run ends *)

Inductive lose_reason : Type :=
| ShortWrite               (* "short write, errno=%d" *)
| ReadFailed               (* "read failed, errno=%d" *)
| BadHeader                (* "Can't load crashdump: bad header" *)
| MemoryParametersDiffer   (* "Can't load crashdump: memory parameters differ" *)
| NotMappedWhereExpected   (* "Didn't map dynamic space where expected" *)
| GcInvariantLost.         (* a failed gc_assert *)

Inductive outcome (A : Type) : Type :=
| Done (a : A)                 (* the call returns *)
| Lose (why : lose_reason)     (* lose(): the process is terminated *)
| Exit1                        (* _exit(1) *)
| Undefined.                   (* an access outside the object it is aimed at *)
Arguments Done {A} a.
Arguments Lose {A} why.
Arguments Exit1 {A}.
Arguments Undefined {A}.

Definition fatal {A} (o : outcome A) : Prop :=
  match o with Lose _ | Exit1 => True | _ => False end.

(** State and termination threaded through the C code. *)
Definition M (S A : Type) : Type := S -> outcome (A * S).

Definition ret {S A} (a : A) : M S A := fun s => Done (a, s).
Definition bind {S A B} (m : M S A) (f : A -> M S B) : M S B :=
  fun s => match m s with
           | Done (a, s') => f a s'
           | Lose why => Lose why
           | Exit1 => Exit1
           | Undefined => Undefined
           end.
Definition lose {S A} (why : lose_reason) : M S A := fun _ => Lose why.
Definition exit1 {S A} : M S A := fun _ => Exit1.
Definition undefined {S A} : M S A := fun _ => Undefined.

Declare Scope crash_scope.
Delimit Scope crash_scope with crash.
Notation "x <- m ;; k" := (bind m (fun x => k))
  (at level 61, m at next level, right associativity) : crash_scope.
Notation "m ;; k" := (bind m (fun _ => k))
  (at level 61, right associativity) : crash_scope.
Local Open Scope crash_scope.

(** [for (...) body] over the elements of a list, in order. *)
Fixpoint for_each {S A} (l : list A) (body : A -> M S unit) : M S unit :=
  match l with
  | [] => ret tt
  | a :: l' => body a ;; for_each l' body
  end.

(** ** The two headers of the dump file

    Field values are kept as the values of their C types; the byte image
    is the x86-64 layout of the structure, native (little) endian.  The
    two bytes between [pin_dynspace_code] and [sizeof_context] are
    padding: the writer never assigns them, so they carry whatever the
    stack held. *)

Module Preamble.
Record t : Type := {
    signature : Z;                (* uword_t, offset 0 *)
    static_start : Z;             (* uword_t, 8 *)
    static_nbytes : Z;            (* uword_t, 16 *)
    dynspace_start : Z;           (* uword_t, 24 *)
    dynspace_npages : Z;          (* long, 32 *)
    card_size : Z;                (* int, 40 *)
    card_table_nbits : Z;         (* int, 44 *)
    fixedobj_start : Z;           (* uword_t, 48 *)
    fixedobj_size : Z;            (* uword_t, 56 *)
    fixedobj_free_pointer : Z;    (* uword_t, 64 *)
    varyobj_start : Z;            (* uword_t, 72 *)
    varyobj_size : Z;             (* uword_t, 80 *)
    varyobj_free_pointer : Z;     (* uword_t, 88 *)
    nthreads : Z;                 (* int, 96 *)
    tls_size : Z;                 (* int, 100 *)
    lisp_package_vector : Z;      (* lispobj, 104 *)
    sprof_enabled : Z;            (* char, 112 *)
    pin_dynspace_code : Z;        (* char, 113 *)
    padding : list byte;          (* 114, 115 *)
    sizeof_context : Z            (* int, 116 *)
  }.
End Preamble.

Module ThreadPreamble.
Record t : Type := {
    address : Z;                  (* uword_t, 0 *)
    has_context : Z;              (* uword_t, 8 *)
    control_stack_nbytes : Z;     (* uword_t, 16 *)
    binding_stack_nbytes : Z      (* uword_t, 24 *)
  }.
End ThreadPreamble.

Definition sizeof_crash_preamble : Z := 120.
Definition sizeof_crash_thread_preamble : Z := 32.

(** [const int CRASH_PREAMBLE_SIGNATURE =
      (sizeof (struct crash_preamble) << 16) | sizeof (struct crash_thread_preamble)] *)
Definition CRASH_PREAMBLE_SIGNATURE : Z :=
  to_int (Z.lor (Z.shiftl sizeof_crash_preamble 16) sizeof_crash_thread_preamble).

(** Exactly two bytes of padding, whatever the list holds. *)
Definition pad2 (l : list byte) : list byte :=
  firstn 2 (l ++ [Byte.x00; Byte.x00]).

Definition encode_preamble (p : Preamble.t) : list byte :=
  le_split 8 (Preamble.signature p) ++
  le_split 8 (Preamble.static_start p) ++
  le_split 8 (Preamble.static_nbytes p) ++
  le_split 8 (Preamble.dynspace_start p) ++
  le_split 8 (Preamble.dynspace_npages p) ++
  le_split 4 (Preamble.card_size p) ++
  le_split 4 (Preamble.card_table_nbits p) ++
  le_split 8 (Preamble.fixedobj_start p) ++
  le_split 8 (Preamble.fixedobj_size p) ++
  le_split 8 (Preamble.fixedobj_free_pointer p) ++
  le_split 8 (Preamble.varyobj_start p) ++
  le_split 8 (Preamble.varyobj_size p) ++
  le_split 8 (Preamble.varyobj_free_pointer p) ++
  le_split 4 (Preamble.nthreads p) ++
  le_split 4 (Preamble.tls_size p) ++
  le_split 8 (Preamble.lisp_package_vector p) ++
  le_split 1 (Preamble.sprof_enabled p) ++
  le_split 1 (Preamble.pin_dynspace_code p) ++
  pad2 (Preamble.padding p) ++
  le_split 4 (Preamble.sizeof_context p).

Definition field_unsigned (bs : list byte) (off len : Z) : Z :=
  le_combine (bytes_at bs off len).
Definition field_signed (bs : list byte) (off len : Z) : Z :=
  wrap_signed (8 * len) (field_unsigned bs off len).

Definition decode_preamble (bs : list byte) : Preamble.t :=
  {| Preamble.signature := field_unsigned bs 0 8;
     Preamble.static_start := field_unsigned bs 8 8;
     Preamble.static_nbytes := field_unsigned bs 16 8;
     Preamble.dynspace_start := field_unsigned bs 24 8;
     Preamble.dynspace_npages := field_signed bs 32 8;
     Preamble.card_size := field_signed bs 40 4;
     Preamble.card_table_nbits := field_signed bs 44 4;
     Preamble.fixedobj_start := field_unsigned bs 48 8;
     Preamble.fixedobj_size := field_unsigned bs 56 8;
     Preamble.fixedobj_free_pointer := field_unsigned bs 64 8;
     Preamble.varyobj_start := field_unsigned bs 72 8;
     Preamble.varyobj_size := field_unsigned bs 80 8;
     Preamble.varyobj_free_pointer := field_unsigned bs 88 8;
     Preamble.nthreads := field_signed bs 96 4;
     Preamble.tls_size := field_signed bs 100 4;
     Preamble.lisp_package_vector := field_unsigned bs 104 8;
     Preamble.sprof_enabled := field_signed bs 112 1;
     Preamble.pin_dynspace_code := field_signed bs 113 1;
     Preamble.padding := bytes_at bs 114 2;
     Preamble.sizeof_context := field_signed bs 116 4 |}.

Definition encode_thread_preamble (p : ThreadPreamble.t) : list byte :=
  le_split 8 (ThreadPreamble.address p) ++
  le_split 8 (ThreadPreamble.has_context p) ++
  le_split 8 (ThreadPreamble.control_stack_nbytes p) ++
  le_split 8 (ThreadPreamble.binding_stack_nbytes p).

Definition decode_thread_preamble (bs : list byte) : ThreadPreamble.t :=
  {| ThreadPreamble.address := field_unsigned bs 0 8;
     ThreadPreamble.has_context := field_unsigned bs 8 8;
     ThreadPreamble.control_stack_nbytes := field_unsigned bs 16 8;
     ThreadPreamble.binding_stack_nbytes := field_unsigned bs 24 8 |}.

(** The trailing signature, "SB.Crash". *)
Definition trailer : list byte :=
  [Byte.x53; Byte.x42; Byte.x2e; Byte.x43; Byte.x72; Byte.x61; Byte.x73; Byte.x68].

(** [ALIGN_UP(value, align)] for a power of two [align]. *)
Definition ALIGN_UP (value align : Z) : Z :=
  Z.land (value + (align - 1)) (Z.lnot (align - 1)).

(** ** Thread-local slots and fixnums *)

Section Tagging.
Variable B : build.

  (** [fixnum_value(n)]: the signed word shifted right by the tag width. *)
Definition fixnum_value (w : Z) : Z := Z.shiftr (to_long w) (N_FIXNUM_TAG_BITS B).
  (** [make_fixnum(n)] *)
Definition make_fixnum (n : Z) : Z := to_uword (Z.shiftl n (N_FIXNUM_TAG_BITS B)).

  (** [read_TLS(sym, th)]: the word of the thread's block at the
      symbol's offset. *)
Definition read_TLS (sym : Z) (th : thread) : Z := load_word (tls th) sym.

  (** [*os_context_register_addr(context, reg_SP)] *)
Definition context_sp (context : list byte) : Z := load_word context (reg_SP B).
End Tagging.

(** ** The writer: [checked_write] and [save_gc_crashdump]

    What is written is the sequence of the pieces passed to [write],
    one per call and in call order (an empty piece for a call that
    transfers nothing).  [io k n] is what the operating system answers
    to call number [k] asking for [n] bytes: the number of bytes it
    takes, anything else standing for the error return. *)

Definition wstate : Type := list (list byte).

(** The file afterwards, [old] being what a file of that name held
    before (nothing when there was none):
    [open(pathname, O_WRONLY|O_CREAT, 0666)] does not truncate, so the
    pieces go over the old bytes from the start of the file and what
    the old file held beyond them stays. *)
Definition file_contents (old : list byte) (w : wstate) : list byte :=
  concat w ++ skipn (length (concat w)) old.

Section Writer.
Variable B : build.
Variable io : nat -> Z -> Z.

(** [write(fd, buf, count)] where [buf] is the memory readable from the
    buffer's address on.  A buffer shorter than [count] is EFAULT. *)
Definition sys_write (buf : list byte) (count : Z) : M wstate Z :=
  fun w =>
    let c := to_uword count in
    let r := io (length w) c in
    if (0 <=? r) && (r <=? c) && (c <=? Z.of_nat (length buf))
    then Done (r, w ++ [firstn (Z.to_nat r) buf])
    else Done (-1, w ++ [[]]).

(** [static void checked_write(int fd, void* buf, long nbytes)] *)
Definition checked_write (buf : list byte) (nbytes : Z) : M wstate unit :=
  let nbytes := to_long nbytes in
  wrote <- sys_write buf nbytes ;;
  if negb (wrote =? nbytes) then lose ShortWrite else ret tt.

(** The memory readable from address [sp] on, when [sp] lies in the
    thread's control stack. *)
Definition stack_from (th : thread) (sp : Z) : list byte :=
  let base := control_stack_end th - Z.of_nat (length (control_stack th)) in
  if (base <=? sp) && (sp <=? control_stack_end th)
  then skipn (Z.to_nat (sp - base)) (control_stack th)
  else [].

(** [int ici = fixnum_value(read_TLS(FREE_INTERRUPT_CONTEXT_INDEX,th))] *)
Definition interrupt_context_count (th : thread) : Z :=
  to_int (fixnum_value B (read_TLS (FREE_INTERRUPT_CONTEXT_INDEX B) th)).

(** The stack pointer the writer settles on for a thread: the one saved
    in its interrupt context, or for the calling thread the approximate
    one passed in; for any other thread there is none. *)
Definition crash_stackptr (self approx_stackptr_at_gc_start : Z) (th : thread)
  : option Z :=
  if negb (interrupt_context_count th =? 0)
  then Some (to_uword (context_sp B (interrupt_context th)))
  else if negb (th_address th =? self) then None
       else Some (to_uword approx_stackptr_at_gc_start).

Definition crash_thread_preamble (th : thread) (sp : Z) : ThreadPreamble.t :=
  let nbytes_control_stack := to_int (control_stack_end th - sp) in
  let nbytes_binding_stack :=
    to_int (binding_stack_pointer th - binding_stack_start th) in
  {| ThreadPreamble.address := to_uword (th_address th);
     ThreadPreamble.has_context :=
       if negb (interrupt_context_count th =? 0) then 1 else 0;
     ThreadPreamble.control_stack_nbytes := to_uword nbytes_control_stack;
     ThreadPreamble.binding_stack_nbytes := to_uword nbytes_binding_stack |}.

(** The body of the [for_each_thread] loop that writes the threads. *)
Definition save_thread (self approx_stackptr_at_gc_start nbytes_tls : Z)
  (th : thread) : M wstate unit :=
  let ici := interrupt_context_count th in
  match crash_stackptr self approx_stackptr_at_gc_start th with
  | None => exit1                       (* "No stackptr for crash dump" *)
  | Some sp =>
    let nbytes_control_stack := to_int (control_stack_end th - sp) in
    let nbytes_binding_stack :=
      to_int (binding_stack_pointer th - binding_stack_start th) in
    checked_write (encode_thread_preamble (crash_thread_preamble th sp))
                  sizeof_crash_thread_preamble ;;
    (if negb (ici =? 0)
     then _ <- sys_write (interrupt_context th) (to_int (sizeof_os_context B)) ;;
          ret tt
     else ret tt) ;;
    checked_write (stack_from th sp) nbytes_control_stack ;;
    checked_write (binding_stack th) nbytes_binding_stack ;;
    checked_write (tls th) nbytes_tls
  end.

Definition crash_preamble_of (rt : runtime) (padding : list byte) : Preamble.t :=
  {| Preamble.signature := to_uword CRASH_PREAMBLE_SIGNATURE;
     Preamble.static_start := to_uword (STATIC_SPACE_START B);
     Preamble.static_nbytes :=
       to_uword (var rt static_space_free_pointer - STATIC_SPACE_START B);
     Preamble.dynspace_start := to_uword (var rt DYNAMIC_SPACE_START);
     Preamble.dynspace_npages := to_long (var rt next_free_page);
     Preamble.card_size := to_int (GENCGC_CARD_BYTES B);
     Preamble.card_table_nbits := to_int (var rt gc_card_table_nbits);
     Preamble.fixedobj_start := to_uword (var rt FIXEDOBJ_SPACE_START);
     Preamble.fixedobj_size := to_uword (FIXEDOBJ_SPACE_SIZE B);
     Preamble.fixedobj_free_pointer := to_uword (var rt fixedobj_free_pointer);
     Preamble.varyobj_start := to_uword (var rt VARYOBJ_SPACE_START);
     Preamble.varyobj_size := to_uword (VARYOBJ_SPACE_SIZE B);
     Preamble.varyobj_free_pointer := to_uword (var rt varyobj_free_pointer);
     Preamble.nthreads := to_int (Z.of_nat (length (all_threads rt)));
     Preamble.tls_size := to_int (var rt free_tls_index);
     Preamble.lisp_package_vector := to_uword (var rt lisp_package_vector);
     Preamble.sprof_enabled := to_char (var rt sb_sprof_enabled);
     Preamble.pin_dynspace_code := to_char (var rt pin_all_dynamic_space_code);
     Preamble.padding := pad2 padding;
     Preamble.sizeof_context := to_int (sizeof_os_context B) |}.

(** [void save_gc_crashdump(char *pathname, uword_t approx_stackptr_at_gc_start)],
    run by the thread at [self] ([get_sb_vm_thread()]) with [padding]
    in the unassigned bytes of its local [preamble]. *)
Definition save_gc_crashdump (self : Z) (padding : list byte) (rt : runtime)
  (approx_stackptr_at_gc_start : Z) : M wstate unit :=
  let nbytes_heap := to_uword (var rt next_free_page * GENCGC_PAGE_BYTES B) in
  let nbytes_tls := to_int (var rt free_tls_index) in
  let preamble := crash_preamble_of rt padding in
  checked_write (encode_preamble preamble) sizeof_crash_preamble ;;
  checked_write (mem rt static_space) (Preamble.static_nbytes preamble) ;;
  checked_write (mem rt dynamic_space) nbytes_heap ;;
  checked_write (mem rt page_table) (to_uword (sizeof_page B * var rt next_free_page)) ;;
  checked_write (mem rt gc_card_mark) (1 + var rt gc_card_table_mask) ;;
  let usage := to_int (to_uword (var rt fixedobj_free_pointer) - var rt FIXEDOBJ_SPACE_START) in
  checked_write (mem rt fixedobj_space) usage ;;
  let total_npages := to_int (Z.quot (FIXEDOBJ_SPACE_SIZE B) (IMMOBILE_CARD_BYTES B)) in
  (* total_npages * sizeof sizeof(struct fixedobj_page) *)
  checked_write (mem rt fixedobj_pages) (to_uword (total_npages * 8)) ;;
  let usage := to_int (to_uword (var rt varyobj_free_pointer) - var rt VARYOBJ_SPACE_START) in
  checked_write (mem rt varyobj_space) usage ;;
  let total_npages := to_int (Z.quot (VARYOBJ_SPACE_SIZE B) (IMMOBILE_CARD_BYTES B)) in
  let n_bitmap_elts := to_int (Z.quot (ALIGN_UP total_npages 32) 32) in
  checked_write (mem rt varyobj_page_touched_bits) (to_uword (n_bitmap_elts * 4)) ;;
  checked_write (mem rt varyobj_pages) (to_uword (total_npages * 4)) ;;
  for_each (all_threads rt)
           (save_thread self approx_stackptr_at_gc_start nbytes_tls) ;;
  checked_write trailer 8.

End Writer.

(** The operating system that always takes every byte it is given. *)
Definition io_full : nat -> Z -> Z := fun _ n => n.

(** ** The reader: [checked_read] and [load_gc_crashdump] *)

(** What the reader prints about a thread.  The name is the string
    that [%s] prints, [None] for a null pointer; the line of the counts
    shows the second one only when it is not zero. *)
Inductive report : Type :=
| ThreadLine (th originally bind_stk_words val_stk_words : Z)
             (cname : option (list byte))
    (* "thread @ %p originally %p, %d bind_stk words, %d val_stk words '%s'" *)
| NotFound (wordindex word : Z)                  (* " ! sp[%5d] = %x (not found)" *)
| ValidPointers (n_definitely_valid n_dangling : Z).
                                                 (* "%d valid pointers (%d dangling)" *)

(** The unread rest of the file, the globals, the local list [threads]
    and the diagnostics printed so far. *)
Record rstate : Type := {
  input : list byte;
  globals : runtime;
  threads : list thread;
  printed : list report
}.

Definition with_input (i : list byte) (s : rstate) : rstate :=
  {| input := i; globals := globals s; threads := threads s; printed := printed s |}.

Definition get_globals : M rstate runtime := fun s => Done (globals s, s).

Definition modify_globals (f : runtime -> runtime) : M rstate unit :=
  fun s => Done (tt, {| input := input s; globals := f (globals s);
                        threads := threads s; printed := printed s |}).

Definition get_threads : M rstate (list thread) := fun s => Done (threads s, s).

Definition set_threads (ths : list thread) : M rstate unit :=
  fun s => Done (tt, {| input := input s; globals := globals s;
                        threads := ths; printed := printed s |}).

Definition get_input : M rstate (list byte) := fun s => Done (input s, s).

Definition print (l : list report) : M rstate unit :=
  fun s => Done (tt, {| input := input s; globals := globals s;
                        threads := threads s; printed := printed s ++ l |}).

(** [gc_assert(ex)] *)
Definition gc_assert (ex : bool) : M rstate unit :=
  if ex then ret tt else lose GcInvariantLost.

(** [static size_t checked_read(int fd, void* buf, size_t n)]: the bytes
    read, when the file still holds [n] of them. *)
Definition checked_read (n : Z) : M rstate (list byte) :=
  fun s =>
    let n := to_uword n in
    if n <=? Z.of_nat (length (input s))
    then Done (firstn (Z.to_nat n) (input s),
               with_input (skipn (Z.to_nat n) (input s)) s)
    else Lose ReadFailed.

(** [checked_read] aimed [off] bytes into the object [dst]: the object
    afterwards.  Behaviour is undefined when the bytes do not fit. *)
Definition read_into (dst : list byte) (off n : Z) : M rstate (list byte) :=
  bs <- checked_read n ;;
  if fits dst off (to_uword n) then ret (blit dst off bs) else undefined.

Section Reader.
Variable B : build.
(** [os_validate(0, addr, len, 0, 0)]: where the mapping was placed. *)
Variable os_validate : Z -> Z -> Z.
(** The structure returned by call number [i] of [alloc_thread_struct(0, 0)]. *)
Variable alloc_thread_struct : Z -> thread.
(** The memory at the pointer that call number [i] of [malloc] returns
    when asked for [n] bytes: bytes that hold whatever [malloc] leaves
    in them, none at all when it returns NULL. *)
Variable malloc : Z -> Z -> list byte.
(** [search_dynamic_space(word)] on the heap as loaded: the object found, or 0. *)
Variable search_dynamic_space : runtime -> Z -> Z.

Definition read_region (r : region) (n : Z) : M rstate unit :=
  rt <- get_globals ;;
  new <- read_into (mem rt r) 0 n ;;
  modify_globals (set_mem r new).

Definition page_table_pages : Z := dynamic_space_size B / GENCGC_PAGE_BYTES B.

(** Modelled from the spec: [gc_allocate_ptes] is defined outside the
    files under study.  It allocates the page table for the declared
    capacity of the dynamic space and the card table of
    [1 + gc_card_table_mask] bytes, the mask being that of the current
    [gc_card_table_nbits] (gc-unit-tests.c sets up the same shapes by
    hand: 8 bits, mask 0xff, 256 bytes, [1+page_table_pages] entries). *)
Definition gc_allocate_ptes (rt : runtime) : runtime :=
  let mask := 2 ^ var rt gc_card_table_nbits - 1 in
  set_mem page_table (zeros ((1 + page_table_pages) * sizeof_page B))
    (set_mem gc_card_mark (zeros (1 + mask))
       (set_var gc_card_table_mask mask rt)).

(** Modelled from the spec: [os_validate] of a space and
    [gc_init_immobile] are defined outside the files under study.  A
    space mapped where it was asked for is [len] fresh bytes; one that
    was not leaves nothing at that address.  The tables of the two
    immobile spaces are allocated for the declared capacity, in the
    sizes the reader replays them. *)
Definition map_space (addr len : Z) : list byte :=
  if os_validate addr len =? addr then zeros len else [].

Definition fixedobj_total_npages : Z :=
  to_int (Z.quot (FIXEDOBJ_SPACE_SIZE B) (IMMOBILE_CARD_BYTES B)).
Definition varyobj_total_npages : Z :=
  to_int (Z.quot (VARYOBJ_SPACE_SIZE B) (IMMOBILE_CARD_BYTES B)).
Definition n_bitmap_elts : Z :=
  to_int (Z.quot (ALIGN_UP varyobj_total_npages 32) 32).

Definition gc_init_immobile (rt : runtime) : runtime :=
  set_mem varyobj_pages (zeros (varyobj_total_npages * 4))
    (set_mem varyobj_page_touched_bits (zeros (n_bitmap_elts * 4))
       (set_mem fixedobj_pages (zeros (fixedobj_total_npages * 8)) rt)).

(** Modelled from the spec: [find_page_index] is defined outside the
    files under study; [page_index_of(addr)] is the index of the page
    of the dynamic space that holds [addr], -1 when there is none. *)
Definition find_page_index (rt : runtime) (addr : Z) : Z :=
  let index := (addr - var rt DYNAMIC_SPACE_START) / GENCGC_PAGE_BYTES B in
  if (var rt DYNAMIC_SPACE_START <=? addr) && (index <? page_table_pages)
  then index else -1.

(** [page_table[index]], no bytes when there is no such entry. *)
Definition page_table_entry (rt : runtime) (index : Z) : list byte :=
  if 0 <=? index
  then bytes_at (mem rt page_table) (index * sizeof_page B) (sizeof_page B)
  else [].

(** The test of the stack scan on a word (lines 987-989). *)
Definition scan_candidate (rt : runtime) (word : Z) : bool :=
  (var rt DYNAMIC_SPACE_START <=? word)
  && (word <? to_uword (var rt DYNAMIC_SPACE_START + dynamic_space_size B))
  && (is_lisp_pointer B word
      || is_code B (page_type B (page_table_entry rt (find_page_index rt word)))).

(** The scan loop (lines 983-1008) over [stack], the memory from
    [stackptr] on: the two counters and what it prints on the way. *)
Fixpoint scan_loop (rt : runtime) (stack : list byte) (count : nat)
  (wordindex n_definitely_valid n_dangling : Z) : Z * Z * list report :=
  match count with
  | O => (n_definitely_valid, n_dangling, [])
  | S count' =>
    let word := load_word stack (wordindex * N_WORD_BYTES) in
    if scan_candidate rt word
    then if negb (search_dynamic_space rt word =? 0)
         then scan_loop rt stack count' (to_int (wordindex + 1))
                        (to_int (n_definitely_valid + 1)) n_dangling
         else let '(v, d, out) :=
                scan_loop rt stack count' (to_int (wordindex + 1))
                          n_definitely_valid (to_int (n_dangling + 1)) in
              (v, d, NotFound wordindex word :: out)
    else scan_loop rt stack count' (to_int (wordindex + 1))
                   n_definitely_valid n_dangling
  end.

Definition scan_stack (rt : runtime) (stack : list byte) (control_stack_nbytes : Z)
  : Z * Z * list report :=
  let nwords := to_int (Z.shiftr control_stack_nbytes WORD_SHIFT) in
  scan_loop rt stack (Z.to_nat nwords) 0 0 0.

Definition bytes_eqb (a b : list byte) : bool :=
  (length a =? length b)%nat
  && forallb (fun p => byte.unsigned (fst p) =? byte.unsigned (snd p)) (combine a b).

Definition when {S} (c : bool) (m : M S unit) : M S unit :=
  if c then m else ret tt.

(** The iterations [i = 0 .. n-1] of a [for] loop on an [int]. *)
Definition upto (n : Z) : list Z := map Z.of_nat (seq 0 (Z.to_nat n)).

(** [&th->lisp_thread]: the last word of the structure ("The last word
    is the only one we want to keep"). *)
Definition offsetof_lisp_thread : Z := sizeof_thread B - N_WORD_BYTES.

(** Lines 962-967: the first [skip] bytes of the saved structure go to
    the local [dummy] and are dropped, the rest goes to the new
    structure from [&th->lisp_thread] on.  The result is the memory of
    the new structure afterwards. *)
Definition replay_tls (preamble : Preamble.t) (new_tls : list byte)
  : M rstate (list byte) :=
  let skip := to_int (sizeof_thread B - N_WORD_BYTES) in
  _ <- checked_read skip ;;
  read_into new_tls offsetof_lisp_thread
            (to_int (Preamble.tls_size preamble - skip)).

(** [th->prev = p], a store into the memory of the structure. *)
Definition set_prev (p : Z) (th : thread) : thread :=
  {| th_address := th_address th;
     control_stack_end := control_stack_end th;
     control_stack := control_stack th;
     binding_stack_start := binding_stack_start th;
     binding_stack_pointer := binding_stack_pointer th;
     binding_stack := binding_stack th;
     tls := store_word (tls th) (offsetof_prev B) p;
     interrupt_context := interrupt_context th |}.

(** The pointer [threads]: the address of the first structure of the
    list, NULL when there is none. *)
Definition threads_pointer (threads : list thread) : Z :=
  match threads with
  | [] => 0
  | head :: _ => th_address head
  end.

(** Line 946, [if (threads) threads->prev = th]: the list with the
    store made in its first structure. *)
Definition link_before (th : Z) (threads : list thread) : M rstate (list thread) :=
  match threads with
  | [] => ret []
  | head :: rest =>
    when (negb (fits (tls head) (offsetof_prev B) N_WORD_BYTES)) undefined ;;
    ret (set_prev th head :: rest)
  end.

(** The memory from an address on, as far as the space goes that holds
    the address.  Of the memory of the process only the four spaces are
    kept here: a read elsewhere has no result. *)
Definition space_from (start : Z) (space : list byte) (addr : Z) : option (list byte) :=
  if (start <=? addr) && (addr <? start + Z.of_nat (length space))
  then Some (skipn (Z.to_nat (addr - start)) space)
  else None.

Definition memory_from (rt : runtime) (addr : Z) : option (list byte) :=
  match space_from (STATIC_SPACE_START B) (mem rt static_space) addr with
  | Some bs => Some bs
  | None =>
  match space_from (var rt DYNAMIC_SPACE_START) (mem rt dynamic_space) addr with
  | Some bs => Some bs
  | None =>
  match space_from (var rt FIXEDOBJ_SPACE_START) (mem rt fixedobj_space) addr with
  | Some bs => Some bs
  | None => space_from (var rt VARYOBJ_SPACE_START) (mem rt varyobj_space) addr
  end end end.

(** The [len] bytes at an address. *)
Definition read_memory (rt : runtime) (addr len : Z) : option (list byte) :=
  match memory_from rt addr with
  | Some bs => if len <=? Z.of_nat (length bs) then Some (firstn (Z.to_nat len) bs)
               else None
  | None => None
  end.

(** The characters of the C string that starts with the first byte:
    those before the NUL, when there is one. *)
Fixpoint string_of (bs : list byte) : option (list byte) :=
  match bs with
  | [] => None
  | b :: rest =>
    if byte.unsigned b =? 0 then Some []
    else match string_of rest with
         | Some s => Some (b :: s)
         | None => None
         end
  end.

(** [native_pointer(obj)] *)
Definition native_pointer (obj : Z) : Z := Z.land obj (Z.lnot (LOWTAG_MASK B)).

(** The value of an access to memory, which has none outside of it. *)
Definition defined {A} (o : option A) : M rstate A :=
  match o with
  | Some a => ret a
  | None => undefined
  end.

(** Lines 969-973 and the [%s] of line 974: the instance that
    [th->lisp_thread] points to is read for its name, the name for its
    widetag when it is an address that the collector manages, and the
    characters of a base string for printing.  The result is the string
    printed, if any; there is none when one of the reads is outside of
    the memory kept here. *)
Definition thread_cname (rt : runtime) (lisp_thread : Z) : option (option (list byte)) :=
  let instance := to_uword (lisp_thread - INSTANCE_POINTER_LOWTAG B) in
  match read_memory rt (to_uword (instance + offsetof_name B)) N_WORD_BYTES with
  | None => None
  | Some bs =>
    let name := le_combine bs in
    if gc_managed_addr_p B rt name
    then match read_memory rt (native_pointer name) 1 with
         | None => None
         | Some header =>
           if le_combine header =? SIMPLE_BASE_STRING_WIDETAG B
           then match memory_from rt (to_uword (name + 1)) with
                | None => None
                | Some chars =>
                  match string_of chars with
                  | Some s => Some (Some s)
                  | None => None
                  end
                end
           else Some None
         end
    else Some None
  end.

(** The body of the loop over the thread records (lines 941-1009).  The
    C code puts the new structure in front of [threads] first and fills
    it through the pointer; here the stores of lines 944-946 are made
    first, the structure is filled, and then it is put in front.  The
    array [contexts] is written and never read: the stores into it are
    left out (from the eleventh thread on they land beyond the array). *)
Definition load_thread (preamble : Preamble.t) (i : Z) : M rstate unit :=
  let th := alloc_thread_struct i in
  (* th->prev = 0; th->next = threads; if (threads) threads->prev = th *)
  older <- get_threads ;;
  when (negb (fits (tls th) (offsetof_prev B) N_WORD_BYTES)) undefined ;;
  let block := store_word (tls th) (offsetof_prev B) 0 in
  when (negb (fits block (offsetof_next B) N_WORD_BYTES)) undefined ;;
  let block := store_word block (offsetof_next B) (threads_pointer older) in
  older <- link_before (th_address th) older ;;
  bs <- checked_read sizeof_crash_thread_preamble ;;
  let thread_preamble := decode_thread_preamble bs in
  let control_stack_nbytes := ThreadPreamble.control_stack_nbytes thread_preamble in
  let stackptr := to_uword (control_stack_end th - control_stack_nbytes) in
  (* context = contexts[i] = malloc(preamble.sizeof_context) *)
  let context := malloc i (to_uword (Preamble.sizeof_context preamble)) in
  context <- (if negb (ThreadPreamble.has_context thread_preamble =? 0)
              then read_into context 0 (Preamble.sizeof_context preamble)
              else ret context) ;;
  (* *os_context_sp_addr(context) = (uword_t)stackptr *)
  when (negb (fits context (reg_SP B) N_WORD_BYTES)) undefined ;;
  let context := store_word context (reg_SP B) stackptr in
  let base := control_stack_end th - Z.of_nat (length (control_stack th)) in
  stack <- read_into (control_stack th) (stackptr - base) control_stack_nbytes ;;
  bstack <- read_into (binding_stack th) 0
                      (ThreadPreamble.binding_stack_nbytes thread_preamble) ;;
  block <- replay_tls preamble block ;;
  (* write_TLS(FREE_INTERRUPT_CONTEXT_INDEX, make_fixnum(1), th) *)
  when (negb (fits block (FREE_INTERRUPT_CONTEXT_INDEX B) N_WORD_BYTES)) undefined ;;
  let block := store_word block (FREE_INTERRUPT_CONTEXT_INDEX B) (make_fixnum B 1) in
  (* instance = th->lisp_thread - INSTANCE_POINTER_LOWTAG; name = instance->name *)
  when (negb (fits block offsetof_lisp_thread N_WORD_BYTES)) undefined ;;
  rt <- get_globals ;;
  cname <- defined (thread_cname rt (load_word block offsetof_lisp_thread)) ;;
  print [ThreadLine (th_address th) (ThreadPreamble.address thread_preamble)
           (to_int (Z.shiftr (ThreadPreamble.binding_stack_nbytes thread_preamble)
                             WORD_SHIFT))
           (to_int (Z.shiftr control_stack_nbytes WORD_SHIFT))
           cname] ;;
  let th := {| th_address := th_address th;
               control_stack_end := control_stack_end th;
               control_stack := stack;
               binding_stack_start := binding_stack_start th;
               binding_stack_pointer := binding_stack_pointer th;
               binding_stack := bstack;
               tls := block;
               interrupt_context := context |} in
  rt <- get_globals ;;
  let '(n_definitely_valid, n_dangling, out) :=
    scan_stack rt (stack_from th stackptr) control_stack_nbytes in
  print (out ++ [ValidPointers n_definitely_valid n_dangling]) ;;
  set_threads (th :: older).

(** [int load_gc_crashdump(char* pathname)] on a file that could be
    opened, in three parts.  First lines 874-1009: the preamble, the
    spaces with their tables, the threads.
    [recompute_gen_bytes_allocated], the statistics printed and the
    write protection of the immobile space do not touch the state kept
    here. *)
Definition load_records : M rstate unit :=
  bs <- checked_read sizeof_crash_preamble ;;
  let preamble := decode_preamble bs in
  modify_globals (fun rt =>
    set_var sb_sprof_enabled (Preamble.sprof_enabled preamble)
      (set_var lisp_package_vector (Preamble.lisp_package_vector preamble) rt)) ;;
  when (negb (Preamble.signature preamble =? to_uword CRASH_PREAMBLE_SIGNATURE))
       (lose BadHeader) ;;
  when (negb (Preamble.card_size preamble =? to_int (GENCGC_CARD_BYTES B)))
       (lose MemoryParametersDiffer) ;;
  modify_globals (fun rt =>
    set_var next_free_page (Preamble.dynspace_npages preamble)
      (gc_allocate_ptes
         (set_var gc_card_table_nbits (Preamble.card_table_nbits preamble) rt))) ;;
  read_region static_space (Preamble.static_nbytes preamble) ;;
  modify_globals (fun rt =>
    set_var DYNAMIC_SPACE_START (Preamble.dynspace_start preamble)
      (set_var static_space_free_pointer
         (to_uword (STATIC_SPACE_START B + Preamble.static_nbytes preamble)) rt)) ;;
  let dynspace_nbytes :=
    to_long (Preamble.dynspace_npages preamble * GENCGC_PAGE_BYTES B) in
  when (negb (os_validate (Preamble.dynspace_start preamble)
                          (DEFAULT_DYNAMIC_SPACE_SIZE B)
              =? Preamble.dynspace_start preamble))
       (lose NotMappedWhereExpected) ;;
  modify_globals (set_mem dynamic_space (zeros (DEFAULT_DYNAMIC_SPACE_SIZE B))) ;;
  read_region dynamic_space dynspace_nbytes ;;
  rt <- get_globals ;;
  read_region page_table (to_uword (sizeof_page B * var rt next_free_page)) ;;
  read_region gc_card_mark (1 + var rt gc_card_table_mask) ;;
  gc_assert (Preamble.fixedobj_size preamble =? to_uword (FIXEDOBJ_SPACE_SIZE B)) ;;
  gc_assert (Preamble.varyobj_size preamble =? to_uword (VARYOBJ_SPACE_SIZE B)) ;;
  modify_globals (fun rt =>
    gc_init_immobile
      (set_mem varyobj_space
         (map_space (Preamble.varyobj_start preamble) (VARYOBJ_SPACE_SIZE B))
      (set_mem fixedobj_space
         (map_space (Preamble.fixedobj_start preamble) (FIXEDOBJ_SPACE_SIZE B))
      (set_var varyobj_free_pointer (Preamble.varyobj_free_pointer preamble)
      (set_var fixedobj_free_pointer (Preamble.fixedobj_free_pointer preamble)
      (set_var VARYOBJ_SPACE_START (Preamble.varyobj_start preamble)
      (set_var FIXEDOBJ_SPACE_START (Preamble.fixedobj_start preamble) rt))))))) ;;
  rt <- get_globals ;;
  let usage :=
    to_int (to_uword (var rt fixedobj_free_pointer) - var rt FIXEDOBJ_SPACE_START) in
  read_region fixedobj_space usage ;;
  (* total_npages * sizeof sizeof(struct fixedobj_page) *)
  read_region fixedobj_pages (to_uword (fixedobj_total_npages * 8)) ;;
  let usage :=
    to_int (to_uword (var rt varyobj_free_pointer) - var rt VARYOBJ_SPACE_START) in
  read_region varyobj_space usage ;;
  read_region varyobj_page_touched_bits (to_uword (n_bitmap_elts * 4)) ;;
  read_region varyobj_pages (to_uword (varyobj_total_npages * 4)) ;;
  for_each (upto (to_int (Preamble.nthreads preamble))) (load_thread preamble).

(** Lines 1010-1012: [gc_assert(!strncmp(signature, "SB.Crash", 8))]. *)
Definition read_trailer : M rstate unit :=
  signature <- checked_read 8 ;;
  gc_assert (bytes_eqb signature trailer).

(** Line 1013: [gc_assert(read(fd, signature, 1) == 0)]. *)
Definition at_eof : M rstate unit :=
  rest <- get_input ;;
  gc_assert (match rest with [] => true | _ => false end).

Definition load_gc_crashdump : M rstate unit :=
  load_records ;;
  read_trailer ;;
  at_eof ;;
  ths <- get_threads ;;
  modify_globals (set_all_threads ths).

(** The reader started on a file, in the process as [main] has set it up. *)
Definition restore (rt0 : runtime) (file : list byte) : outcome rstate :=
  match load_gc_crashdump
          {| input := file; globals := rt0; threads := []; printed := [] |} with
  | Done (_, s) => Done s
  | Lose why => Lose why
  | Exit1 => Exit1
  | Undefined => Undefined
  end.

End Reader.

(** The writer run on a new file by the thread at [self]: the pieces written. *)
Definition capture (B : build) (io : nat -> Z -> Z) (self : Z) (padding : list byte)
  (rt : runtime) (approx_stackptr_at_gc_start : Z) : outcome wstate :=
  match save_gc_crashdump B io self padding rt approx_stackptr_at_gc_start [] with
  | Done (_, w) => Done w
  | Lose why => Lose why
  | Exit1 => Exit1
  | Undefined => Undefined
  end.

(** ** A small build and process to run the code on

    A build with 4096-byte pages, a dynamic space of two pages and
    immobile spaces of one and two cards; the tagging is that of the
    64-bit ports (pointers end in binary 11, fixnums carry one tag bit). *)

Definition example_build : build := {|
  STATIC_SPACE_START := 0x50000000;
  STATIC_SPACE_SIZE := 64;
  GENCGC_PAGE_BYTES := 4096;
  GENCGC_CARD_BYTES := 512;
  DEFAULT_DYNAMIC_SPACE_SIZE := 2 * 4096;
  dynamic_space_size := 2 * 4096;
  sizeof_page := 8;
  page_type := fun entry => Z.land (le_combine (bytes_at entry 6 1)) 15;
  is_code := fun type => Z.land type 7 =? 7;
  is_lisp_pointer := fun word => Z.land word 3 =? 3;
  FIXEDOBJ_SPACE_SIZE := 1 * 4096;
  VARYOBJ_SPACE_SIZE := 2 * 4096;
  IMMOBILE_CARD_BYTES := 4096;
  sizeof_thread := 64;
  sizeof_os_context := 936;
  reg_SP := 160;
  FREE_INTERRUPT_CONTEXT_INDEX := 72;
  N_FIXNUM_TAG_BITS := 1;
  offsetof_prev := 40;
  offsetof_next := 48;
  INSTANCE_POINTER_LOWTAG := 3;
  LOWTAG_MASK := 15;
  SIMPLE_BASE_STRING_WIDETAG := 0xe5;
  offsetof_name := 24;
  gc_managed_addr_p := fun rt addr =>
    (var rt DYNAMIC_SPACE_START <=? addr)
    && (addr <? var rt DYNAMIC_SPACE_START + 2 * 4096) |}.

Definition fill (n : Z) (b : byte) : list byte := repeat b (Z.to_nat n).

(** The thread that runs the writer: no interrupt context, three words
    on its stack above the stack pointer 0x7f0000001fe8; its
    [lisp_thread] is the instance at 0x1000000100. *)
Definition example_self : thread := {|
  th_address := 0x7f0000001000;
  control_stack_end := 0x7f0000002000;
  control_stack :=
    fill 40 Byte.x11 ++ le_split 8 0x1000000013 ++ le_split 8 0x1000000020
    ++ le_split 8 5;
  binding_stack_start := 0x7f0000003000;
  binding_stack_pointer := 0x7f0000003010;
  binding_stack := fill 32 Byte.x22;
  tls := fill 56 Byte.x33 ++ le_split 8 0x1000000103 ++ fill 8 Byte.x33
         ++ le_split 8 0 ++ fill 16 Byte.x44;
  interrupt_context := [] |}.

(** A thread stopped in a signal handler: one interrupt context, whose
    stack pointer register holds 0x7f0000011ff0; its [lisp_thread] is
    the instance at 0x1000000180. *)
Definition example_other : thread := {|
  th_address := 0x7f0000011000;
  control_stack_end := 0x7f0000012000;
  control_stack := fill 48 Byte.x55 ++ le_split 8 0x1000001007 ++ le_split 8 7;
  binding_stack_start := 0x7f0000013000;
  binding_stack_pointer := 0x7f0000013008;
  binding_stack := fill 32 Byte.x66;
  tls := fill 56 Byte.x77 ++ le_split 8 0x1000000183 ++ fill 8 Byte.x77
         ++ le_split 8 2 ++ fill 16 Byte.x88;
  interrupt_context :=
    fill 160 Byte.x99 ++ le_split 8 0x7f0000011ff0 ++ fill 768 Byte.xaa |}.

Definition example_vars (npages : Z) (g : global) : Z :=
  match g with
  | static_space_free_pointer => 0x50000000 + 16
  | DYNAMIC_SPACE_START => 0x1000000000
  | next_free_page => npages
  | gc_card_table_nbits => 4
  | gc_card_table_mask => 15
  | FIXEDOBJ_SPACE_START => 0x50100000
  | fixedobj_free_pointer => 0x50100000 + 32
  | VARYOBJ_SPACE_START => 0x52000000
  | varyobj_free_pointer => 0x52000000 + 48
  | free_tls_index => 96
  | lisp_package_vector => 0x1000000103
  | sb_sprof_enabled => 0
  | pin_all_dynamic_space_code => 0
  end.

(** The dynamic space of the example: at 0x1000000100 an instance whose
    name, in its fourth word, is the base string "main" at
    0x1000000140; at 0x1000000180 an instance whose name is an address
    of the static space. *)
Definition example_heap : list byte :=
  let instance name := le_split 8 0x21 ++ fill 16 Byte.x02 ++ le_split 8 name in
  let main := le_split 8 0xe5 ++ le_split 8 8
              ++ [Byte.x6d; Byte.x61; Byte.x69; Byte.x6e; Byte.x00] in
  blit (blit (blit (fill (2 * 4096) Byte.x02)
                   0x100 (instance 0x100000014f))
             0x140 main)
       0x180 (instance 0x50000017).

(** Page 0 of the dynamic space is a code page, page 1 is not. *)
Definition example_mem (r : region) : list byte :=
  match r with
  | static_space => fill 64 Byte.x01
  | dynamic_space => example_heap
  | page_table =>
      fill 6 Byte.x00 ++ [Byte.x07; Byte.x00] ++
      fill 6 Byte.x00 ++ [Byte.x02; Byte.x00] ++ fill 8 Byte.x00
  | gc_card_mark => fill 16 Byte.x04
  | fixedobj_space => fill 4096 Byte.x05
  | fixedobj_pages => fill 8 Byte.x06
  | varyobj_space => fill (2 * 4096) Byte.x07
  | varyobj_page_touched_bits => fill 4 Byte.x08
  | varyobj_pages => fill 8 Byte.x09
  end.

Definition example_runtime (npages : Z) (ths : list thread) : runtime :=
  {| var := example_vars npages; mem := example_mem; all_threads := ths |}.

(** The process the reader starts in, and what it is handed. *)
Definition fresh_runtime (nbits : Z) : runtime := {|
  var := fun g => match g with gc_card_table_nbits => nbits | _ => 0 end;
  mem := fun r => match r with static_space => zeros 64 | _ => [] end;
  all_threads := [] |}.

Definition fresh_thread (i : Z) : thread := {|
  th_address := 0x7e0000000000 + i * 0x10000;
  control_stack_end := 0x7e0000000000 + i * 0x10000 + 0x2000;
  control_stack := zeros 64;
  binding_stack_start := 0x7e0000000000 + i * 0x10000 + 0x3000;
  binding_stack_pointer := 0x7e0000000000 + i * 0x10000 + 0x3000;
  binding_stack := zeros 32;
  tls := fill 128 Byte.xff;
  interrupt_context := [] |}.

(** A [malloc] that hands out blocks filled with 0xcc. *)
Definition fresh_block : Z -> Z -> list byte := fun _ n => fill n Byte.xcc.

Definition os_validate_as_asked : Z -> Z -> Z := fun addr _ => addr.

Definition example_search : runtime -> Z -> Z :=
  fun _ word => if word =? 0x1000000013 then 0x1000000010 else 0.

Definition example_preamble : Preamble.t :=
  crash_preamble_of example_build (example_runtime 1 [example_self]) [].

(** The reader about to replay the thread-local block of [example_self]. *)
Definition example_rstate : rstate :=
  {| input := tls example_self ++ trailer;
     globals := fresh_runtime 0; threads := []; printed := [] |}.

(** A thread that is neither the caller nor stopped in a handler. *)
Definition example_running : thread := {|
  th_address := 0x7f0000021000;
  control_stack_end := 0x7f0000022000;
  control_stack := fill 64 Byte.x55;
  binding_stack_start := 0x7f0000023000;
  binding_stack_pointer := 0x7f0000023008;
  binding_stack := fill 32 Byte.x66;
  tls := fill 72 Byte.x77 ++ le_split 8 0 ++ fill 16 Byte.x88;
  interrupt_context := [] |}.

(** An operating system that takes only [m] bytes at call number [k]. *)
Definition io_short_at (k : nat) (m : Z) : nat -> Z -> Z :=
  fun i n => if Nat.eqb i k then m else n.

(** The file written for the two example threads, every write going through. *)
Definition example_file : list byte :=
  match capture example_build io_full 0x7f0000001000 []
                (example_runtime 1 [example_self; example_other]) 0x7f0000001fe8 with
  | Done w => file_contents [] w
  | _ => []
  end.

(** ** The monitor: [ldb_monitor] and its commands

    C strings are [String.string]: the characters before the
    terminating NUL. *)

Definition NUL : Ascii.ascii := Ascii.ascii_of_nat 0.
Definition TAB : Ascii.ascii := Ascii.ascii_of_nat 9.
Definition NEWLINE : Ascii.ascii := Ascii.ascii_of_nat 10.

(** The C string that starts at the first character of a buffer. *)
Fixpoint c_str (buf : String.string) : String.string :=
  match buf with
  | String.EmptyString => String.EmptyString
  | String.String c rest =>
    if Ascii.eqb c NUL then String.EmptyString else String.String c (c_str rest)
  end.

(** [strcmp(a, b) == 0] *)
Fixpoint strcmp_eq (a b : String.string) : bool :=
  match a, b with
  | String.EmptyString, String.EmptyString => true
  | String.String x a', String.String y b' => Ascii.eqb x y && strcmp_eq a' b'
  | _, _ => false
  end.

(** [strncmp(a, b, n) == 0] *)
Fixpoint strncmp_eq (a b : String.string) (n : nat) : bool :=
  match n with
  | O => true
  | S n' =>
    match a, b with
    | String.EmptyString, String.EmptyString => true
    | String.String x a', String.String y b' => Ascii.eqb x y && strncmp_eq a' b' n'
    | _, _ => false
    end
  end.

Module Fn.
(** The functions of type [cmd] that the table of commands points to. *)
Inductive t : Type :=
| help_cmd | backtrace_cmd | call_cmd | catchers_cmd | print_context_cmd
| dump_cmd | exit_cmd | flush_cmd | grab_sigs_cmd | kill_cmd | purify_cmd
| print_cmd | pte_cmd | quit_cmd | regs_cmd | search_cmd | save_cmd
| threads_cmd | verify_cmd | gc_cmd.
End Fn.

Module Cmd.
(** [struct cmd]: the fields [cmd], [help] and the function pointer [fn]. *)
Record t : Type := {
  cmd : String.string;
  help : option String.string;
  fn : Fn.t
}.
End Cmd.

(** [supported_cmds], up to the entry of three NULLs that ends it. *)
Definition supported_cmds : list Cmd.t :=
  let entry c h f := {| Cmd.cmd := c; Cmd.help := Some h; Cmd.fn := f |} in
  ([ entry "help" "Display this help information." Fn.help_cmd;
    entry "?" "(an alias for help)" Fn.help_cmd;
    entry "backtrace" "Backtrace up to N frames." Fn.backtrace_cmd;
    entry "call" "Call FUNCTION with ARG1, ARG2, ..." Fn.call_cmd;
    entry "catchers" "Print a list of all the active catchers." Fn.catchers_cmd;
    entry "context" "Print interrupt context number I." Fn.print_context_cmd;
    entry "dump" "Dump memory starting at ADDRESS for COUNT words." Fn.dump_cmd;
    entry "d" "(an alias for dump)" Fn.dump_cmd;
    entry "exit" "Exit this instance of the monitor." Fn.exit_cmd;
    entry "flush" "Flush all temp variables." Fn.flush_cmd;
    entry "grab-signals" "Set the signal handlers to call LDB." Fn.grab_sigs_cmd;
    entry "kill" "Kill ourself with signal number N (useful if running under gdb)"
          Fn.kill_cmd;
    entry "purify" "Purify. (Caveat purifier!)" Fn.purify_cmd;
    entry "print" "Print object at ADDRESS." Fn.print_cmd;
    entry "p" "(an alias for print)" Fn.print_cmd;
    entry "pte" "Page table entry for address" Fn.pte_cmd;
    entry "quit" "Quit." Fn.quit_cmd;
    entry "regs" "Display current Lisp registers." Fn.regs_cmd;
    entry "search" "Search heap for object." Fn.search_cmd;
    entry "save" "Produce crashdump" Fn.save_cmd;
    entry "threads" "List threads" Fn.threads_cmd;
    entry "verify" "Check heap invariants" Fn.verify_cmd;
    entry "gc" "Collect garbage" Fn.gc_cmd ])%string.

(** The search of [ldb_monitor] for the command that a token names:
    [found] and [ambig] after the [for] loop over the table. *)
Fixpoint find_cmd (token : String.string) (cmds : list Cmd.t)
  (found : option Cmd.t) (ambig : bool) : option Cmd.t * bool :=
  match cmds with
  | [] => (found, ambig)
  | cmd :: rest =>
    if strcmp_eq token (Cmd.cmd cmd) then (Some cmd, false)   (* break *)
    else if strncmp_eq token (Cmd.cmd cmd) (String.length token)
    then match found with
         | Some _ => find_cmd token rest found true
         | None => find_cmd token rest (Some cmd) ambig
         end
    else find_cmd token rest found ambig
  end.

(** [fgets(buf, size, stream)] on the characters left in the stream:
    at most [n = size - 1] of them, the first newline being the last
    one taken. *)
Fixpoint take_line (n : nat) (stream : String.string) : String.string * String.string :=
  match n, stream with
  | S n', String.String c rest =>
    if Ascii.eqb c NEWLINE then (String.String c String.EmptyString, rest)
    else let '(line, rest') := take_line n' rest in (String.String c line, rest')
  | _, _ => (String.EmptyString, stream)
  end.

Section Monitor.
(** The process apart from the monitor's own input stream and output:
    the heap, the threads, and whatever the other modules keep. *)
Variable W : Type.

(** What the monitor reads from [ldb_in] is still to come; what it has
    printed itself is kept in the order of the calls. *)
Record mstate : Type := {
  ldb_in : String.string;
  stdout : list String.string;
  stderr : list String.string;
  world : W
}.

(** [parse_token(&ptr)] of parse.c: the token and where [*ptr] is
    afterwards, or NULL. *)
Variable parse_token : String.string -> option (String.string * String.string).
(** [reset_printer()] of print.c. *)
Variable reset_printer : W -> W.
(** [gc_active_p] *)
Variable gc_active_p : W -> bool.
(** [suspend_other_threads(); save_gc_crashdump(name, frame address);
    unsuspend_other_threads();] in the process. *)
Variable crashdump_to : String.string -> W -> outcome W.
(** The commands that are not run here, on the rest of the line: those
    that call into the other modules of the runtime, and [dump] and
    [context], which are modelled on their own below.  None of them
    reads from [ldb_in]. *)
Variable other_cmd : Fn.t -> String.string -> W -> outcome (Z * W).

Definition put (text : String.string) (s : mstate) : mstate :=
  {| ldb_in := ldb_in s; stdout := stdout s ++ [text];
     stderr := stderr s; world := world s |}.

Definition printf (text : String.string) : M mstate unit :=
  fun s => Done (tt, put text s).

Definition eprintf (text : String.string) : M mstate unit :=
  fun s => Done (tt, {| ldb_in := ldb_in s; stdout := stdout s;
                        stderr := stderr s ++ [text]; world := world s |}).

Definition in_world {A} (f : W -> outcome (A * W)) : M mstate A :=
  fun s => match f (world s) with
           | Done (a, w) => Done (a, {| ldb_in := ldb_in s; stdout := stdout s;
                                        stderr := stderr s; world := w |})
           | Lose why => Lose why
           | Exit1 => Exit1
           | Undefined => Undefined
           end.

(** [fgets(buf, size, ldb_in)]: the buffer as a C string, or NULL at
    the end of the input. *)
Definition fgets (size : nat) : M mstate (option String.string) :=
  fun s =>
    match ldb_in s with
    | String.EmptyString => Done (None, s)
    | _ =>
      let '(line, rest) := take_line (size - 1) (ldb_in s) in
      Done (Some (c_str line),
            {| ldb_in := rest; stdout := stdout s; stderr := stderr s;
               world := world s |})
    end.

(** [buf[0]] of a C string *)
Definition first_char (buf : String.string) : Ascii.ascii :=
  match buf with String.String c _ => c | String.EmptyString => NUL end.

Definition line_of (text : String.string) : String.string :=
  String.append text (String.String NEWLINE String.EmptyString).

(** [static int exit_cmd(char **ptr)] *)
Definition exit_cmd : M mstate Z := ret 1.   (* 'done' flag *)

(** [static int quit_cmd(char **ptr)]; [exit(1)] ends the process as
    [_exit(1)] does. *)
Definition quit_cmd : M mstate Z :=
  printf "Really quit? [y] "%string ;;
  buf <- fgets 10 ;;
  match buf with
  | Some buf =>
    if Ascii.eqb (first_char buf) "y"%char || Ascii.eqb (first_char buf) "Y"%char
       || Ascii.eqb (first_char buf) NEWLINE
    then exit1
    else ret 0
  | None =>
    printf (String.String NEWLINE (line_of "Unable to read response, assuming y."%string)) ;;
    exit1
  end.

(** [static int help_cmd(char **ptr)] over a table *)
Definition help_cmd (cmds : list Cmd.t) : M mstate Z :=
  for_each cmds (fun cmd =>
    match Cmd.help cmd with
    | Some help =>
      printf (line_of (String.append (Cmd.cmd cmd) (String.String TAB help)))
    | None => ret tt
    end) ;;
  ret 0.

(** [static int save_cmd(char **ptr)] *)
Definition save_cmd (ptr : String.string) : M mstate Z :=
  match parse_token ptr with
  | None => eprintf (line_of "Need filename"%string) ;; ret 1
  | Some (name, _) =>
    in_world (fun w => match crashdump_to name w with
                       | Done w' => Done (tt, w')
                       | Lose why => Lose why
                       | Exit1 => Exit1
                       | Undefined => Undefined
                       end) ;;
    ret 0
  end.

(** The call through [found->fn] on [&ptr]. *)
Definition call_fn (fn : Fn.t) (ptr : String.string) : M mstate Z :=
  match fn with
  | Fn.exit_cmd => exit_cmd
  | Fn.quit_cmd => quit_cmd
  | Fn.help_cmd => help_cmd supported_cmds
  | Fn.save_cmd => save_cmd ptr
  | _ => in_world (other_cmd fn ptr)
  end.

(** The [while (1)] loop of [ldb_monitor], for at most [fuel] rounds;
    [None] when they do not suffice. *)
Fixpoint ldb_loop (fuel : nat) (s : mstate) : option (outcome (unit * mstate)) :=
  match fuel with
  | O => None
  | S fuel' =>
    match (printf "ldb> "%string ;; fgets 256) s with
    | Done (None, _) => Some Exit1                          (* exit(1) *)
    | Done (Some line, s) =>
      match parse_token line with
      | None => ldb_loop fuel' s                            (* continue *)
      | Some (token, ptr) =>
        match find_cmd token supported_cmds None false with
        | (_, true) =>
          ldb_loop fuel' (put (String.append "``"%string (String.append token
                                 (line_of "'' is ambiguous."%string))) s)
        | (None, false) =>
          ldb_loop fuel' (put (String.append "unknown command: ``"%string
                                 (String.append token (line_of "''"%string))) s)
        | (Some found, false) =>
          match (in_world (fun w => Done (tt, reset_printer w)) ;;
                 call_fn (Cmd.fn found) ptr) s with
          | Done (done, s) =>
            if done =? 0 then ldb_loop fuel' s else Some (Done (tt, s))   (* return *)
          | Lose why => Some (Lose why)
          | Exit1 => Some Exit1
          | Undefined => Some Undefined
          end
        end
      end
    | Lose why => Some (Lose why)
    | Exit1 => Some Exit1
    | Undefined => Some Undefined
    end
  end.

(** [void ldb_monitor(void)] with [ldb_in] open; the flush of the GC
    activity log is left out. *)
Definition ldb_monitor (fuel : nat) (s : mstate) : option (outcome (unit * mstate)) :=
  match (printf (line_of
           "Welcome to LDB, a low-level debugger for the Lisp runtime environment."%string) ;;
         when (gc_active_p (world s)) (printf (line_of "(GC in progress)"%string))) s with
  | Done (_, s) => ldb_loop fuel s
  | Lose why => Some (Lose why)
  | Exit1 => Some Exit1
  | Undefined => Some Undefined
  end.

End Monitor.

Arguments Build_mstate {W} ldb_in stdout stderr world.
Arguments ldb_in {W} m.
Arguments stdout {W} m.
Arguments stderr {W} m.
Arguments world {W} m.
Arguments put {W} text s.
Arguments printf {W} text s.
Arguments eprintf {W} text s.
Arguments in_world {W A} f s.
Arguments fgets {W} size s.
Arguments exit_cmd {W} s.
Arguments quit_cmd {W} s.
Arguments help_cmd {W} cmds s.
Arguments save_cmd {W} parse_token crashdump_to ptr s.
Arguments call_fn {W} parse_token crashdump_to other_cmd fn ptr s.
Arguments ldb_loop {W} parse_token reset_printer crashdump_to other_cmd fuel s.
Arguments ldb_monitor {W} parse_token reset_printer gc_active_p crashdump_to other_cmd fuel s.

(** A tokenizer to run the monitor with: blanks before the token are
    skipped, the token ends before the next blank or newline. *)
Definition is_blank (c : Ascii.ascii) : bool :=
  Ascii.eqb c " " || Ascii.eqb c TAB || Ascii.eqb c NEWLINE.

Fixpoint skip_blanks (ptr : String.string) : String.string :=
  match ptr with
  | String.String c rest => if is_blank c then skip_blanks rest else ptr
  | String.EmptyString => ptr
  end.

Fixpoint until_blank (ptr : String.string) : String.string * String.string :=
  match ptr with
  | String.String c rest =>
    if is_blank c then (String.EmptyString, ptr)
    else let '(token, rest') := until_blank rest in (String.String c token, rest')
  | String.EmptyString => (String.EmptyString, ptr)
  end.

Definition example_parse_token (ptr : String.string)
  : option (String.string * String.string) :=
  match skip_blanks ptr with
  | String.EmptyString => None
  | ptr' => Some (until_blank ptr')
  end.

(** A world that only records which of the other commands were run. *)
Definition example_world : Type := list (Fn.t * String.string).

Definition example_other_cmd (fn : Fn.t) (ptr : String.string) (w : example_world)
  : outcome (Z * example_world) := Done (0, w ++ [(fn, ptr)]).

Definition example_crashdump_to (name : String.string) (w : example_world)
  : outcome example_world := Done (w ++ [(Fn.save_cmd, name)]).

Definition example_mstate (input : String.string) : mstate example_world :=
  {| ldb_in := input; stdout := []; stderr := []; world := [] |}.

Definition example_input : String.string :=
  String.append (line_of "help"%string) (line_of "bogus"%string).

Definition example_monitor (fuel : nat) (input : String.string)
  : option (outcome (unit * mstate example_world)) :=
  ldb_monitor example_parse_token (fun w => w) (fun _ => false)
              example_crashdump_to example_other_cmd fuel (example_mstate input).

(** ** The [dump] command *)

(** [static int visible(unsigned char c)] *)
Definition visible (c : Z) : Z :=
  if (c <? 32) || (126 <? c) then 32 else c.      (* ' ' and '~' *)

Module Dump.
(** The two [static] variables of [dump_cmd]. *)
Record state : Type := {
  lastaddr : Z;
  lastcount : Z
}.
End Dump.

(** [static char *lastaddr = 0; static int lastcount = 20;] *)
Definition dump_initial : Dump.state :=
  {| Dump.lastaddr := 0; Dump.lastcount := 20 |}.

(** What [dump_cmd] prints: the two messages, and for each word the
    line with its address, its value, its eight characters, the
    generation of the object it points to and the name of its widetag
    when these are printed, or the line for an address outside the
    heap. *)
Inductive dump_output : Type :=
| CountMustBeNonZero       (* "COUNT must be non-zero.\n" *)
| CanOnlyDecode            (* "Sorry, can only decode if aligned and stepping forward\n" *)
| InvalidAddress (addr : Z)               (* "%p: invalid Lisp-level address\n" *)
| DumpLine (addr word : Z) (chars : list Z) (gen : option Z)
           (widetag_name : option String.string).

(** The loop over the flags: [-f ] and [-d ] in any number and order. *)
Fixpoint dump_flags (ptr : String.string) (force decode : bool)
  : bool * bool * String.string :=
  match ptr with
  | String.String _ (String.String _ (String.String _ rest)) =>
    if strncmp_eq ptr "-f "%string 3 then dump_flags rest true decode
    else if strncmp_eq ptr "-d "%string 3 then dump_flags rest force true
    else (force, decode, ptr)
  | _ => (force, decode, ptr)
  end.

Section DumpCmd.
Variable B : build.
(** [more_p], [parse_addr] and [parse_number] of parse.c: the value and
    where [*ptr] is afterwards, or failure. *)
Variable more_p : String.string -> bool * String.string.
Variable parse_addr : String.string -> bool -> option (Z * String.string).
Variable parse_number : String.string -> option (Z * String.string).
(** The byte at an address, none where the process has no readable
    memory. *)
Variable memory : Z -> option byte.
Variable gc_managed_addr_p : Z -> bool.
Variable gc_managed_heap_space_p : Z -> bool.
Variable gc_gen_of : Z -> Z -> Z.
Variable LOWTAG_MASK : Z.
Variable CONS_SIZE : Z.
Variable header_widetag : Z -> Z.
Variable other_immediate_lowtag_p : Z -> bool.
Variable is_header : Z -> bool.
(** [widetag_names[i]] *)
Variable widetag_names : Z -> String.string.
(** [sizetab[widetag](where)], which looks at the object: no result
    when that access is to memory that cannot be read. *)
Variable sizetab : Z -> Z -> option Z.

(** [static boolean valid_widetag_p(unsigned char widetag)] *)
Definition valid_widetag_p (widetag : Z) : bool :=
  other_immediate_lowtag_p (wrap_unsigned 8 widetag).

(** The arguments of the command: [force], [decode], [addr] and [count]
    when the line has been parsed, nothing when the command returns
    from there. *)
Definition dump_args (ptr : String.string) (st : Dump.state)
  : option (bool * bool * Z * Z) :=
  let addr := Dump.lastaddr st in
  let count := Dump.lastcount st in
  let '(more, ptr) := more_p ptr in
  if more then
    let '(force, decode, ptr) := dump_flags ptr false false in
    match parse_addr ptr (negb force) with
    | None => None                                           (* return 0 *)
    | Some (addr, ptr) =>
      let '(more, ptr) := more_p ptr in
      if more then
        match parse_number ptr with
        | None => None                                       (* return 0 *)
        | Some (count, _) => Some (force, decode, to_uword addr, to_int count)
        end
      else Some (force, decode, to_uword addr, count)
    end
  else Some (false, false, addr, count).

(** The [n] bytes from an address on, when all of them can be read. *)
Fixpoint bytes_from (addr : Z) (n : nat) : option (list byte) :=
  match n with
  | O => Some []
  | S n' =>
    match memory (to_uword addr), bytes_from (addr + 1) n' with
    | Some b, Some bs => Some (b :: bs)
    | _, _ => None
    end
  end.

(** The body of the [while (count-- > 0)] loop up to [addr +=
    displacement]: the line printed, [decode] and [next_object]
    afterwards; nothing when the word is read from memory that cannot
    be read, which ends the process. *)
Definition dump_word (force aligned : bool) (addr : Z) (decode : bool)
  (next_object : Z) : option (dump_output * bool * Z) :=
  if force || gc_managed_addr_p addr then
    match bytes_from addr 8 with
    | None => None
    | Some bytes =>
    let word := le_combine bytes in
    let chars := map (fun c => visible (byte.unsigned c)) bytes in
    let gen := to_int (gc_gen_of word 99) in
    let shown_gen :=
      if aligned && is_lisp_pointer B word && gc_managed_heap_space_p word
         && negb (gen =? 99)
      then Some gen else None in
    if decode && (addr =? next_object) then
      if negb (word =? 0) && negb (is_lisp_pointer B word)
         && valid_widetag_p (header_widetag word)
      then match sizetab (header_widetag word) next_object with
           | None => None
           | Some size =>
             Some (DumpLine addr word chars shown_gen
                     (Some (widetag_names (Z.shiftr (header_widetag word) 2))),
                   decode,
                   to_uword (next_object + N_WORD_BYTES * size))
           end
      else if negb (is_header word)
      then Some (DumpLine addr word chars shown_gen None, decode,
                 to_uword (next_object + N_WORD_BYTES * CONS_SIZE))
      else Some (DumpLine addr word chars shown_gen None, false, next_object)
    else Some (DumpLine addr word chars shown_gen None, decode, next_object)
    end
  else Some (InvalidAddress addr, decode, next_object).

(** The [while (count-- > 0)] loop: the lines completed, and [addr]
    after it when it comes to its end. *)
Fixpoint dump_loop (count : nat) (force aligned : bool) (displacement : Z)
  (addr : Z) (decode : bool) (next_object : Z) : list dump_output * option Z :=
  match count with
  | O => ([], Some addr)
  | S count' =>
    match dump_word force aligned addr decode next_object with
    | None => ([], None)
    | Some (line, decode, next_object) =>
      let '(lines, addr) :=
        dump_loop count' force aligned displacement (to_uword (addr + displacement))
                  decode next_object in
      (line :: lines, addr)
    end
  end.

(** [static int dump_cmd(char **ptr)]: what it returns with the two
    static variables afterwards, and the lines it has completed, also
    when it does not return.  [-count] is taken to wrap around for the
    least [int]. *)
Definition dump_cmd (ptr : String.string) (st : Dump.state)
  : outcome (Z * Dump.state) * list dump_output :=
  match dump_args ptr st with
  | None => (Done (0, st), [])
  | Some (force, decode, addr, count) =>
    if count =? 0 then (Done (0, st), [CountMustBeNonZero])
    else
      let displacement := if 0 <? count then N_WORD_BYTES else - N_WORD_BYTES in
      let times := if 0 <? count then count else to_int (- count) in
      let aligned := Z.land addr LOWTAG_MASK =? 0 in
      let refused := decode && (negb aligned || (displacement <? 0)) in
      let decode := decode && negb refused in
      let next_object := if decode then addr else 0 in
      let '(lines, last) :=
        dump_loop (Z.to_nat times) force aligned displacement addr decode next_object in
      (match last with
       | Some addr => Done (0, {| Dump.lastaddr := addr; Dump.lastcount := count |})
       | None => Undefined
       end,
       (if refused then [CanOnlyDecode] else []) ++ lines)
  end.

End DumpCmd.

(** A process to run [dump] in: the addresses below 0x1080 can be read,
    are in the heap and hold the character A; the address parsed is
    always 0x1000 and no count is parsed. *)
Definition example_more_p (ptr : String.string) : bool * String.string :=
  (negb (String.eqb ptr String.EmptyString), ptr).
Definition example_parse_addr (ptr : String.string) (check : bool)
  : option (Z * String.string) := Some (0x1000, String.EmptyString).
Definition example_parse_number (ptr : String.string) : option (Z * String.string) :=
  None.
Definition example_memory (addr : Z) : option byte :=
  if addr <? 0x1080 then Some Byte.x41 else None.
Definition example_managed (addr : Z) : bool := addr <? 0x1080.

Definition example_dump_cmd (ptr : String.string) (st : Dump.state)
  : outcome (Z * Dump.state) * list dump_output :=
  dump_cmd example_build example_more_p example_parse_addr example_parse_number
    example_memory example_managed (fun _ => true) (fun _ default => default)
    15 2
    (fun word => Z.land word 255) (fun _ => true) (fun _ => false)
    (fun _ => "widetag"%string) (fun _ _ => Some 2)
    ptr st.

(** ** The [context] command *)

(** What [print_context_cmd] prints; the registers of a context are
    printed by [print_context]. *)
Inductive context_output : Type :=
| ThereAre (free_ici : Z)         (* "There are %d interrupt contexts.\n" *)
| PrintingContext (index : Z)     (* "printing context %d\n" *)
| Context (index : Z)             (* print_context(nth_interrupt_context(index, thread)) *)
| NotThatMany                     (* "There aren't that many/few contexts.\n" *)
| NoContexts.                     (* "There are no interrupt contexts!\n" *)

Section PrintContextCmd.
Variable B : build.
Variable more_p : String.string -> bool * String.string.
Variable parse_number : String.string -> option (Z * String.string).

(** [static int print_context_cmd(char **ptr)], run by [thread]. *)
Definition print_context_cmd (thread : thread) (ptr : String.string)
  : Z * list context_output :=
  let free_ici := interrupt_context_count B thread in
  let '(more, ptr) := more_p ptr in
  if more then
    match parse_number ptr with
    | None => (0, [])
    | Some (index, _) =>
      let index := to_int index in
      if (0 <=? index) && (index <? free_ici)
      then (0, [ThereAre free_ici; PrintingContext index; Context index])
      else (0, [NotThatMany; ThereAre free_ici])
    end
  else if free_ici =? 0 then (0, [NoContexts])
  else (0, [ThereAre free_ici; PrintingContext (to_int (free_ici - 1));
            Context (to_int (free_ici - 1))]).

End PrintContextCmd.

(** The process the reader leaves after [example_file]. *)
Definition example_restored : rstate :=
  match restore example_build os_validate_as_asked fresh_thread fresh_block
                example_search
                (fresh_runtime 8) example_file with
  | Done s => s
  | _ => {| input := []; globals := fresh_runtime 8; threads := []; printed := [] |}
  end.

(** * Properties *)

(** ** Integers and byte lists *)

Lemma file_contents_short old w :
  (length old <= length (concat w))%nat -> file_contents old w = concat w.
Proof.
  intros L. unfold file_contents. rewrite skipn_all2 by exact L. apply app_nil_r.
Qed.

Lemma file_contents_new w : file_contents [] w = concat w.
Proof. apply file_contents_short. cbn. lia. Qed.


Lemma wrap_unsigned_small bits z :
  0 <= z < 2 ^ bits -> wrap_unsigned bits z = z.
Proof. intros. unfold wrap_unsigned. apply Z.mod_small. assumption. Qed.

Lemma wrap_signed_small bits z :
  0 < bits -> - 2 ^ (bits - 1) <= z < 2 ^ (bits - 1) -> wrap_signed bits z = z.
Proof.
  intros Hb Hz. unfold wrap_signed.
  assert (E : 2 ^ bits = 2 * 2 ^ (bits - 1)).
  { replace bits with (Z.succ (bits - 1)) at 1 by lia. apply Z.pow_succ_r. lia. }
  rewrite Z.mod_small; lia.
Qed.

Lemma wrap_unsigned_signed bits z :
  0 < bits -> wrap_unsigned bits (wrap_signed bits z) = wrap_unsigned bits z.
Proof.
  intros Hb. unfold wrap_unsigned, wrap_signed.
  assert (E : 2 ^ bits = 2 * 2 ^ (bits - 1)).
  { replace bits with (Z.succ (bits - 1)) at 1 by lia. apply Z.pow_succ_r. lia. }
  assert (P : 0 < 2 ^ (bits - 1)) by (apply Z.pow_pos_nonneg; lia).
  set (h := 2 ^ (bits - 1)) in *. set (m := 2 ^ bits) in *.
  rewrite Zminus_mod_idemp_l. f_equal. lia.
Qed.

Lemma to_uword_small z : 0 <= z < 2 ^ 64 -> to_uword z = z.
Proof. apply wrap_unsigned_small. Qed.

Lemma to_long_small z : - 2 ^ 63 <= z < 2 ^ 63 -> to_long z = z.
Proof. intros. apply wrap_signed_small; simpl; lia. Qed.

Lemma to_int_small z : - 2 ^ 31 <= z < 2 ^ 31 -> to_int z = z.
Proof. intros. apply wrap_signed_small; simpl; lia. Qed.

Lemma to_char_small z : - 2 ^ 7 <= z < 2 ^ 7 -> to_char z = z.
Proof. intros. apply wrap_signed_small; simpl; lia. Qed.

Lemma to_uword_range z : 0 <= to_uword z < 2 ^ 64.
Proof. unfold to_uword, wrap_unsigned. apply Z.mod_pos_bound. reflexivity. Qed.

Lemma to_int_range z : - 2 ^ 31 <= to_int z < 2 ^ 31.
Proof.
  unfold to_int, wrap_signed.
  pose proof (Z.mod_pos_bound (z + 2 ^ (32 - 1)) (2 ^ 32) eq_refl).
  change (2 ^ (32 - 1)) with 2147483648 in *. change (2 ^ 32) with 4294967296 in *.
  change (2 ^ 31) with 2147483648. lia.
Qed.


Lemma length_zeros n : length (zeros n) = Z.to_nat n.
Proof. apply repeat_length. Qed.

Lemma bytes_at_app_exact (pre x post : list byte) off len :
  off = Z.of_nat (length pre) -> len = Z.of_nat (length x) ->
  bytes_at (pre ++ x ++ post) off len = x.
Proof.
  intros -> ->. unfold bytes_at. rewrite !Nat2Z.id.
  rewrite skipn_app, skipn_all, Nat.sub_diag. simpl.
  rewrite firstn_app, firstn_all, Nat.sub_diag. simpl. apply app_nil_r.
Qed.

Lemma length_blit mem off src :
  fits mem off (Z.of_nat (length src)) = true ->
  length (blit mem off src) = length mem.
Proof.
  unfold fits, blit. intros H.
  apply andb_prop in H as [H H3]. apply andb_prop in H as [H1 H2].
  apply Z.leb_le in H1, H2, H3.
  rewrite !length_app, length_firstn, length_skipn. lia.
Qed.

Lemma bytes_at_blit_same mem off src :
  fits mem off (Z.of_nat (length src)) = true ->
  bytes_at (blit mem off src) off (Z.of_nat (length src)) = src.
Proof.
  unfold fits. intros H.
  apply andb_prop in H as [H H3]. apply andb_prop in H as [H1 H2].
  apply Z.leb_le in H1, H2, H3.
  unfold blit. apply bytes_at_app_exact; [|reflexivity].
  rewrite length_firstn. lia.
Qed.

Lemma firstn_blit mem off src n :
  (Z.to_nat off <= length mem)%nat -> (n <= Z.to_nat off)%nat ->
  firstn n (blit mem off src) = firstn n mem.
Proof.
  intros L H. unfold blit.
  rewrite firstn_app, length_firstn, Nat.min_l by assumption.
  replace (n - Z.to_nat off)%nat with 0%nat by lia.
  simpl. rewrite app_nil_r, firstn_firstn. f_equal. lia.
Qed.

Lemma skipn_blit mem off src :
  skipn (Z.to_nat off + length src) (blit mem off src)
  = skipn (Z.to_nat off + length src) mem.
Proof.
  unfold blit.
  destruct (Nat.le_gt_cases (Z.to_nat off) (length mem)) as [L|L].
  - rewrite app_assoc, skipn_app.
    rewrite length_app, length_firstn, Nat.min_l by assumption.
    rewrite skipn_all2, Nat.sub_diag by (rewrite length_app, length_firstn; lia).
    reflexivity.
  - rewrite (skipn_all2 mem) by lia.
    rewrite firstn_all2 by lia. rewrite app_nil_r.
    apply skipn_all2. rewrite length_app. lia.
Qed.

(** ** The stack scan *)

Section Scan.
Variable B : build.
Variable search_dynamic_space : runtime -> Z -> Z.

(** The words the scan looks at: [count] of them from index [from] on. *)
Definition stack_words (stack : list byte) (from : Z) (count : nat) : list Z :=
  map (fun k => load_word stack ((from + Z.of_nat k) * N_WORD_BYTES)) (seq 0 count).

Definition resolves (rt : runtime) (word : Z) : bool :=
  negb (search_dynamic_space rt word =? 0).

Definition count_valid (rt : runtime) (words : list Z) : Z :=
  Z.of_nat (length (filter (fun w => scan_candidate B rt w && resolves rt w) words)).

Definition count_dangling (rt : runtime) (words : list Z) : Z :=
  Z.of_nat (length (filter (fun w => scan_candidate B rt w && negb (resolves rt w)) words)).


Lemma count_valid_le rt words : 0 <= count_valid rt words <= Z.of_nat (length words).
Proof.
  unfold count_valid. pose proof (filter_length_le
    (fun w => scan_candidate B rt w && resolves rt w) words). lia.
Qed.

Lemma count_dangling_le rt words : 0 <= count_dangling rt words <= Z.of_nat (length words).
Proof.
  unfold count_dangling. pose proof (filter_length_le
    (fun w => scan_candidate B rt w && negb (resolves rt w)) words). lia.
Qed.

Lemma length_stack_words stack from count : length (stack_words stack from count) = count.
Proof. unfold stack_words. rewrite length_map, length_seq. reflexivity. Qed.




(** On an in-range address the page index is the quotient by the page size. *)
Lemma find_page_index_in_range rt addr :
  0 < GENCGC_PAGE_BYTES B ->
  dynamic_space_size B mod GENCGC_PAGE_BYTES B = 0 ->
  var rt DYNAMIC_SPACE_START <= addr < var rt DYNAMIC_SPACE_START + dynamic_space_size B ->
  find_page_index B rt addr = (addr - var rt DYNAMIC_SPACE_START) / GENCGC_PAGE_BYTES B
  /\ 0 <= find_page_index B rt addr < page_table_pages B.
Proof.
  intros Hp Hm Hr. unfold find_page_index, page_table_pages.
  set (P := GENCGC_PAGE_BYTES B) in *. set (D := var rt DYNAMIC_SPACE_START) in *.
  assert (E : dynamic_space_size B = P * (dynamic_space_size B / P)).
  { rewrite (Z.div_mod (dynamic_space_size B) P) at 1 by lia. lia. }
  assert (I : (addr - D) / P < dynamic_space_size B / P).
  { apply Z.div_lt_upper_bound; lia. }
  assert (N : 0 <= (addr - D) / P) by (apply Z.div_pos; lia).
  replace (D <=? addr) with true by (symmetry; apply Z.leb_le; lia).
  replace ((addr - D) / P <? dynamic_space_size B / P) with true
    by (symmetry; apply Z.ltb_lt; lia).
  simpl. split; [reflexivity | lia].
Qed.

End Scan.

(** ** Which stack words the scan takes for pointers *)

(** C6, as the code has it: a word of a restored control stack is taken
    for a candidate reference exactly when it lies in the envelope of
    the dynamic space and either carries a pointer tag or falls on a
    page of the dynamic space whose page-table entry says code. *)
Theorem scan_candidate_iff (B : build) (rt : runtime) (word : Z) :
  0 < GENCGC_PAGE_BYTES B ->
  dynamic_space_size B mod GENCGC_PAGE_BYTES B = 0 ->
  0 <= var rt DYNAMIC_SPACE_START + dynamic_space_size B < 2 ^ 64 ->
  scan_candidate B rt word = true <->
  (var rt DYNAMIC_SPACE_START <= word
     < var rt DYNAMIC_SPACE_START + dynamic_space_size B
   /\ (is_lisp_pointer B word = true
       \/ is_code B (page_type B
            (bytes_at (mem rt page_table)
               ((word - var rt DYNAMIC_SPACE_START) / GENCGC_PAGE_BYTES B
                * sizeof_page B)
               (sizeof_page B))) = true)).
Proof.
  intros Hp Hm Hw. unfold scan_candidate.
  rewrite (to_uword_small _ Hw).
  rewrite !andb_true_iff, orb_true_iff, Z.leb_le, Z.ltb_lt.
  split.
  - intros [[L U] T]. split; [lia|].
    destruct (find_page_index_in_range B rt word Hp Hm (conj L U)) as [E R].
    unfold page_table_entry in T. rewrite E in *.
    replace (0 <=? (word - var rt DYNAMIC_SPACE_START) / GENCGC_PAGE_BYTES B)
      with true in T by (symmetry; apply Z.leb_le; lia).
    exact T.
  - intros [R T]. split; [split; lia|].
    destruct (find_page_index_in_range B rt word Hp Hm R) as [E R'].
    unfold page_table_entry. rewrite E in *.
    replace (0 <=? (word - var rt DYNAMIC_SPACE_START) / GENCGC_PAGE_BYTES B)
      with true by (symmetry; apply Z.leb_le; lia).
    exact T.
Qed.

Lemma scan_candidate_iff_witness :
  scan_candidate example_build (example_runtime 1 []) 0x1000000020 = true <->
  (0x1000000000 <= 0x1000000020 < 0x1000000000 + 2 * 4096
   /\ (is_lisp_pointer example_build 0x1000000020 = true
       \/ is_code example_build (page_type example_build
            (bytes_at (example_mem page_table)
               ((0x1000000020 - 0x1000000000) / 4096 * 8) 8)) = true)).
Proof.
  apply (scan_candidate_iff example_build (example_runtime 1 []) 0x1000000020).
  - reflexivity.
  - reflexivity.
  - simpl. lia.
Defined.

(** C6 as stated fails: 0x1000000020 has no pointer tag (it reads as
    a fixnum), lies on a code page of the dynamic space, and is taken
    for a candidate. *)
Lemma scan_candidate_untagged_counterexample :
  ~ (scan_candidate example_build (example_runtime 1 []) 0x1000000020 = true <->
     (0x1000000000 <= 0x1000000020 < 0x1000000000 + 2 * 4096
      /\ is_lisp_pointer example_build 0x1000000020 = true)).
Proof.
  intros [H _].
  assert (C : scan_candidate example_build (example_runtime 1 []) 0x1000000020 = true)
    by reflexivity.
  destruct (H C) as [_ T]. vm_compute in T. discriminate T.
Qed.

(** ** Replaying the thread-local block *)

Lemma checked_read_enough (n : Z) (s : rstate) :
  0 <= n <= Z.of_nat (length (input s)) -> n < 2 ^ 64 ->
  checked_read n s
  = Done (firstn (Z.to_nat n) (input s), with_input (skipn (Z.to_nat n) (input s)) s).
Proof.
  intros H L. unfold checked_read. rewrite to_uword_small by lia.
  replace (n <=? Z.of_nat (length (input s))) with true
    by (symmetry; apply Z.leb_le; lia).
  reflexivity.
Qed.

Lemma with_input_twice a b s : with_input a (with_input b s) = with_input a s.
Proof. reflexivity. Qed.

(** What [replay_tls] returns when the file holds the block and the
    new structure has room for it. *)
Lemma replay_tls_run (B : build) (preamble : Preamble.t)
  (new_tls : list byte) (s : rstate) :
  8 <= sizeof_thread B < 2 ^ 31 ->
  sizeof_thread B - 8 <= Preamble.tls_size preamble < 2 ^ 31 ->
  Preamble.tls_size preamble <= Z.of_nat (length (input s)) ->
  Preamble.tls_size preamble <= Z.of_nat (length new_tls) ->
  replay_tls B preamble new_tls s
  = Done (blit new_tls (sizeof_thread B - 8)
            (bytes_at (input s) (sizeof_thread B - 8)
               (Preamble.tls_size preamble - (sizeof_thread B - 8))),
          with_input (skipn (Z.to_nat (Preamble.tls_size preamble)) (input s)) s).
Proof.
  intros Hs Ht Hi Hn.
  unfold replay_tls, offsetof_lisp_thread. change N_WORD_BYTES with 8.
  set (skip := sizeof_thread B - 8). set (tls_size := Preamble.tls_size preamble).
  assert (Es : to_int skip = skip) by (apply to_int_small; unfold skip; lia).
  rewrite Es.
  assert (En : to_int (tls_size - skip) = tls_size - skip)
    by (apply to_int_small; unfold skip, tls_size; lia).
  rewrite En.
  set (bs := bytes_at (input s) skip (tls_size - skip)).
  assert (Lb : Z.of_nat (length bs) = tls_size - skip).
  { unfold bs, bytes_at. rewrite length_firstn, length_skipn.
    unfold skip, tls_size in *. lia. }
  assert (F : fits new_tls skip (Z.of_nat (length bs)) = true).
  { unfold fits. rewrite !andb_true_iff, !Z.leb_le. unfold skip, tls_size in *. lia. }
  unfold bind, read_into, bind.
  rewrite checked_read_enough by (unfold skip, tls_size in *; lia).
  rewrite checked_read_enough.
  2:{ cbn [input with_input]. rewrite length_skipn. unfold skip, tls_size in *. lia. }
  2:{ unfold skip, tls_size in *. lia. }
  cbn [input with_input]. rewrite to_uword_small by (unfold skip, tls_size in *; lia).
  rewrite <- Lb, F. unfold ret. rewrite with_input_twice, skipn_skipn.
  rewrite Lb. unfold bs, bytes_at.
  do 4 f_equal. unfold skip, tls_size in *. lia.
Qed.

(** C9: replaying the thread-local block of a dumped thread into a
    newly allocated structure leaves the first
    [sizeof (struct thread) - N_WORD_BYTES] bytes of the new structure
    as they were, puts the dumped bytes from that offset up to
    [tls_size] in place, leaves what lies beyond [tls_size] alone, and
    consumes exactly the [tls_size] bytes of the dumped block. *)
Theorem replay_tls_frame (B : build) (preamble : Preamble.t)
  (new_tls : list byte) (s : rstate) :
  8 <= sizeof_thread B < 2 ^ 31 ->
  sizeof_thread B - 8 <= Preamble.tls_size preamble < 2 ^ 31 ->
  Preamble.tls_size preamble <= Z.of_nat (length (input s)) ->
  Preamble.tls_size preamble <= Z.of_nat (length new_tls) ->
  let skip := sizeof_thread B - N_WORD_BYTES in
  let tls_size := Preamble.tls_size preamble in
  exists block,
    replay_tls B preamble new_tls s
      = Done (block, with_input (skipn (Z.to_nat tls_size) (input s)) s)
    /\ length block = length new_tls
    /\ firstn (Z.to_nat skip) block = firstn (Z.to_nat skip) new_tls
    /\ bytes_at block skip (tls_size - skip) = bytes_at (input s) skip (tls_size - skip)
    /\ skipn (Z.to_nat tls_size) block = skipn (Z.to_nat tls_size) new_tls.
Proof.
  intros Hs Ht Hi Hn. cbv zeta. change N_WORD_BYTES with 8.
  set (skip := sizeof_thread B - 8). set (tls_size := Preamble.tls_size preamble).
  set (bs := bytes_at (input s) skip (tls_size - skip)).
  assert (Lb : Z.of_nat (length bs) = tls_size - skip).
  { unfold bs, bytes_at. rewrite length_firstn, length_skipn.
    unfold skip, tls_size in *. lia. }
  assert (F : fits new_tls skip (Z.of_nat (length bs)) = true).
  { unfold fits. rewrite !andb_true_iff, !Z.leb_le. unfold skip, tls_size in *. lia. }
  exists (blit new_tls skip bs).
  split; [|split; [|split; [|split]]].
  - apply replay_tls_run; assumption.
  - apply length_blit. exact F.
  - apply firstn_blit; [|lia]. unfold skip, tls_size in *. lia.
  - rewrite <- Lb. apply bytes_at_blit_same. exact F.
  - replace (Z.to_nat tls_size) with (Z.to_nat skip + length bs)%nat
      by (unfold skip, tls_size in *; lia).
    apply skipn_blit.
Qed.

Lemma replay_tls_frame_witness :
  exists block,
    replay_tls example_build example_preamble (tls (fresh_thread 0)) example_rstate
      = Done (block, with_input (skipn 96 (input example_rstate)) example_rstate)
    /\ length block = length (tls (fresh_thread 0))
    /\ firstn 56 block = firstn 56 (tls (fresh_thread 0))
    /\ bytes_at block 56 40 = bytes_at (input example_rstate) 56 40
    /\ skipn 96 block = skipn 96 (tls (fresh_thread 0)).
Proof.
  apply (replay_tls_frame example_build example_preamble (tls (fresh_thread 0))
           example_rstate).
  - vm_compute. split; [discriminate | reflexivity].
  - vm_compute. split; [discriminate | reflexivity].
  - vm_compute. discriminate.
  - vm_compute. discriminate.
Defined.

(** ** How the writer can stop *)

Section WriterStops.
Variable B : build.
Variable io : nat -> Z -> Z.

Lemma sys_write_returns buf count w :
  exists r w', sys_write io buf count w = Done (r, w').
Proof.
  unfold sys_write.
  destruct ((0 <=? io (length w) (to_uword count))
            && (io (length w) (to_uword count) <=? to_uword count)
            && (to_uword count <=? Z.of_nat (length buf))); eauto.
Qed.

Lemma checked_write_cases buf nbytes w :
  (exists w', checked_write io buf nbytes w = Done (tt, w'))
  \/ checked_write io buf nbytes w = Lose ShortWrite.
Proof.
  unfold checked_write, bind.
  destruct (sys_write_returns buf (to_long nbytes) w) as [r [w' E]]. rewrite E.
  destruct (negb (r =? to_long nbytes)); [right | left; exists w']; reflexivity.
Qed.

(** A write that the operating system cuts short stops the process. *)
Lemma checked_write_short buf nbytes w :
  io (length w) (to_uword (to_long nbytes)) <> to_long nbytes ->
  to_long nbytes <> -1 ->
  checked_write io buf nbytes w = Lose ShortWrite.
Proof.
  intros Hs Hn. unfold checked_write, bind, sys_write.
  destruct ((0 <=? io (length w) (to_uword (to_long nbytes)))
            && (io (length w) (to_uword (to_long nbytes)) <=? to_uword (to_long nbytes))
            && (to_uword (to_long nbytes) <=? Z.of_nat (length buf))).
  - replace (io (length w) (to_uword (to_long nbytes)) =? to_long nbytes) with false
      by (symmetry; apply Z.eqb_neq; assumption).
    reflexivity.
  - replace (-1 =? to_long nbytes) with false
      by (symmetry; apply Z.eqb_neq; lia).
    reflexivity.
Qed.

Definition stops_short {A} (o : outcome A) : Prop := o = Exit1 \/ o = Lose ShortWrite.

Lemma bind_checked_write {A} buf nbytes (k : unit -> M wstate A) w :
  (exists w', bind (checked_write io buf nbytes) k w = k tt w')
  \/ bind (checked_write io buf nbytes) k w = Lose ShortWrite.
Proof.
  unfold bind.
  destruct (checked_write_cases buf nbytes w) as [[w' E] | E]; rewrite E.
  - left. exists w'. reflexivity.
  - right. reflexivity.
Qed.

Definition returns_or_stops (o : outcome (unit * wstate)) : Prop :=
  (exists w', o = Done (tt, w')) \/ stops_short o.

Ltac write_step :=
  match goal with
  | |- context [bind (checked_write io ?buf ?n) ?k ?w] =>
    let w' := fresh "w" in
    destruct (bind_checked_write buf n k w) as [[w' ->] | ->];
    [ cbv beta | solve [unfold returns_or_stops, stops_short; auto] ]
  end.

Lemma save_thread_cases self sp nbytes_tls th w :
  returns_or_stops (save_thread B io self sp nbytes_tls th w).
Proof.
  unfold save_thread.
  destruct (crash_stackptr B self sp th) as [p|]; [|right; left; reflexivity].
  write_step.
  assert (C : exists w',
    (if negb (interrupt_context_count B th =? 0)
     then _ <- sys_write io (interrupt_context th) (to_int (sizeof_os_context B)) ;; ret tt
     else ret tt) w0 = Done (tt, w')).
  { destruct (negb (interrupt_context_count B th =? 0)).
    - unfold bind.
      destruct (sys_write_returns (interrupt_context th)
                  (to_int (sizeof_os_context B)) w0) as [r [w' E]].
      rewrite E. exists w'. reflexivity.
    - exists w0. reflexivity. }
  destruct C as [w1 C]. unfold bind at 1. rewrite C.
  write_step. write_step.
  destruct (checked_write_cases (tls th) nbytes_tls w3) as [[w' E] | E]; rewrite E.
  - left. exists w'. reflexivity.
  - right. right. reflexivity.
Qed.

(** A thread without interrupt context that is not the caller ends the loop. *)
Lemma for_each_thread_no_stackptr self sp nbytes_tls th l :
  In th l -> th_address th <> self -> interrupt_context_count B th = 0 ->
  forall (k : unit -> M wstate unit) w,
    stops_short (bind (for_each l (save_thread B io self sp nbytes_tls)) k w).
Proof.
  intros Hin Ha Hc. induction l as [|a l IH]; [contradiction|].
  intros k w. cbn [for_each]. unfold bind at 1 2.
  destruct Hin as [-> | Hin].
  - unfold save_thread, crash_stackptr. rewrite Hc.
    replace (th_address th =? self) with false by (symmetry; apply Z.eqb_neq; exact Ha).
    left. reflexivity.
  - destruct (save_thread_cases self sp nbytes_tls a w) as [[w' E] | [E | E]];
      rewrite E.
    + apply (IH Hin k w').
    + left. reflexivity.
    + right. reflexivity.
Qed.

Lemma save_gc_crashdump_no_stackptr self padding rt sp th w :
  In th (all_threads rt) -> th_address th <> self ->
  interrupt_context_count B th = 0 ->
  stops_short (save_gc_crashdump B io self padding rt sp w).
Proof.
  intros Hin Ha Hc. unfold save_gc_crashdump.
  do 10 write_step.
  apply for_each_thread_no_stackptr with (th := th); assumption.
Qed.

End WriterStops.

(** C10: when some thread other than the one running the writer has
    no interrupt context, the writer does not return: the process ends
    in [_exit(1)] at that thread, unless a short write has ended it
    before. *)
Theorem capture_needs_interrupt_context (B : build) (io : nat -> Z -> Z)
  (self : Z) (padding : list byte) (rt : runtime) (sp : Z) (th : thread) :
  In th (all_threads rt) -> th_address th <> self ->
  interrupt_context_count B th = 0 ->
  capture B io self padding rt sp = Exit1
  \/ capture B io self padding rt sp = Lose ShortWrite.
Proof.
  intros Hin Ha Hc. unfold capture.
  destruct (save_gc_crashdump_no_stackptr B io self padding rt sp th [] Hin Ha Hc)
    as [E | E]; rewrite E; auto.
Qed.

Lemma capture_needs_interrupt_context_witness :
  capture example_build io_full 0x7f0000001000 []
          (example_runtime 1 [example_self; example_running]) 0x7f0000001fe8 = Exit1
  \/ capture example_build io_full 0x7f0000001000 []
          (example_runtime 1 [example_self; example_running]) 0x7f0000001fe8
     = Lose ShortWrite.
Proof.
  apply (capture_needs_interrupt_context example_build io_full 0x7f0000001000 []
           (example_runtime 1 [example_self; example_running]) 0x7f0000001fe8
           example_running).
  - simpl. right. left. reflexivity.
  - vm_compute. discriminate.
  - vm_compute. reflexivity.
Defined.

(** With every byte written, the end is [_exit(1)]. *)
Example capture_exit1 :
  capture example_build io_full 0x7f0000001000 []
          (example_runtime 1 [example_self; example_running]) 0x7f0000001fe8 = Exit1.
Proof. vm_compute. reflexivity. Qed.

(** ** What the writer emits when every write goes through *)

Section Capture.
Variable B : build.

(** Conditions on a thread under which its record is written:
    a stack pointer is known and lies in the control stack, the live
    parts of the two stacks and the thread-local block are in the
    memory of the thread and shorter than 2 GiB, and the interrupt
    context, when there is one, is a whole [os_context_t]. *)
Definition thread_capturable (self sp0 nbytes_tls : Z) (th : thread) : bool :=
  match crash_stackptr B self sp0 th with
  | None => false
  | Some sp =>
    let base := control_stack_end th - Z.of_nat (length (control_stack th)) in
    let nb := binding_stack_pointer th - binding_stack_start th in
    (base <=? sp) && (sp <=? control_stack_end th)
    && (control_stack_end th - sp <? 2 ^ 31)
    && (0 <=? nb) && (nb <? 2 ^ 31) && (nb <=? Z.of_nat (length (binding_stack th)))
    && (nbytes_tls <=? Z.of_nat (length (tls th)))
    && (if negb (interrupt_context_count B th =? 0)
        then Z.of_nat (length (interrupt_context th)) =? sizeof_os_context B
        else true)
  end.

(** The pieces written for a thread. *)
Definition thread_pieces (self sp0 nbytes_tls : Z) (th : thread) : list (list byte) :=
  match crash_stackptr B self sp0 th with
  | None => []
  | Some sp =>
    [encode_thread_preamble (crash_thread_preamble B th sp)]
    ++ (if negb (interrupt_context_count B th =? 0) then [interrupt_context th] else [])
    ++ [stack_from th sp;
        firstn (Z.to_nat (binding_stack_pointer th - binding_stack_start th))
               (binding_stack th);
        firstn (Z.to_nat nbytes_tls) (tls th)]
  end.

Definition static_usage (rt : runtime) : Z :=
  var rt static_space_free_pointer - STATIC_SPACE_START B.
Definition fixedobj_usage (rt : runtime) : Z :=
  var rt fixedobj_free_pointer - var rt FIXEDOBJ_SPACE_START.
Definition varyobj_usage (rt : runtime) : Z :=
  var rt varyobj_free_pointer - var rt VARYOBJ_SPACE_START.

Definition within (lo x hi : Z) : bool := (lo <=? x) && (x <? hi).

(** Conditions on the process under which the writer gets through:
    usages lie within their spaces, tables have their declared sizes,
    counts fit their C types. *)
Definition capturable (self sp0 : Z) (rt : runtime) : bool :=
  let npages := var rt next_free_page in
  let fixed_npages := Z.quot (FIXEDOBJ_SPACE_SIZE B) (IMMOBILE_CARD_BYTES B) in
  let vary_npages := Z.quot (VARYOBJ_SPACE_SIZE B) (IMMOBILE_CARD_BYTES B) in
  within 0 (static_usage rt) (2 ^ 63)
  && (static_usage rt <=? Z.of_nat (length (mem rt static_space)))
  && within 0 npages (2 ^ 63)
  && within 0 (npages * GENCGC_PAGE_BYTES B) (2 ^ 63)
  && (npages * GENCGC_PAGE_BYTES B <=? Z.of_nat (length (mem rt dynamic_space)))
  && within 0 (sizeof_page B * npages) (2 ^ 63)
  && (sizeof_page B * npages <=? Z.of_nat (length (mem rt page_table)))
  && within 0 (1 + var rt gc_card_table_mask) (2 ^ 63)
  && (1 + var rt gc_card_table_mask =? Z.of_nat (length (mem rt gc_card_mark)))
  && within 0 (var rt fixedobj_free_pointer) (2 ^ 64)
  && within 0 (fixedobj_usage rt) (2 ^ 31)
  && (fixedobj_usage rt <=? Z.of_nat (length (mem rt fixedobj_space)))
  && within 0 fixed_npages (2 ^ 31)
  && (fixed_npages * 8 =? Z.of_nat (length (mem rt fixedobj_pages)))
  && within 0 (var rt varyobj_free_pointer) (2 ^ 64)
  && within 0 (varyobj_usage rt) (2 ^ 31)
  && (varyobj_usage rt <=? Z.of_nat (length (mem rt varyobj_space)))
  && within 0 vary_npages (2 ^ 31 - 32)
  && (Z.quot (ALIGN_UP vary_npages 32) 32 * 4
      =? Z.of_nat (length (mem rt varyobj_page_touched_bits)))
  && (vary_npages * 4 =? Z.of_nat (length (mem rt varyobj_pages)))
  && within 0 (var rt free_tls_index) (2 ^ 31)
  && within 0 (sizeof_os_context B) (2 ^ 31)
  && forallb (thread_capturable self sp0 (var rt free_tls_index)) (all_threads rt).

(** The ten pieces written before the threads. *)
Definition header_pieces (padding : list byte) (rt : runtime) : list (list byte) :=
  [ encode_preamble (crash_preamble_of B rt padding);
    firstn (Z.to_nat (static_usage rt)) (mem rt static_space);
    firstn (Z.to_nat (var rt next_free_page * GENCGC_PAGE_BYTES B)) (mem rt dynamic_space);
    firstn (Z.to_nat (sizeof_page B * var rt next_free_page)) (mem rt page_table);
    mem rt gc_card_mark;
    firstn (Z.to_nat (fixedobj_usage rt)) (mem rt fixedobj_space);
    mem rt fixedobj_pages;
    firstn (Z.to_nat (varyobj_usage rt)) (mem rt varyobj_space);
    mem rt varyobj_page_touched_bits;
    mem rt varyobj_pages ].

Definition dump_pieces (self sp0 : Z) (padding : list byte) (rt : runtime)
  : list (list byte) :=
  header_pieces padding rt
  ++ flat_map (thread_pieces self sp0 (var rt free_tls_index)) (all_threads rt)
  ++ [trailer].

End Capture.

Ltac bools :=
  repeat match goal with
  | H : within _ _ _ = true |- _ => unfold within in H
  | H : _ && _ = true |- _ => apply andb_prop in H; destruct H
  | H : (_ <=? _) = true |- _ => apply Z.leb_le in H
  | H : (_ <? _) = true |- _ => apply Z.ltb_lt in H
  | H : (_ =? _) = true |- _ => apply Z.eqb_eq in H
  end.

Lemma checked_write_full buf n w :
  0 <= n <= Z.of_nat (length buf) -> n < 2 ^ 63 ->
  checked_write io_full buf n w = Done (tt, w ++ [firstn (Z.to_nat n) buf]).
Proof.
  intros H L. unfold checked_write, bind, sys_write, io_full.
  rewrite (to_long_small n) by lia. rewrite (to_uword_small n) by lia.
  replace (0 <=? n) with true by (symmetry; apply Z.leb_le; lia).
  replace (n <=? n) with true by (symmetry; apply Z.leb_le; lia).
  replace (n <=? Z.of_nat (length buf)) with true by (symmetry; apply Z.leb_le; lia).
  cbn [andb]. rewrite Z.eqb_refl. reflexivity.
Qed.

Lemma checked_write_whole buf n w :
  n = Z.of_nat (length buf) -> n < 2 ^ 63 ->
  checked_write io_full buf n w = Done (tt, w ++ [buf]).
Proof.
  intros E L. rewrite checked_write_full by lia.
  subst n. rewrite Nat2Z.id, firstn_all. reflexivity.
Qed.

Lemma sys_write_whole buf n w :
  n = Z.of_nat (length buf) -> n < 2 ^ 63 ->
  sys_write io_full buf n w = Done (n, w ++ [buf]).
Proof.
  intros E L. unfold sys_write, io_full.
  rewrite (to_uword_small n) by lia.
  replace (0 <=? n) with true by (symmetry; apply Z.leb_le; lia).
  replace (n <=? n) with true by (symmetry; apply Z.leb_le; lia).
  replace (n <=? Z.of_nat (length buf)) with true by (symmetry; apply Z.leb_le; lia).
  cbn [andb]. subst n. rewrite Nat2Z.id, firstn_all. reflexivity.
Qed.

Lemma length_stack_from th sp :
  control_stack_end th - Z.of_nat (length (control_stack th)) <= sp <= control_stack_end th ->
  Z.of_nat (length (stack_from th sp)) = control_stack_end th - sp.
Proof.
  intros H. unfold stack_from.
  replace (control_stack_end th - Z.of_nat (length (control_stack th)) <=? sp)
    with true by (symmetry; apply Z.leb_le; lia).
  replace (sp <=? control_stack_end th) with true by (symmetry; apply Z.leb_le; lia).
  cbn [andb]. rewrite length_skipn. lia.
Qed.

Lemma length_encode_thread_preamble p : length (encode_thread_preamble p) = 32%nat.
Proof. unfold encode_thread_preamble. rewrite !length_app, !length_le_split. reflexivity. Qed.

Lemma length_pad2 l : length (pad2 l) = 2%nat.
Proof.
  unfold pad2. rewrite length_firstn, length_app. cbn [length]. lia.
Qed.

Lemma length_encode_preamble p : length (encode_preamble p) = 120%nat.
Proof.
  unfold encode_preamble. rewrite !length_app, !length_le_split, length_pad2.
  reflexivity.
Qed.

Lemma ALIGN_UP_32 x : ALIGN_UP x 32 = 32 * ((x + 31) / 32).
Proof.
  unfold ALIGN_UP. change (32 - 1) with (Z.ones 5).
  rewrite <- Z.ldiff_land, Z.ldiff_ones_r by lia.
  rewrite Z.shiftl_mul_pow2, Z.shiftr_div_pow2 by lia.
  change (2 ^ 5) with 32. change (Z.ones 5) with 31. lia.
Qed.

Lemma ALIGN_UP_32_quot x :
  0 <= x -> 0 <= Z.quot (ALIGN_UP x 32) 32 <= x / 32 + 1.
Proof.
  intros H. rewrite ALIGN_UP_32.
  rewrite Z.quot_div_nonneg by (try apply Z.mul_nonneg_nonneg; try apply Z.div_pos; lia).
  rewrite Z.mul_comm, Z.div_mul by lia.
  pose proof (Z.div_pos (x + 31) 32 ltac:(lia) ltac:(lia)).
  assert ((x + 31) / 32 <= x / 32 + 1).
  { replace (x + 31) with (x + 1 * 32 - 1) by lia.
    transitivity ((x + 1 * 32) / 32).
    - apply Z.div_le_mono; lia.
    - rewrite Z.div_add by lia. lia. }
  lia.
Qed.

Section CaptureFull.
Variable B : build.

Lemma save_thread_full self sp0 nbytes_tls th w :
  0 <= nbytes_tls < 2 ^ 31 ->
  0 <= sizeof_os_context B < 2 ^ 31 ->
  thread_capturable B self sp0 nbytes_tls th = true ->
  save_thread B io_full self sp0 nbytes_tls th w
  = Done (tt, w ++ thread_pieces B self sp0 nbytes_tls th).
Proof.
  intros Ht Hc H. unfold thread_capturable in H. unfold save_thread, thread_pieces.
  destruct (crash_stackptr B self sp0 th) as [sp|]; [|discriminate].
  cbv zeta in H. bools.
  set (nb := binding_stack_pointer th - binding_stack_start th) in *.
  assert (Ls := length_stack_from th sp ltac:(lia)).
  unfold bind.
  rewrite checked_write_whole
    by (rewrite ?length_encode_thread_preamble; unfold sizeof_crash_thread_preamble; lia).
  rewrite (to_int_small (control_stack_end th - sp)) by lia.
  rewrite (to_int_small nb) by lia.
  rewrite (to_int_small (sizeof_os_context B)) by lia.
  destruct (negb (interrupt_context_count B th =? 0)); bools.
  - rewrite sys_write_whole by lia. unfold ret.
    rewrite checked_write_whole by lia.
    rewrite checked_write_full by lia.
    rewrite checked_write_full by lia.
    rewrite <- !app_assoc. reflexivity.
  - unfold ret.
    rewrite checked_write_whole by lia.
    rewrite checked_write_full by lia.
    rewrite checked_write_full by lia.
    rewrite <- !app_assoc. reflexivity.
Qed.

Lemma for_each_thread_full self sp0 nbytes_tls l : forall w,
  0 <= nbytes_tls < 2 ^ 31 ->
  0 <= sizeof_os_context B < 2 ^ 31 ->
  forallb (thread_capturable B self sp0 nbytes_tls) l = true ->
  for_each l (save_thread B io_full self sp0 nbytes_tls) w
  = Done (tt, w ++ flat_map (thread_pieces B self sp0 nbytes_tls) l).
Proof.
  induction l as [|th l IH]; intros w Ht Hc H.
  - simpl. rewrite app_nil_r. reflexivity.
  - cbn [forallb] in H. apply andb_prop in H as [H1 H2].
    cbn [for_each flat_map]. unfold bind.
    rewrite save_thread_full by assumption.
    rewrite IH by assumption. rewrite <- app_assoc. reflexivity.
Qed.

(** Under [capturable], with every write going through, the file is
    made of [dump_pieces]. *)
Lemma capture_full self sp0 padding rt :
  capturable B self sp0 rt = true ->
  capture B io_full self padding rt sp0 = Done (dump_pieces B self sp0 padding rt).
Proof.
  intros H. unfold capturable in H. cbv zeta in H. bools.
  unfold static_usage, fixedobj_usage, varyobj_usage in *.
  unfold capture, save_gc_crashdump, dump_pieces, header_pieces.
  unfold static_usage, fixedobj_usage, varyobj_usage.
  cbv zeta. unfold bind.
  rewrite checked_write_whole
    by (rewrite ?length_encode_preamble; unfold sizeof_crash_preamble; lia).
  cbn [Preamble.static_nbytes crash_preamble_of].
  rewrite (to_uword_small (var rt static_space_free_pointer - STATIC_SPACE_START B)) by lia.
  rewrite checked_write_full by lia.
  rewrite (to_uword_small (var rt next_free_page * GENCGC_PAGE_BYTES B)) by lia.
  rewrite checked_write_full by lia.
  rewrite (to_uword_small (sizeof_page B * var rt next_free_page)) by lia.
  rewrite checked_write_full by lia.
  rewrite checked_write_whole by lia.
  rewrite (to_uword_small (var rt fixedobj_free_pointer)) by lia.
  rewrite (to_int_small (var rt fixedobj_free_pointer - var rt FIXEDOBJ_SPACE_START)) by lia.
  rewrite checked_write_full by lia.
  rewrite (to_int_small (Z.quot (FIXEDOBJ_SPACE_SIZE B) (IMMOBILE_CARD_BYTES B))) by lia.
  rewrite (to_uword_small (_ * 8)) by lia.
  rewrite checked_write_whole by lia.
  rewrite (to_uword_small (var rt varyobj_free_pointer)) by lia.
  rewrite (to_int_small (var rt varyobj_free_pointer - var rt VARYOBJ_SPACE_START)) by lia.
  rewrite checked_write_full by lia.
  rewrite (to_int_small (Z.quot (VARYOBJ_SPACE_SIZE B) (IMMOBILE_CARD_BYTES B))) by lia.
  set (vn := Z.quot (VARYOBJ_SPACE_SIZE B) (IMMOBILE_CARD_BYTES B)) in *.
  assert (A : 0 <= Z.quot (ALIGN_UP vn 32) 32 * 4 < 2 ^ 31).
  { pose proof (ALIGN_UP_32_quot vn ltac:(lia)).
    assert (vn / 32 < 2 ^ 26) by (apply Z.div_lt_upper_bound; lia).
    lia. }
  rewrite (to_int_small (Z.quot (ALIGN_UP vn 32) 32)) by lia.
  rewrite (to_uword_small (_ * 4)) by lia.
  rewrite checked_write_whole by lia.
  rewrite (to_uword_small (vn * 4)) by lia.
  rewrite checked_write_whole by lia.
  rewrite (to_int_small (var rt free_tls_index)) by lia.
  rewrite for_each_thread_full by (assumption || lia).
  rewrite checked_write_whole by (simpl; lia).
  cbn [app]. rewrite <- ?app_assoc. reflexivity.
Qed.

End CaptureFull.

(** ** Sizes of the table pieces *)

(** C5, as the code has it: every space is written up to its free
    pointer; the card table and the tables of the two immobile spaces
    are written whole, whatever the usage; the page table of the
    dynamic space is written for the [next_free_page] pages in use
    only. *)
Theorem table_pieces_sizes (B : build) (self sp0 : Z) (padding : list byte)
  (rt : runtime) :
  capturable B self sp0 rt = true ->
  exists w,
    capture B io_full self padding rt sp0 = Done w
    /\ nth 1 w [] = firstn (Z.to_nat (static_usage B rt)) (mem rt static_space)
    /\ Z.of_nat (length (nth 2 w [])) = var rt next_free_page * GENCGC_PAGE_BYTES B
    /\ Z.of_nat (length (nth 3 w [])) = sizeof_page B * var rt next_free_page
    /\ nth 4 w [] = mem rt gc_card_mark
    /\ Z.of_nat (length (nth 4 w [])) = 1 + var rt gc_card_table_mask
    /\ Z.of_nat (length (nth 5 w [])) = fixedobj_usage rt
    /\ nth 6 w [] = mem rt fixedobj_pages
    /\ Z.of_nat (length (nth 6 w []))
       = Z.quot (FIXEDOBJ_SPACE_SIZE B) (IMMOBILE_CARD_BYTES B) * 8
    /\ Z.of_nat (length (nth 7 w [])) = varyobj_usage rt
    /\ nth 8 w [] = mem rt varyobj_page_touched_bits
    /\ nth 9 w [] = mem rt varyobj_pages
    /\ Z.of_nat (length (nth 9 w []))
       = Z.quot (VARYOBJ_SPACE_SIZE B) (IMMOBILE_CARD_BYTES B) * 4.
Proof.
  intros H. exists (dump_pieces B self sp0 padding rt).
  split; [apply capture_full; exact H|].
  unfold capturable in H. cbv zeta in H. bools.
  unfold dump_pieces, header_pieces. cbn [nth app].
  rewrite !length_firstn.
  repeat split; try reflexivity; lia.
Qed.

Lemma table_pieces_sizes_witness :
  exists w,
    capture example_build io_full 0x7f0000001000 []
            (example_runtime 1 [example_self; example_other]) 0x7f0000001fe8 = Done w
    /\ nth 1 w [] = firstn 16 (example_mem static_space)
    /\ Z.of_nat (length (nth 2 w [])) = 1 * 4096
    /\ Z.of_nat (length (nth 3 w [])) = 8 * 1
    /\ nth 4 w [] = example_mem gc_card_mark
    /\ Z.of_nat (length (nth 4 w [])) = 1 + 15
    /\ Z.of_nat (length (nth 5 w [])) = 32
    /\ nth 6 w [] = example_mem fixedobj_pages
    /\ Z.of_nat (length (nth 6 w [])) = 1 * 8
    /\ Z.of_nat (length (nth 7 w [])) = 48
    /\ nth 8 w [] = example_mem varyobj_page_touched_bits
    /\ nth 9 w [] = example_mem varyobj_pages
    /\ Z.of_nat (length (nth 9 w [])) = 2 * 4.
Proof.
  apply (table_pieces_sizes example_build 0x7f0000001000 0x7f0000001fe8 []
           (example_runtime 1 [example_self; example_other])).
  vm_compute. reflexivity.
Defined.

(** C5 as stated fails for the page table of the dynamic space: two
    processes with the same spaces and the same page table, one with
    one page in use and one with two, emit page-table pieces of 8 and
    of 16 bytes. *)
Lemma page_table_piece_counterexample :
  exists w1 w2,
    capture example_build io_full 0x7f0000001000 []
            (example_runtime 1 [example_self]) 0x7f0000001fe8 = Done w1
    /\ capture example_build io_full 0x7f0000001000 []
            (example_runtime 2 [example_self]) 0x7f0000001fe8 = Done w2
    /\ mem (example_runtime 1 [example_self]) page_table
       = mem (example_runtime 2 [example_self]) page_table
    /\ mem (example_runtime 1 [example_self]) dynamic_space
       = mem (example_runtime 2 [example_self]) dynamic_space
    /\ length (nth 3 w1 []) = 8%nat
    /\ length (nth 3 w2 []) = 16%nat.
Proof.
  eexists. eexists.
  split; [vm_compute; reflexivity|].
  split; [vm_compute; reflexivity|].
  repeat split; reflexivity.
Qed.

(** ** The record of a thread *)

(** The shape of what is written for a thread: a header; the interrupt
    context exactly when the interrupt-context count is not zero; the
    control stack from the stack pointer to its end; the binding stack
    up to its pointer; the thread-local block. *)
Definition thread_record (B : build) (self sp0 nbytes_tls : Z) (th : thread)
  (rec : list (list byte)) : Prop :=
  exists sp preamble stack bstack block,
    rec = [encode_thread_preamble preamble]
          ++ (if negb (interrupt_context_count B th =? 0)
              then [interrupt_context th] else [])
          ++ [stack; bstack; block]
    /\ (interrupt_context_count B th <> 0 ->
        ThreadPreamble.has_context preamble = 1
        /\ Z.of_nat (length (interrupt_context th)) = sizeof_os_context B
        /\ sp = to_uword (context_sp B (interrupt_context th)))
    /\ (interrupt_context_count B th = 0 ->
        ThreadPreamble.has_context preamble = 0
        /\ th_address th = self /\ sp = to_uword sp0)
    /\ ThreadPreamble.control_stack_nbytes preamble = control_stack_end th - sp
    /\ Z.of_nat (length stack) = control_stack_end th - sp
    /\ stack = stack_from th sp
    /\ ThreadPreamble.binding_stack_nbytes preamble
       = binding_stack_pointer th - binding_stack_start th
    /\ bstack = firstn (Z.to_nat (binding_stack_pointer th - binding_stack_start th))
                       (binding_stack th)
    /\ block = firstn (Z.to_nat nbytes_tls) (tls th).

Lemma thread_pieces_record (B : build) (self sp0 nbytes_tls : Z) (th : thread) :
  thread_capturable B self sp0 nbytes_tls th = true ->
  thread_record B self sp0 nbytes_tls th (thread_pieces B self sp0 nbytes_tls th).
Proof.
  intros H. unfold thread_capturable in H. unfold thread_pieces, thread_record.
  destruct (crash_stackptr B self sp0 th) as [sp|] eqn:E; [|discriminate].
  cbv zeta in H. bools.
  exists sp, (crash_thread_preamble B th sp), (stack_from th sp).
  eexists. eexists. split; [reflexivity|].
  unfold crash_stackptr in E. cbn [crash_thread_preamble ThreadPreamble.has_context
    ThreadPreamble.control_stack_nbytes ThreadPreamble.binding_stack_nbytes].
  rewrite (to_int_small (control_stack_end th - sp)) by lia.
  rewrite (to_int_small (binding_stack_pointer th - binding_stack_start th)) by lia.
  rewrite (to_uword_small (control_stack_end th - sp)) by lia.
  rewrite (to_uword_small (binding_stack_pointer th - binding_stack_start th)) by lia.
  rewrite length_stack_from by lia.
  destruct (interrupt_context_count B th =? 0) eqn:C; cbn [negb] in *.
  - apply Z.eqb_eq in C.
    destruct (th_address th =? self) eqn:A; cbn [negb] in E; [|discriminate].
    apply Z.eqb_eq in A. injection E as <-.
    repeat split; try reflexivity; try assumption; intros; congruence.
  - apply Z.eqb_neq in C. injection E as <-. bools.
    repeat split; try reflexivity; try assumption; intros; congruence.
Qed.

(** C8: the record of a thread holds a register snapshot exactly when
    the interrupt-context count of the thread is not zero, the flag in
    its header saying which; a thread without interrupt context (then
    the one running the writer) contributes its header, its two stacks
    and its thread-local block only; in both cases the control-stack
    byte count is the distance from the stack pointer to the end of the
    stack. *)
Theorem thread_records_of_capture (B : build) (self sp0 : Z) (padding : list byte)
  (rt : runtime) :
  capturable B self sp0 rt = true ->
  exists header records,
    capture B io_full self padding rt sp0 = Done (header ++ concat records ++ [trailer])
    /\ length header = 10%nat
    /\ Forall2 (thread_record B self sp0 (var rt free_tls_index))
               (all_threads rt) records.
Proof.
  intros H.
  exists (header_pieces B padding rt),
         (map (thread_pieces B self sp0 (var rt free_tls_index)) (all_threads rt)).
  split; [|split].
  - rewrite capture_full by exact H. unfold dump_pieces.
    rewrite flat_map_concat_map. reflexivity.
  - reflexivity.
  - unfold capturable in H. cbv zeta in H. bools.
    match goal with
    | F : forallb _ _ = true |- _ => rename F into HF
    end.
    induction (all_threads rt) as [|th l IH]; cbn [map]; constructor.
    + cbn [forallb] in HF. apply andb_prop in HF as [Hth _].
      apply thread_pieces_record. exact Hth.
    + apply IH. cbn [forallb] in HF. apply andb_prop in HF as [_ Hl]. exact Hl.
Qed.

Lemma thread_records_of_capture_witness :
  exists header records,
    capture example_build io_full 0x7f0000001000 []
            (example_runtime 1 [example_self; example_other]) 0x7f0000001fe8
    = Done (header ++ concat records ++ [trailer])
    /\ length header = 10%nat
    /\ Forall2 (thread_record example_build 0x7f0000001000 0x7f0000001fe8 96)
               [example_self; example_other] records.
Proof.
  apply (thread_records_of_capture example_build 0x7f0000001000 0x7f0000001fe8 []
           (example_runtime 1 [example_self; example_other])).
  vm_compute. reflexivity.
Defined.

(** ** The one write that is not checked *)

(** C3 fails on the register snapshot: with the operating system taking
    only 100 of the 936 bytes of the interrupt context of the second
    thread (call number 15), the writer carries on and returns, leaving
    a file that is 836 bytes short; cut short at the next write
    instead, it stops. *)
Theorem context_write_is_unchecked :
  (exists w,
     capture example_build (io_short_at 15 100) 0x7f0000001000 []
             (example_runtime 1 [example_self; example_other]) 0x7f0000001fe8 = Done w
     /\ nth 15 w [] = firstn 100 (interrupt_context example_other)
     /\ Z.of_nat (length (file_contents [] w)) = 4784)
  /\ Z.of_nat (length (file_contents []
       (dump_pieces example_build 0x7f0000001000 0x7f0000001fe8 []
          (example_runtime 1 [example_self; example_other])))) = 5620
  /\ capture example_build (io_short_at 16 1) 0x7f0000001000 []
             (example_runtime 1 [example_self; example_other]) 0x7f0000001fe8
     = Lose ShortWrite.
Proof.
  split; [|split].
  - eexists. split; [vm_compute; reflexivity|]. split; vm_compute; reflexivity.
  - vm_compute. reflexivity.
  - vm_compute. reflexivity.
Qed.

(** ** The reader consumes the file from the front

    What a part of the reader does is decided by the bytes it consumes:
    the same bytes followed by anything else give the same result, and
    fewer bytes make a read fail. *)

Definition proper_prefix (c' c : list byte) : Prop :=
  exists q, q <> [] /\ c = c' ++ q.

Definition local {A} (m : M rstate A) : Prop :=
  forall s a s1, m s = Done (a, s1) ->
    exists c,
      input s = c ++ input s1
      /\ (forall r, m (with_input (c ++ r) s) = Done (a, with_input r s1))
      /\ (forall c', proper_prefix c' c -> m (with_input c' s) = Lose ReadFailed).

(** Parts that do not look at the file. *)
Definition oblivious {A} (m : M rstate A) : Prop :=
  forall s a s1, m s = Done (a, s1) ->
    input s1 = input s /\ forall i, m (with_input i s) = Done (a, with_input i s1).

Lemma proper_prefix_nil c' : ~ proper_prefix c' [].
Proof.
  intros [q [Hq E]]. destruct c'; simpl in E; [congruence | discriminate].
Qed.

Lemma oblivious_local {A} (m : M rstate A) : oblivious m -> local m.
Proof.
  intros O s a s1 H. destruct (O s a s1 H) as [E I].
  exists []. split; [symmetry; exact E|]. split.
  - intros r. apply I.
  - intros c' P. destruct (proper_prefix_nil c' P).
Qed.

Lemma local_bind {A C} (m : M rstate A) (f : A -> M rstate C) :
  local m -> (forall a, local (f a)) -> local (bind m f).
Proof.
  intros Lm Lf s b s2 H. unfold bind in H.
  destruct (m s) as [[a s1]| | |] eqn:Em; try discriminate.
  destruct (Lm s a s1 Em) as [c1 [E1 [R1 P1]]].
  destruct (Lf a s1 b s2 H) as [c2 [E2 [R2 P2]]].
  exists (c1 ++ c2). split; [|split].
  - rewrite E1, E2. apply app_assoc.
  - intros r. unfold bind. rewrite <- app_assoc, R1. apply R2.
  - intros c' [q [Hq E]]. unfold bind.
    destruct (Nat.le_gt_cases (length c1) (length c')) as [L|L].
    + (* all of c1 is there: the first part runs as before *)
      assert (X : exists c2', c' = c1 ++ c2' /\ c2 = c2' ++ q).
      { exists (skipn (length c1) c').
        assert (F : firstn (length c1) (c1 ++ c2) = firstn (length c1) (c' ++ q))
          by (rewrite E; reflexivity).
        rewrite firstn_app, Nat.sub_diag, firstn_all, firstn_O, app_nil_r in F.
        rewrite firstn_app in F.
        replace (length c1 - length c')%nat with 0%nat in F by lia.
        rewrite firstn_O, app_nil_r in F.
        assert (Ec : c' = c1 ++ skipn (length c1) c').
        { rewrite F at 1. symmetry. apply firstn_skipn. }
        split; [exact Ec|].
        rewrite Ec in E at 1. rewrite <- app_assoc in E.
        apply app_inv_head in E. exact E. }
      destruct X as [c2' [-> ->]].
      rewrite R1. apply P2. exists q. split; [exact Hq | reflexivity].
    + rewrite (P1 c'); [reflexivity|].
      exists (skipn (length c') c1). split.
      * intros N. apply (f_equal (@length byte)) in N.
        rewrite length_skipn in N. simpl in N. lia.
      * assert (F : firstn (length c') (c1 ++ c2) = firstn (length c') (c' ++ q))
          by (rewrite E; reflexivity).
        rewrite firstn_app in F.
        replace (length c' - length c1)%nat with 0%nat in F by lia.
        rewrite firstn_O, app_nil_r in F.
        rewrite firstn_app, Nat.sub_diag, firstn_all, firstn_O, app_nil_r in F.
        rewrite <- F at 1. symmetry. apply firstn_skipn.
Qed.

Lemma local_ret {A} (a : A) : local (ret a : M rstate A).
Proof.
  apply oblivious_local. intros s a' s1 H. inversion H; subst.
  split; [reflexivity | intros i; reflexivity].
Qed.

Lemma local_lose {A} why : local (lose why : M rstate A).
Proof. intros s a s1 H. discriminate H. Qed.

Lemma local_undefined {A} : local (undefined : M rstate A).
Proof. intros s a s1 H. discriminate H. Qed.

Lemma local_get_globals : local get_globals.
Proof.
  apply oblivious_local. intros s a s1 H. inversion H; subst.
  split; [reflexivity | intros i; reflexivity].
Qed.

Lemma local_get_threads : local get_threads.
Proof.
  apply oblivious_local. intros s a s1 H. inversion H; subst.
  split; [reflexivity | intros i; reflexivity].
Qed.

Lemma local_modify_globals f : local (modify_globals f).
Proof.
  apply oblivious_local. intros s a s1 H. inversion H; subst.
  split; [reflexivity | intros i; reflexivity].
Qed.

Lemma local_set_threads ths : local (set_threads ths).
Proof.
  apply oblivious_local. intros s a s1 H. inversion H; subst.
  split; [reflexivity | intros i; reflexivity].
Qed.

Lemma local_print l : local (print l).
Proof.
  apply oblivious_local. intros s a s1 H. inversion H; subst.
  split; [reflexivity | intros i; reflexivity].
Qed.

Lemma local_gc_assert ex : local (gc_assert ex).
Proof. destruct ex; [apply local_ret | apply local_lose]. Qed.

Lemma local_when c (m : M rstate unit) : local m -> local (when c m).
Proof. intros L. destruct c; [exact L | apply local_ret]. Qed.

Lemma local_defined {A} (o : option A) : local (defined o).
Proof. destruct o; [apply local_ret | apply local_undefined]. Qed.

Lemma local_checked_read n : local (checked_read n).
Proof.
  intros s a s1 H. unfold checked_read in *.
  destruct (to_uword n <=? Z.of_nat (length (input s))) eqn:E; [|discriminate].
  apply Z.leb_le in E. inversion H; subst. clear H.
  pose proof (to_uword_range n) as Rn.
  set (k := Z.to_nat (to_uword n)) in *.
  exists (firstn k (input s)). cbn [input with_input]. split; [|split].
  - symmetry. apply firstn_skipn.
  - intros r.
    assert (Lk : length (firstn k (input s)) = k) by (rewrite length_firstn; lia).
    replace (to_uword n <=? Z.of_nat (length (firstn k (input s) ++ r))) with true
      by (symmetry; apply Z.leb_le; rewrite length_app; lia).
    rewrite firstn_app, skipn_app, Lk, Nat.sub_diag.
    rewrite firstn_firstn, Nat.min_id, firstn_O, app_nil_r.
    rewrite skipn_all2 by lia. reflexivity.
  - intros c' [q [Hq Ec]].
    assert (Lc : (length c' < k)%nat).
    { apply (f_equal (@length byte)) in Ec.
      rewrite length_app, length_firstn in Ec.
      destruct q; [congruence|]. simpl in Ec. lia. }
    replace (to_uword n <=? Z.of_nat (length c')) with false
      by (symmetry; apply Z.leb_gt; lia).
    reflexivity.
Qed.

Lemma local_if {A} (c : bool) (m1 m2 : M rstate A) :
  local m1 -> local m2 -> local (if c then m1 else m2).
Proof. destruct c; auto. Qed.

Lemma local_read_into dst off n : local (read_into dst off n).
Proof.
  unfold read_into. apply local_bind; [apply local_checked_read|].
  intros bs. apply local_if; [apply local_ret | apply local_undefined].
Qed.

Lemma local_for_each {A} (body : A -> M rstate unit) l :
  (forall a, local (body a)) -> local (for_each l body).
Proof.
  intros Lb. induction l as [|a l IH]; cbn [for_each].
  - apply local_ret.
  - apply local_bind; [apply Lb | intros _; exact IH].
Qed.

Create HintDb reader_local.
#[export] Hint Resolve local_ret local_lose local_undefined local_get_globals
  local_get_threads local_modify_globals local_set_threads local_print
  local_gc_assert local_checked_read local_read_into local_defined : reader_local.

Ltac local_steps :=
  repeat match goal with
  | |- local (bind _ _) => apply local_bind; [ | intros ? ]
  | |- local (when _ _) => apply local_when
  | |- local (if _ then _ else _) => apply local_if
  | |- local (for_each _ _) => apply local_for_each; intros ?
  | |- local _ => solve [auto with reader_local]
  end.

Section ReaderLocal.
Variable B : build.
Variable os_validate : Z -> Z -> Z.
Variable alloc_thread_struct : Z -> thread.
Variable malloc : Z -> Z -> list byte.
Variable search_dynamic_space : runtime -> Z -> Z.

Lemma local_read_region r n : local (read_region r n).
Proof. unfold read_region. local_steps. Qed.

Lemma local_replay_tls preamble new_tls : local (replay_tls B preamble new_tls).
Proof. unfold replay_tls. local_steps. Qed.

Lemma local_link_before th ths : local (link_before B th ths).
Proof. unfold link_before. destruct ths; local_steps. Qed.

Lemma local_load_thread preamble i :
  local (load_thread B alloc_thread_struct malloc search_dynamic_space preamble i).
Proof.
  unfold load_thread. local_steps.
  - apply local_link_before.
  - apply local_replay_tls.
  - match goal with
    | |- context [scan_stack ?a ?b ?c ?d ?e] =>
      destruct (scan_stack a b c d e) as [[v d'] out]
    end.
    local_steps.
Qed.

Lemma local_load_records :
  local (load_records B os_validate alloc_thread_struct malloc search_dynamic_space).
Proof.
  unfold load_records. local_steps; try apply local_read_region.
  apply local_load_thread.
Qed.

Lemma local_read_trailer : local read_trailer.
Proof. unfold read_trailer. local_steps. Qed.

End ReaderLocal.

(** ** The trailer *)

Lemma bytes_eqb_eq a : forall b, bytes_eqb a b = true -> a = b.
Proof.
  unfold bytes_eqb. induction a as [|x a IH]; intros [|y b] H;
    try reflexivity; try discriminate.
  cbn [length combine forallb fst snd] in H.
  apply andb_prop in H as [L H]. apply andb_prop in H as [Hx H].
  apply Z.eqb_eq in Hx. apply byte.unsigned_inj in Hx. subst y.
  f_equal. apply IH. rewrite H, andb_true_r. exact L.
Qed.


Section Trailer.
Variable B : build.
Variable os_validate : Z -> Z -> Z.
Variable alloc_thread_struct : Z -> thread.
Variable malloc : Z -> Z -> list byte.
Variable search_dynamic_space : runtime -> Z -> Z.

Definition start_state (rt0 : runtime) (file : list byte) : rstate :=
  {| input := file; globals := rt0; threads := []; printed := [] |}.

(** The reader up to and including the check of the trailer. *)
Definition load_checked : M rstate unit :=
  load_records B os_validate alloc_thread_struct malloc search_dynamic_space ;;
  read_trailer.

Lemma local_load_checked : local load_checked.
Proof.
  unfold load_checked. apply local_bind.
  - apply local_load_records.
  - intros _. apply local_read_trailer.
Qed.

Lemma load_gc_crashdump_parts s :
  load_gc_crashdump B os_validate alloc_thread_struct malloc search_dynamic_space s
  = bind load_checked
      (fun _ => at_eof ;; ths <- get_threads ;; modify_globals (set_all_threads ths)) s.
Proof.
  unfold load_gc_crashdump, load_checked, bind.
  destruct (load_records B os_validate alloc_thread_struct malloc search_dynamic_space s)
    as [[[] s1]| | |]; reflexivity.
Qed.

Lemma restore_parts rt0 file :
  restore B os_validate alloc_thread_struct malloc search_dynamic_space rt0 file
  = match load_checked (start_state rt0 file) with
    | Done (_, s2) =>
        match input s2 with
        | [] => Done {| input := []; globals := set_all_threads (threads s2) (globals s2);
                        threads := threads s2; printed := printed s2 |}
        | _ :: _ => Lose GcInvariantLost
        end
    | Lose why => Lose why
    | Exit1 => Exit1
    | Undefined => Undefined
    end.
Proof.
  unfold restore. fold (start_state rt0 file). rewrite load_gc_crashdump_parts.
  unfold bind. destruct (load_checked (start_state rt0 file)) as [[[] s2]| | |];
    try reflexivity.
  unfold at_eof, bind, get_input. destruct (input s2) eqn:E; cbn; [|reflexivity].
  rewrite E. reflexivity.
Qed.

Lemma read_trailer_done s1 s2 :
  read_trailer s1 = Done (tt, s2) ->
  input s1 = trailer ++ input s2
  /\ forall t, length t = 8%nat -> t <> trailer ->
       read_trailer (with_input t s1) = Lose GcInvariantLost.
Proof.
  intros H. unfold read_trailer, bind, checked_read in *.
  change (to_uword 8) with 8 in *. change (Z.to_nat 8) with 8%nat in *.
  destruct (8 <=? Z.of_nat (length (input s1))) eqn:L; [|discriminate].
  destruct (bytes_eqb (firstn 8 (input s1)) trailer) eqn:E; [|discriminate].
  apply bytes_eqb_eq in E. cbn in H. inversion H; subst s2. clear H.
  cbn [input with_input]. split.
  - rewrite <- E. symmetry. apply firstn_skipn.
  - intros t Lt Nt. rewrite Lt. cbn [Z.of_nat Pos.of_succ_nat Pos.succ Z.leb Z.compare
      Pos.compare Pos.compare_cont].
    replace (firstn 8 t) with t by (rewrite <- Lt; symmetry; apply firstn_all).
    destruct (bytes_eqb t trailer) eqn:E'; [|reflexivity].
    apply bytes_eqb_eq in E'. contradiction.
Qed.

End Trailer.

(** C4: a file that the reader accepts ends in the eight bytes
    "SB.Crash"; with any other eight bytes in their place, or with
    anything appended, a [gc_assert] fails; cut short anywhere, a read
    fails.  In no case does the reader return. *)
Theorem trailer_validation (B : build) (os_validate : Z -> Z -> Z)
  (alloc_thread_struct : Z -> thread)
  (malloc : Z -> Z -> list byte) (search_dynamic_space : runtime -> Z -> Z)
  (rt0 : runtime) (file : list byte) (s : rstate) :
  restore B os_validate alloc_thread_struct malloc search_dynamic_space rt0 file = Done s ->
  exists body,
    file = body ++ trailer
    /\ (forall t, length t = 8%nat -> t <> trailer ->
        restore B os_validate alloc_thread_struct malloc search_dynamic_space rt0 (body ++ t)
        = Lose GcInvariantLost)
    /\ (forall extra, extra <> [] ->
        restore B os_validate alloc_thread_struct malloc search_dynamic_space rt0 (file ++ extra)
        = Lose GcInvariantLost)
    /\ (forall cut, proper_prefix cut file ->
        restore B os_validate alloc_thread_struct malloc search_dynamic_space rt0 cut
        = Lose ReadFailed).
Proof.
  intros H. rewrite restore_parts in H.
  destruct (load_checked B os_validate alloc_thread_struct malloc search_dynamic_space
              (start_state rt0 file)) as [[[] s2]| | |] eqn:E; try discriminate.
  destruct (input s2) eqn:I2; [|discriminate]. clear H.
  destruct (local_load_checked B os_validate alloc_thread_struct malloc search_dynamic_space
              _ _ _ E) as [c [Ec [Rc Pc]]].
  cbn [input start_state] in Ec. rewrite I2, app_nil_r in Ec. subst c.
  pose proof E as E'. unfold load_checked, bind in E'.
  destruct (load_records B os_validate alloc_thread_struct malloc search_dynamic_space
              (start_state rt0 file)) as [[[] s1]| | |] eqn:E1; try discriminate.
  destruct (local_load_records B os_validate alloc_thread_struct malloc search_dynamic_space
              _ _ _ E1) as [body [Eb [Rb Pb]]].
  destruct (read_trailer_done s1 s2 E') as [Et Mt].
  rewrite I2, app_nil_r in Et. cbn [input start_state] in Eb. rewrite Et in Eb.
  exists body. split; [exact Eb|]. split; [|split].
  - intros t Lt Nt. rewrite restore_parts. unfold load_checked, bind.
    change (start_state rt0 (body ++ t)) with (with_input (body ++ t) (start_state rt0 file)).
    rewrite Rb, (Mt t Lt Nt). reflexivity.
  - intros extra Ne. rewrite restore_parts.
    change (start_state rt0 (file ++ extra))
      with (with_input (file ++ extra) (start_state rt0 file)).
    rewrite Rc. cbn [input with_input]. destruct extra; [congruence | reflexivity].
  - intros cut Pcut. rewrite restore_parts.
    change (start_state rt0 cut) with (with_input cut (start_state rt0 file)).
    rewrite (Pc cut Pcut). reflexivity.
Qed.

Lemma trailer_validation_witness :
  exists body,
    example_file = body ++ trailer
    /\ (forall t, length t = 8%nat -> t <> trailer ->
        restore example_build os_validate_as_asked fresh_thread fresh_block example_search
                (fresh_runtime 8) (body ++ t)
        = Lose GcInvariantLost)
    /\ (forall extra, extra <> [] ->
        restore example_build os_validate_as_asked fresh_thread fresh_block example_search
                (fresh_runtime 8) (example_file ++ extra)
        = Lose GcInvariantLost)
    /\ (forall cut, proper_prefix cut example_file ->
        restore example_build os_validate_as_asked fresh_thread fresh_block example_search
                (fresh_runtime 8) cut
        = Lose ReadFailed).
Proof.
  eapply (trailer_validation example_build os_validate_as_asked fresh_thread fresh_block
            example_search (fresh_runtime 8) example_file).
  vm_compute. reflexivity.
Defined.

(** ** The scan only prints *)

(** The state of the reader without what it has printed. *)
Definition quiet (s : rstate) : rstate :=
  {| input := input s; globals := globals s; threads := threads s; printed := [] |}.

Definition same_run {A} (o1 o2 : outcome (A * rstate)) : Prop :=
  match o1, o2 with
  | Done (a1, s1), Done (a2, s2) => a1 = a2 /\ quiet s1 = quiet s2
  | Lose w1, Lose w2 => w1 = w2
  | Exit1, Exit1 => True
  | Undefined, Undefined => True
  | _, _ => False
  end.

(** Two parts of a reader that differ in what they print at most. *)
Definition alike {A} (m1 m2 : M rstate A) : Prop :=
  forall s1 s2, quiet s1 = quiet s2 -> same_run (m1 s1) (m2 s2).

Lemma quiet_fields s1 s2 :
  quiet s1 = quiet s2 ->
  input s1 = input s2 /\ globals s1 = globals s2 /\ threads s1 = threads s2.
Proof. unfold quiet. intros H. inversion H. auto. Qed.


Ltac alike_primitive :=
  let s1 := fresh "s" in let s2 := fresh "s" in let Q := fresh "Q" in
  intros s1 s2 Q; destruct (quiet_fields s1 s2 Q) as [? [? ?]];
  cbn [same_run]; unfold quiet; cbn [input globals threads printed];
  try (split; [congruence | f_equal; congruence]); try congruence; try exact I.

Lemma alike_ret {A} (a : A) : alike (ret a : M rstate A) (ret a).
Proof. unfold ret. alike_primitive. Qed.

Lemma alike_lose {A} why : alike (lose why : M rstate A) (lose why).
Proof. unfold lose. alike_primitive. Qed.

Lemma alike_undefined {A} : alike (undefined : M rstate A) undefined.
Proof. unfold undefined. alike_primitive. Qed.

Lemma alike_get_globals : alike get_globals get_globals.
Proof. unfold get_globals. alike_primitive. Qed.

Lemma alike_get_threads : alike get_threads get_threads.
Proof. unfold get_threads. alike_primitive. Qed.

Lemma alike_get_input : alike get_input get_input.
Proof. unfold get_input. alike_primitive. Qed.

Lemma alike_modify_globals f : alike (modify_globals f) (modify_globals f).
Proof. unfold modify_globals. alike_primitive. Qed.

Lemma alike_set_threads ths : alike (set_threads ths) (set_threads ths).
Proof. unfold set_threads. alike_primitive. Qed.

Lemma alike_print l1 l2 : alike (print l1) (print l2).
Proof. unfold print. alike_primitive. Qed.

Lemma alike_gc_assert ex : alike (gc_assert ex) (gc_assert ex).
Proof. destruct ex; [apply alike_ret | apply alike_lose]. Qed.

Lemma alike_checked_read n : alike (checked_read n) (checked_read n).
Proof.
  intros s1 s2 Q. destruct (quiet_fields s1 s2 Q) as [Ei [Eg Et]].
  unfold checked_read. rewrite Ei.
  destruct (to_uword n <=? Z.of_nat (length (input s2))); cbn [same_run]; [|reflexivity].
  split; [reflexivity|]. unfold quiet, with_input. cbn [input globals threads printed].
  f_equal; assumption.
Qed.



Lemma alike_defined {A} (o : option A) : alike (defined o) (defined o).
Proof. destruct o; [apply alike_ret | apply alike_undefined]. Qed.


Create HintDb reader_alike.
#[export] Hint Resolve alike_ret alike_lose alike_undefined alike_get_globals
  alike_get_threads alike_get_input alike_modify_globals alike_set_threads
  alike_print alike_gc_assert alike_checked_read alike_defined : reader_alike.


Section Advisory.
Variable B : build.
Variable os_validate : Z -> Z -> Z.
Variable alloc_thread_struct : Z -> thread.
Variable malloc : Z -> Z -> list byte.
Variables search1 search2 : runtime -> Z -> Z.






End Advisory.

(** Reading changes the unread rest of the file only. *)
Definition frame (s s1 : rstate) : Prop :=
  globals s1 = globals s /\ threads s1 = threads s /\ printed s1 = printed s.

Lemma frame_refl s : frame s s.
Proof. repeat split. Qed.

Lemma frame_trans s s1 s2 : frame s s1 -> frame s1 s2 -> frame s s2.
Proof. unfold frame. intros [A [C D]] [E [F G]]. repeat split; congruence. Qed.

Lemma bind_done {S A C} (m : M S A) (f : A -> M S C) s r :
  bind m f s = Done r -> exists a s1, m s = Done (a, s1) /\ f a s1 = Done r.
Proof.
  unfold bind. destruct (m s) as [[a s1]| | |]; try discriminate.
  intros H. exists a, s1. split; [reflexivity | exact H].
Qed.

Lemma checked_read_frame n s bs s1 : checked_read n s = Done (bs, s1) -> frame s s1.
Proof.
  unfold checked_read. destruct (to_uword n <=? Z.of_nat (length (input s))); [|discriminate].
  intros H. inversion H. repeat split.
Qed.

Lemma read_into_frame dst off n s x s1 :
  read_into dst off n s = Done (x, s1) -> frame s s1.
Proof.
  intros H. apply bind_done in H as [bs [s' [H1 H2]]].
  apply checked_read_frame in H1.
  destruct (fits dst off (to_uword n)); [|discriminate].
  inversion H2; subst. exact H1.
Qed.

Lemma when_undefined_done c (s : rstate) a s1 :
  when c undefined s = Done (a, s1) -> s1 = s.
Proof. destruct c; [discriminate|]. intros H. inversion H. reflexivity. Qed.

Lemma replay_tls_frame_state B preamble new_tls s x s1 :
  replay_tls B preamble new_tls s = Done (x, s1) -> frame s s1.
Proof.
  intros H. apply bind_done in H as [bs [s' [H1 H2]]].
  apply checked_read_frame in H1. apply read_into_frame in H2.
  eapply frame_trans; eassumption.
Qed.

Lemma defined_done {A} (o : option A) (s : rstate) a s1 :
  defined o s = Done (a, s1) -> s1 = s /\ o = Some a.
Proof. destruct o; [|discriminate]. intros H. inversion H. auto. Qed.

(** The list of threads after [threads->prev = th]. *)
Definition relinked (B : build) (th : Z) (threads : list thread) : list thread :=
  match threads with
  | [] => []
  | head :: rest => set_prev B th head :: rest
  end.

Lemma link_before_done B th ths s older s1 :
  link_before B th ths s = Done (older, s1) ->
  s1 = s
  /\ older = relinked B th ths
  /\ match ths with
     | [] => True
     | head :: _ => fits (tls head) (offsetof_prev B) N_WORD_BYTES = true
     end.
Proof.
  unfold link_before. destruct ths as [|head rest]; intros H.
  - inversion H. auto.
  - apply bind_done in H as [[] [s2 [H1 H2]]].
    destruct (fits (tls head) (offsetof_prev B) N_WORD_BYTES) eqn:F; [|discriminate].
    inversion H1; subst s2. inversion H2. auto.
Qed.

Lemma checked_read_done n s bs s1 :
  checked_read n s = Done (bs, s1) ->
  bs = firstn (Z.to_nat (to_uword n)) (input s) /\ frame s s1.
Proof.
  intros H. split; [|eapply checked_read_frame; exact H].
  unfold checked_read in H.
  destruct (to_uword n <=? Z.of_nat (length (input s))); [|discriminate].
  inversion H. reflexivity.
Qed.

(** The line that the reader prints about a thread record before it
    scans the stack. *)
Definition thread_line (th : Z) (thread_preamble : ThreadPreamble.t)
  (cname : option (list byte)) : report :=
  ThreadLine th (ThreadPreamble.address thread_preamble)
    (to_int (Z.shiftr (ThreadPreamble.binding_stack_nbytes thread_preamble) WORD_SHIFT))
    (to_int (Z.shiftr (ThreadPreamble.control_stack_nbytes thread_preamble) WORD_SHIFT))
    cname.

(** A thread record that loads puts one structure in front of the
    list, after the store into the one that was first, and prints the
    line about the thread, the lines of the scan of as many bytes of
    its stack as the record declares, and the two counts. *)
Lemma load_thread_prints B alloc_thread_struct malloc search_dynamic_space preamble i s s' :
  load_thread B alloc_thread_struct malloc search_dynamic_space preamble i s = Done (tt, s') ->
  let thread_preamble := decode_thread_preamble (firstn 32 (input s)) in
  let nbytes := ThreadPreamble.control_stack_nbytes thread_preamble in
  exists th cname,
    threads s' = th :: relinked B (th_address (alloc_thread_struct i)) (threads s)
    /\ globals s' = globals s
    /\ th_address th = th_address (alloc_thread_struct i)
    /\ control_stack_end th = control_stack_end (alloc_thread_struct i)
    /\ printed s'
       = printed s
         ++ thread_line (th_address th) thread_preamble cname
         :: snd (scan_stack B search_dynamic_space (globals s)
                   (stack_from th (to_uword (control_stack_end th - nbytes))) nbytes)
         ++ [ValidPointers
               (fst (fst (scan_stack B search_dynamic_space (globals s)
                   (stack_from th (to_uword (control_stack_end th - nbytes))) nbytes)))
               (snd (fst (scan_stack B search_dynamic_space (globals s)
                   (stack_from th (to_uword (control_stack_end th - nbytes))) nbytes)))]
    /\ exists context,
         fits context (reg_SP B) N_WORD_BYTES = true
         /\ interrupt_context th
            = store_word context (reg_SP B) (to_uword (control_stack_end th - nbytes)).
Proof.
  intros H. cbv zeta. unfold load_thread in H.
  apply bind_done in H as [ths [s0 [H0 H]]]. inversion H0; subst ths s0. clear H0.
  apply bind_done in H as [[] [s0 [H0 H]]]. apply when_undefined_done in H0. subst s0.
  apply bind_done in H as [[] [s0 [H0 H]]]. apply when_undefined_done in H0. subst s0.
  apply bind_done in H as [older [s0 [H0 H]]].
  apply link_before_done in H0 as [-> [-> _]].
  apply bind_done in H as [bs [s1 [H1 H]]]. apply checked_read_done in H1 as [-> H1].
  change (Z.to_nat (to_uword sizeof_crash_thread_preamble)) with 32%nat in H.
  apply bind_done in H as [context [s3 [H3 H]]].
  assert (F3 : frame s1 s3).
  { destruct (negb (ThreadPreamble.has_context
                      (decode_thread_preamble (firstn 32 (input s))) =? 0)).
    - eapply read_into_frame; eassumption.
    - inversion H3; subst. apply frame_refl. }
  apply bind_done in H as [[] [s4 [H4 H]]].
  assert (Fc : fits context (reg_SP B) N_WORD_BYTES = true).
  { destruct (fits context (reg_SP B) N_WORD_BYTES); [reflexivity|discriminate]. }
  apply when_undefined_done in H4. subst s4.
  apply bind_done in H as [stack [s5 [H5 H]]]. apply read_into_frame in H5.
  apply bind_done in H as [bstack [s6 [H6 H]]]. apply read_into_frame in H6.
  apply bind_done in H as [block [s7 [H7 H]]]. apply replay_tls_frame_state in H7.
  apply bind_done in H as [[] [s8 [H8 H]]]. apply when_undefined_done in H8. subst s8.
  apply bind_done in H as [[] [s8 [H8 H]]]. apply when_undefined_done in H8. subst s8.
  apply bind_done in H as [rt' [s8 [H8 H]]]. inversion H8; subst rt' s8. clear H8.
  apply bind_done in H as [cname [s8 [H8 H]]]. apply defined_done in H8 as [-> _].
  apply bind_done in H as [[] [s8 [H8 H]]]. inversion H8; subst s8. clear H8.
  apply bind_done in H as [rt [s9 [H9 H]]]. inversion H9; subst rt s9. clear H9.
  assert (F : frame s s7).
  { repeat (eapply frame_trans; [eassumption|]). apply frame_refl. }
  destruct F as [Fg [Ft Fp]].
  cbn [globals] in H.
  match type of H with
  | context [scan_stack ?a ?b ?c ?d ?e] =>
    destruct (scan_stack a b c d e) as [[v d'] out] eqn:E
  end.
  apply bind_done in H as [[] [s10 [H10 H]]].
  inversion H10; subst s10. inversion H; subst s'. clear H H10.
  cbn [threads globals printed]. rewrite Fg in E.
  match type of E with
  | scan_stack _ _ _ (stack_from ?th _) _ = _ => exists th
  end.
  exists cname.
  split; [reflexivity|]. split; [exact Fg|].
  split; [reflexivity|]. split; [reflexivity|].
  cbn [control_stack_end th_address interrupt_context]. rewrite E. cbn [fst snd].
  split; [rewrite Fp, <- app_assoc; reflexivity|].
  exists context. split; [exact Fc | reflexivity].
Qed.


(** ** The checks on the preamble *)

(** Parts of the reader that leave a scalar global as it is. *)
Definition keeps_var (g : global) {A} (m : M rstate A) : Prop :=
  forall s a s1, m s = Done (a, s1) -> var (globals s1) g = var (globals s) g.

Lemma keeps_bind g {A C} (m : M rstate A) (f : A -> M rstate C) :
  keeps_var g m -> (forall a, keeps_var g (f a)) -> keeps_var g (bind m f).
Proof.
  intros Hm Hf s c s2 H. apply bind_done in H as [a [s1 [H1 H2]]].
  rewrite (Hf a s1 c s2 H2). apply (Hm s a s1 H1).
Qed.

Lemma keeps_framed g {A} (m : M rstate A) :
  (forall s a s1, m s = Done (a, s1) -> frame s s1) -> keeps_var g m.
Proof. intros F s a s1 H. destruct (F s a s1 H) as [E _]. rewrite E. reflexivity. Qed.

Lemma keeps_ret g {A} (a : A) : keeps_var g (ret a : M rstate A).
Proof. intros s a' s1 H. inversion H. reflexivity. Qed.

Lemma keeps_lose g {A} why : keeps_var g (lose why : M rstate A).
Proof. intros s a s1 H. discriminate H. Qed.

Lemma keeps_undefined g {A} : keeps_var g (undefined : M rstate A).
Proof. intros s a s1 H. discriminate H. Qed.

Lemma keeps_get_globals g : keeps_var g get_globals.
Proof. intros s a s1 H. inversion H. reflexivity. Qed.

Lemma keeps_get_threads g : keeps_var g get_threads.
Proof. intros s a s1 H. inversion H. reflexivity. Qed.

Lemma keeps_get_input g : keeps_var g get_input.
Proof. intros s a s1 H. inversion H. reflexivity. Qed.

Lemma keeps_set_threads g ths : keeps_var g (set_threads ths).
Proof. intros s a s1 H. inversion H. reflexivity. Qed.

Lemma keeps_print g l : keeps_var g (print l).
Proof. intros s a s1 H. inversion H. reflexivity. Qed.

Lemma keeps_gc_assert g ex : keeps_var g (gc_assert ex).
Proof. destruct ex; [apply keeps_ret | apply keeps_lose]. Qed.

Lemma keeps_checked_read g n : keeps_var g (checked_read n).
Proof. apply keeps_framed. apply checked_read_frame. Qed.

Lemma keeps_read_into g dst off n : keeps_var g (read_into dst off n).
Proof. apply keeps_framed. apply read_into_frame. Qed.

Lemma keeps_modify_globals g f :
  (forall rt, var (f rt) g = var rt g) -> keeps_var g (modify_globals f).
Proof. intros F s a s1 H. inversion H. cbn [globals]. apply F. Qed.

Lemma keeps_if g {A} (c : bool) (m1 m2 : M rstate A) :
  keeps_var g m1 -> keeps_var g m2 -> keeps_var g (if c then m1 else m2).
Proof. destruct c; auto. Qed.

Lemma keeps_when g c (m : M rstate unit) : keeps_var g m -> keeps_var g (when c m).
Proof. intros H. destruct c; [exact H | apply keeps_ret]. Qed.

Lemma keeps_for_each g {A} (body : A -> M rstate unit) l :
  (forall a, keeps_var g (body a)) -> keeps_var g (for_each l body).
Proof.
  intros Hb. induction l as [|a l IH]; cbn [for_each].
  - apply keeps_ret.
  - apply keeps_bind; [apply Hb | intros _; exact IH].
Qed.

Lemma keeps_read_region g r n : keeps_var g (read_region r n).
Proof.
  unfold read_region. apply keeps_bind; [apply keeps_get_globals|]. intros rt.
  apply keeps_bind; [apply keeps_read_into|]. intros new.
  apply keeps_modify_globals. reflexivity.
Qed.

Lemma keeps_load_thread g B alloc_thread_struct malloc search preamble i :
  keeps_var g (load_thread B alloc_thread_struct malloc search preamble i).
Proof.
  intros s [] s1 H. apply load_thread_prints in H as [th [cname [_ [E _]]]].
  rewrite E. reflexivity.
Qed.

Create HintDb reader_keeps.
#[export] Hint Resolve keeps_ret keeps_lose keeps_undefined keeps_get_globals
  keeps_get_threads keeps_get_input keeps_set_threads keeps_print keeps_gc_assert
  keeps_checked_read keeps_read_into keeps_read_region keeps_load_thread
  : reader_keeps.

Ltac keeps_steps :=
  repeat match goal with
  | |- keeps_var _ (bind _ _) => apply keeps_bind; [ | intros ? ]
  | |- keeps_var _ (when _ _) => apply keeps_when
  | |- keeps_var _ (if _ then _ else _) => apply keeps_if
  | |- keeps_var _ (for_each _ _) => apply keeps_for_each; intros ?
  | |- keeps_var _ (modify_globals _) =>
    apply keeps_modify_globals; intros ?; reflexivity
  | |- keeps_var _ _ => solve [auto with reader_keeps]
  end.

Section PreambleChecks.
Variable B : build.
Variable os_validate : Z -> Z -> Z.
Variable alloc_thread_struct : Z -> thread.
Variable malloc : Z -> Z -> list byte.
Variable search_dynamic_space : runtime -> Z -> Z.

(** The preamble the reader sees in a file. *)
Definition preamble_of (file : list byte) : Preamble.t :=
  decode_preamble (firstn (Z.to_nat sizeof_crash_preamble) file).

Lemma load_records_adopts_nbits s s1 :
  load_records B os_validate alloc_thread_struct malloc search_dynamic_space s = Done (tt, s1) ->
  var (globals s1) gc_card_table_nbits
  = Preamble.card_table_nbits (preamble_of (input s)).
Proof.
  intros H. unfold load_records in H.
  apply bind_done in H as [bs [s' [H1 H]]].
  assert (Eb : bs = firstn (Z.to_nat sizeof_crash_preamble) (input s)).
  { unfold checked_read in H1.
    destruct (to_uword sizeof_crash_preamble <=? Z.of_nat (length (input s)));
      [|discriminate].
    inversion H1. reflexivity. }
  clear H1.
  apply bind_done in H as [[] [s2 [_ H]]].
  apply bind_done in H as [[] [s3 [_ H]]].
  apply bind_done in H as [[] [s4 [_ H]]].
  apply bind_done in H as [[] [s5 [H5 H]]].
  inversion H5; subst s5. clear H5.
  match type of H with
  | ?m _ = _ => assert (K : keeps_var gc_card_table_nbits m)
  end.
  { keeps_steps. }
  rewrite (K _ _ _ H). cbn. unfold preamble_of. rewrite Eb. reflexivity.
Qed.

End PreambleChecks.

(** C2, as the code has it: a file too short for a preamble makes the
    first read fail; a preamble whose signature is not
    [CRASH_PREAMBLE_SIGNATURE] is a "bad header"; one whose card size
    is not [GENCGC_CARD_BYTES] has "memory parameters" that "differ";
    in each case the process is terminated.  The width of the card
    table index is not compared with anything: the reader that returns
    has taken it from the file. *)
Theorem preamble_checks (B : build) (os_validate : Z -> Z -> Z)
  (alloc_thread_struct : Z -> thread)
  (malloc : Z -> Z -> list byte) (search_dynamic_space : runtime -> Z -> Z)
  (rt0 : runtime) (file : list byte) :
  let preamble := preamble_of file in
  let result := restore B os_validate alloc_thread_struct malloc search_dynamic_space rt0 file in
  (Z.of_nat (length file) < sizeof_crash_preamble -> result = Lose ReadFailed)
  /\ (sizeof_crash_preamble <= Z.of_nat (length file) ->
      Preamble.signature preamble <> to_uword CRASH_PREAMBLE_SIGNATURE ->
      result = Lose BadHeader)
  /\ (sizeof_crash_preamble <= Z.of_nat (length file) ->
      Preamble.signature preamble = to_uword CRASH_PREAMBLE_SIGNATURE ->
      Preamble.card_size preamble <> to_int (GENCGC_CARD_BYTES B) ->
      result = Lose MemoryParametersDiffer)
  /\ (forall s, result = Done s ->
      Preamble.signature preamble = to_uword CRASH_PREAMBLE_SIGNATURE
      /\ Preamble.card_size preamble = to_int (GENCGC_CARD_BYTES B)
      /\ var (globals s) gc_card_table_nbits = Preamble.card_table_nbits preamble).
Proof.
  cbv zeta. unfold sizeof_crash_preamble.
  assert (Short : Z.of_nat (length file) < 120 ->
    load_records B os_validate alloc_thread_struct malloc search_dynamic_space
      (start_state rt0 file) = Lose ReadFailed).
  { intros L. unfold load_records, bind, checked_read. cbn [input start_state].
    change (to_uword sizeof_crash_preamble) with 120.
    replace (120 <=? Z.of_nat (length file)) with false
      by (symmetry; apply Z.leb_gt; lia).
    reflexivity. }
  assert (Long : 120 <= Z.of_nat (length file) ->
    checked_read sizeof_crash_preamble (start_state rt0 file)
    = Done (firstn 120 file, with_input (skipn 120 file) (start_state rt0 file))).
  { intros L. unfold checked_read. cbn [input start_state].
    change (to_uword sizeof_crash_preamble) with 120.
    replace (120 <=? Z.of_nat (length file)) with true
      by (symmetry; apply Z.leb_le; lia).
    reflexivity. }
  split; [|split; [|split]].
  - intros L. rewrite restore_parts. unfold load_checked, bind.
    rewrite (Short L). reflexivity.
  - intros L Hs. rewrite restore_parts. unfold load_checked, load_records.
    unfold bind at 1 2. rewrite (Long L). unfold bind at 1. cbn [modify_globals].
    unfold bind at 1. unfold preamble_of in Hs.
    change (Z.to_nat sizeof_crash_preamble) with 120%nat in Hs.
    apply Z.eqb_neq in Hs. rewrite Hs. reflexivity.
  - intros L Hs Hc. rewrite restore_parts. unfold load_checked, load_records.
    unfold bind at 1 2. rewrite (Long L). unfold bind at 1. cbn [modify_globals].
    unfold bind at 1. unfold preamble_of in Hs, Hc.
    change (Z.to_nat sizeof_crash_preamble) with 120%nat in Hs, Hc.
    apply Z.eqb_eq in Hs. rewrite Hs. cbn [negb when ret].
    unfold bind at 1. apply Z.eqb_neq in Hc. rewrite Hc. reflexivity.
  - intros s H. rewrite restore_parts in H.
    destruct (load_checked B os_validate alloc_thread_struct malloc search_dynamic_space
                (start_state rt0 file)) as [[[] s2]| | |] eqn:E; try discriminate.
    destruct (input s2); [|discriminate]. inversion H; subst s. clear H.
    cbn [globals set_all_threads var].
    unfold load_checked in E. apply bind_done in E as [[] [s1 [E1 E2]]].
    assert (K : keeps_var gc_card_table_nbits read_trailer)
      by (unfold read_trailer; keeps_steps).
    rewrite (K _ _ _ E2).
    rewrite (load_records_adopts_nbits B _ _ _ _ _ _ E1). cbn [input start_state].
    split; [|split; [|reflexivity]].
    + destruct (Z.eq_dec (Preamble.signature (preamble_of file))
                  (to_uword CRASH_PREAMBLE_SIGNATURE)) as [Y|N]; [exact Y|].
      exfalso. destruct (Z_lt_le_dec (Z.of_nat (length file)) 120) as [L|L].
      * rewrite (Short L) in E1. discriminate.
      * unfold load_records in E1.
        unfold bind at 1 in E1. rewrite (Long L) in E1.
        unfold bind at 1 in E1. cbn [modify_globals] in E1.
        unfold bind at 1 in E1. unfold preamble_of in N.
        change (Z.to_nat sizeof_crash_preamble) with 120%nat in N.
        apply Z.eqb_neq in N. rewrite N in E1. discriminate.
    + destruct (Z.eq_dec (Preamble.card_size (preamble_of file))
                  (to_int (GENCGC_CARD_BYTES B))) as [Y|N]; [exact Y|].
      exfalso. destruct (Z_lt_le_dec (Z.of_nat (length file)) 120) as [L|L].
      * rewrite (Short L) in E1. discriminate.
      * unfold load_records in E1.
        unfold bind at 1 in E1. rewrite (Long L) in E1.
        unfold bind at 1 in E1. cbn [modify_globals] in E1.
        unfold bind at 1 in E1. unfold preamble_of in N.
        change (Z.to_nat sizeof_crash_preamble) with 120%nat in N.
        destruct (negb (Preamble.signature (decode_preamble (firstn 120 file))
                        =? to_uword CRASH_PREAMBLE_SIGNATURE)); [discriminate|].
        cbn [when ret] in E1. unfold bind at 1 in E1.
        apply Z.eqb_neq in N. rewrite N in E1. discriminate.
Qed.

(** ** Reading back the two headers *)


Lemma pad2_two l : exists a b, pad2 l = [a; b].
Proof.
  pose proof (length_pad2 l) as L.
  destruct (pad2 l) as [|a [|b [|c r]]]; try discriminate. eauto.
Qed.













(** ** Restoring what was captured *)


Lemma firstn_app_exact {A} (x y : list A) : firstn (length x) (x ++ y) = x.
Proof. rewrite firstn_app, Nat.sub_diag, firstn_all, firstn_O. apply app_nil_r. Qed.

Lemma skipn_app_exact {A} (x y : list A) : skipn (length x) (x ++ y) = y.
Proof. rewrite skipn_app, skipn_all, Nat.sub_diag. reflexivity. Qed.






Lemma to_uword_idem z : to_uword (to_uword z) = to_uword z.
Proof. unfold to_uword, wrap_unsigned. apply Z.mod_mod. lia. Qed.

(** ** Stores into byte lists *)

Lemma fits_spec mem off len :
  fits mem off len = true <-> 0 <= off /\ 0 <= len /\ off + len <= Z.of_nat (length mem).
Proof. unfold fits. rewrite !andb_true_iff, !Z.leb_le. tauto. Qed.


Lemma bytes_at_blit_after mem off src a n :
  fits mem off (Z.of_nat (length src)) = true ->
  off + Z.of_nat (length src) <= a ->
  bytes_at (blit mem off src) a n = bytes_at mem a n.
Proof.
  intros F Ha. apply fits_spec in F. unfold bytes_at. f_equal.
  replace (Z.to_nat a)
    with ((Z.to_nat a - (Z.to_nat off + length src))
          + (Z.to_nat off + length src))%nat by lia.
  rewrite <- (skipn_skipn _ (Z.to_nat off + length src) (blit mem off src)).
  rewrite <- (skipn_skipn _ (Z.to_nat off + length src) mem).
  rewrite skipn_blit. reflexivity.
Qed.





Lemma load_store_word mem off v :
  fits mem off N_WORD_BYTES = true ->
  load_word (store_word mem off v) off = to_uword v.
Proof.
  intros F. unfold load_word, store_word.
  change N_WORD_BYTES with (Z.of_nat (length (le_split 8 v))) at 1.
  rewrite bytes_at_blit_same by exact F.
  rewrite le_combine_split. reflexivity.
Qed.





Section RoundTrip.
Variable B : build.
Variable os_validate : Z -> Z -> Z.
Variable alloc_thread_struct : Z -> thread.
Variable malloc : Z -> Z -> list byte.
Variables self sp0 : Z.







End RoundTrip.

Section ThreadRun.
Variable B : build.
Variable alloc_thread_struct : Z -> thread.
Variable malloc : Z -> Z -> list byte.
Variable search_dynamic_space : runtime -> Z -> Z.
Variables self sp0 : Z.






End ThreadRun.

(** ** Reading back what was written *)

Section Restore.
Variable B : build.
Variable os_validate : Z -> Z -> Z.
Variable alloc_thread_struct : Z -> thread.
Variable malloc : Z -> Z -> list byte.
Variable search_dynamic_space : runtime -> Z -> Z.
Variables self sp0 : Z.












Ltac region_lengths :=
  cbn [mem var set_mem set_var gc_allocate_ptes gc_init_immobile region_eqb global_eqb];
  rewrite ?length_zeros, ?length_firstn.













End Restore.





(** The claim as the spec words it fails on the width of the card table
    index: the file says 4, the reading process had 8, and the reader
    returns with 4. *)
Lemma index_width_counterexample :
  exists s,
    var (fresh_runtime 8) gc_card_table_nbits = 8
    /\ Preamble.card_table_nbits (preamble_of example_file) = 4
    /\ restore example_build os_validate_as_asked fresh_thread fresh_block example_search
               (fresh_runtime 8) example_file = Done s
    /\ var (globals s) gc_card_table_nbits = 4.
Proof.
  eexists. split; [reflexivity|]. split; [vm_compute; reflexivity|].
  split; [vm_compute; reflexivity|]. reflexivity.
Qed.

(** * The monitor *)

(** ** The table of commands *)

Lemma strcmp_eq_true a : forall b, strcmp_eq a b = true <-> a = b.
Proof.
  induction a as [|x a IH]; intros [|y b]; cbn; split; intros H;
    try reflexivity; try discriminate.
  - apply andb_prop in H as [H1 H2]. apply Ascii.eqb_eq in H1.
    apply IH in H2. congruence.
  - injection H as -> ->. rewrite Ascii.eqb_refl. cbn. apply IH. reflexivity.
Qed.

Lemma strcmp_eq_eqb a b : strcmp_eq a b = String.eqb a b.
Proof.
  destruct (String.eqb a b) eqn:E.
  - apply String.eqb_eq in E. apply strcmp_eq_true. exact E.
  - apply String.eqb_neq in E. destruct (strcmp_eq a b) eqn:E'; [|reflexivity].
    apply strcmp_eq_true in E'. contradiction.
Qed.

(** [strncmp(a, b, strlen(a)) == 0] says that [a] begins [b]. *)
Lemma strncmp_eq_prefix a : forall b,
  strncmp_eq a b (String.length a) = String.prefix a b.
Proof.
  induction a as [|x a IH]; intros [|y b]; cbn; try reflexivity.
  rewrite IH. destruct (Ascii.ascii_dec x y) as [->|N].
  - rewrite Ascii.eqb_refl. reflexivity.
  - apply Ascii.eqb_neq in N. rewrite N. reflexivity.
Qed.

Definition named (token : String.string) (cmd : Cmd.t) : bool :=
  String.eqb token (Cmd.cmd cmd).
Definition begins (token : String.string) (cmd : Cmd.t) : bool :=
  String.prefix token (Cmd.cmd cmd).

Lemma find_cmd_named token cmds : forall found ambig c,
  find (named token) cmds = Some c ->
  find_cmd token cmds found ambig = (Some c, false).
Proof.
  induction cmds as [|a cmds IH]; intros found ambig c H; [discriminate|].
  cbn [find] in H. cbn [find_cmd]. unfold named in H at 1.
  rewrite strcmp_eq_eqb.
  destruct (String.eqb token (Cmd.cmd a)).
  - injection H as ->. reflexivity.
  - destruct (strncmp_eq token (Cmd.cmd a) (String.length token));
      [destruct found|]; apply IH; exact H.
Qed.

Lemma find_cmd_begun token cmds : forall found ambig,
  find (named token) cmds = None ->
  find_cmd token cmds found ambig
  = match found, filter (begins token) cmds with
    | found, [] => (found, ambig)
    | Some c, _ :: _ => (Some c, true)
    | None, c :: more => (Some c, match more with [] => ambig | _ => true end)
    end.
Proof.
  induction cmds as [|a cmds IH]; intros found ambig H.
  - cbn. destruct found; reflexivity.
  - cbn [find] in H. cbn [find_cmd filter]. unfold named in H at 1.
    rewrite strcmp_eq_eqb, strncmp_eq_prefix.
    change (String.prefix token (Cmd.cmd a)) with (begins token a).
    destruct (String.eqb token (Cmd.cmd a)); [discriminate|].
    destruct (begins token a).
    + destruct found as [c|]; rewrite (IH _ _ H).
      * destruct (filter (begins token) cmds); reflexivity.
      * destruct (filter (begins token) cmds); reflexivity.
    + apply IH; exact H.
Qed.

(** ** Reading lines *)

Lemma take_line_splits n : forall stream line rest,
  take_line n stream = (line, rest) ->
  stream = String.append line rest
  /\ (String.length line <= n)%nat
  /\ (n <> O -> stream <> String.EmptyString -> line <> String.EmptyString).
Proof.
  induction n as [|n IH]; intros stream line rest H.
  - cbn in H. destruct stream; injection H as <- <-; repeat split; auto; contradiction.
  - destruct stream as [|c stream]; cbn [take_line] in H.
    + injection H as <- <-. repeat split; auto with arith.
    + destruct (Ascii.eqb c NEWLINE).
      * injection H as <- <-. cbn. repeat split; auto with arith. discriminate.
      * destruct (take_line n stream) as [l r] eqn:E. injection H as <- <-.
        destruct (IH _ _ _ E) as [E1 [E2 _]]. cbn. rewrite <- E1.
        repeat split; auto with arith. discriminate.
Qed.

Lemma length_append a : forall b,
  String.length (String.append a b) = (String.length a + String.length b)%nat.
Proof. induction a as [|x a IH]; intros b; cbn; [|rewrite IH]; reflexivity. Qed.

Lemma first_char_c_str line : first_char (c_str line) = first_char line.
Proof.
  destruct line as [|c line]; [reflexivity|]. cbn [c_str first_char].
  destruct (Ascii.eqb c NUL) eqn:E; [|reflexivity].
  apply Ascii.eqb_eq in E. subst c. reflexivity.
Qed.

Lemma first_char_take_line n stream :
  first_char (fst (take_line (S n) stream)) = first_char stream.
Proof.
  destruct stream as [|c st]; [reflexivity|]. cbn [take_line].
  destruct (Ascii.eqb c NEWLINE); [reflexivity|].
  destruct (take_line n st). reflexivity.
Qed.

Section MonitorRuns.
Variable W : Type.
Variable parse_token : String.string -> option (String.string * String.string).
Variable reset_printer : W -> W.
Variable gc_active_p : W -> bool.
Variable crashdump_to : String.string -> W -> outcome W.
Variable other_cmd : Fn.t -> String.string -> W -> outcome (Z * W).

(** What is left of the input only shrinks. *)
Definition input_kept {A} (m : M (mstate W) A) : Prop :=
  forall (s : mstate W) a s', m s = Done (a, s') -> ldb_in s' = ldb_in s.

Lemma fgets_cases size (s : mstate W) :
  (ldb_in s = String.EmptyString /\ fgets size s = Done (None, s))
  \/ exists line rest,
       ldb_in s = String.append line rest
       /\ (String.length line <= size - 1)%nat
       /\ ((2 <= size)%nat ->
           line <> String.EmptyString /\ first_char line = first_char (ldb_in s))
       /\ fgets size s
          = Done (Some (c_str line),
                  {| ldb_in := rest; stdout := stdout s; stderr := stderr s;
                     world := world s |}).
Proof.
  unfold fgets. destruct (ldb_in s) as [|c st] eqn:E; [left; auto|right].
  destruct (take_line (size - 1) (String.String c st)) as [line rest] eqn:T.
  destruct (take_line_splits _ _ _ _ T) as [E1 [E2 E3]].
  exists line, rest. split; [exact E1|]. split; [exact E2|]. split; [|reflexivity].
  intros Hs. split.
  - apply E3; [lia | discriminate].
  - destruct (size - 1)%nat as [|n] eqn:En; [lia|].
    rewrite <- (first_char_take_line n (String.String c st)), T. reflexivity.
Qed.

Lemma help_cmd_lines cmds (s : mstate W) :
  exists lines,
    help_cmd cmds s
    = Done (0, {| ldb_in := ldb_in s; stdout := stdout s ++ lines;
                  stderr := stderr s; world := world s |})
    /\ length lines = length (filter (fun c => match Cmd.help c with
                                               | Some _ => true | None => false end) cmds).
Proof.
  unfold help_cmd. revert s. induction cmds as [|c cmds IH]; intros s.
  - exists []. cbn. rewrite app_nil_r. destruct s; auto.
  - cbn [for_each filter].
    destruct (Cmd.help c) as [h|].
    + destruct (IH (put (line_of (String.append (Cmd.cmd c) (String.String TAB h))) s))
        as [lines [E L]].
      exists (line_of (String.append (Cmd.cmd c) (String.String TAB h)) :: lines).
      split; [|cbn; rewrite L; reflexivity].
      unfold bind in *. unfold printf at 1.
      destruct (for_each cmds _ _) as [[[] s1]| | |]; try discriminate.
      cbn in E. injection E as ->. cbn. rewrite <- app_assoc. reflexivity.
    + destruct (IH s) as [lines [E L]]. exists lines. split; [|exact L].
      unfold bind in *. unfold ret at 1.
      destruct (for_each cmds _ _) as [[[] s1]| | |]; try discriminate.
      exact E.
Qed.

Lemma call_fn_input fn ptr (s : mstate W) done s' :
  call_fn parse_token crashdump_to other_cmd fn ptr s = Done (done, s') ->
  (String.length (ldb_in s') <= String.length (ldb_in s))%nat.
Proof.
  intros H.
  assert (O : forall f, in_world f s = Done (done, s') -> ldb_in s' = ldb_in s).
  { intros f. unfold in_world. destruct (f (world s)) as [[a w]| | |]; try discriminate.
    intros E. injection E as <- <-. reflexivity. }
  destruct fn; cbn [call_fn] in H; try (rewrite (O _ H); lia).
  - destruct (help_cmd_lines supported_cmds s) as [lines [E _]].
    rewrite E in H. injection H as <- <-. cbn. lia.
  - unfold exit_cmd, ret in H. injection H as <- <-. lia.
  - unfold quit_cmd, bind, printf in H.
    destruct (fgets_cases 10 (put "Really quit? [y] "%string s))
      as [[E0 E] | [line [rest [E1 [E2 [E3 E]]]]]]; rewrite E in H.
    + discriminate.
    + destruct (_ || _); [discriminate|]. injection H as <- <-.
      cbn in E1 |- *. rewrite E1, length_append. lia.
  - unfold save_cmd in H. destruct (parse_token ptr) as [[name rest]|].
    + unfold bind in H.
      destruct (in_world _ s) as [[[] s1]| | |] eqn:E; try discriminate.
      injection H as <- <-.
      unfold in_world in E. destruct (crashdump_to name (world s)); try discriminate.
      injection E as <-. cbn. lia.
    + unfold bind, eprintf, ret in H. injection H as <- <-. cbn. lia.
Qed.

Lemma ldb_loop_terminates fuel : forall s : mstate W,
  (String.length (ldb_in s) < fuel)%nat ->
  exists o, ldb_loop parse_token reset_printer crashdump_to other_cmd fuel s = Some o.
Proof.
  induction fuel as [|fuel IH]; intros s L; [lia|].
  cbn [ldb_loop]. unfold bind at 1. unfold printf at 1.
  destruct (fgets_cases 256 (put "ldb> "%string s))
    as [[E0 E] | [line [rest [E1 [E2 [E3 E]]]]]]; rewrite E.
  - eauto.
  - assert (Lr : (String.length rest < fuel)%nat).
    { cbn in E1. rewrite E1, length_append in L.
      assert (line <> String.EmptyString) by (apply E3; lia).
      destruct line; [contradiction|]. cbn in L. lia. }
    destruct (parse_token (c_str line)) as [[token ptr]|]; [|apply IH; exact Lr].
    destruct (find_cmd token supported_cmds None false) as [[found|] [|]];
      try (apply IH; exact Lr).
    unfold bind.
    match goal with |- context [in_world ?f ?st] =>
      assert (Ew : in_world f st
                   = Done (tt, {| ldb_in := rest; stdout := stdout s ++ ["ldb> "%string];
                                  stderr := stderr s;
                                  world := reset_printer (world s) |})) by reflexivity;
      rewrite Ew
    end.
    destruct (call_fn parse_token crashdump_to other_cmd (Cmd.fn found) ptr _)
      as [[done s2]| | |] eqn:C; eauto.
    destruct (done =? 0); eauto.
    apply IH. apply call_fn_input in C. cbn in C. lia.
Qed.

End MonitorRuns.

(** X1: a token that is the name of a command runs the first command
    of that name, whatever shorter or longer names it begins; the
    search ends there and nothing is ambiguous. *)
Theorem command_named_in_full (token : String.string) (cmds : list Cmd.t) (c : Cmd.t) :
  find (named token) cmds = Some c ->
  find_cmd token cmds None false = (Some c, false).
Proof. apply find_cmd_named. Qed.

Lemma command_named_in_full_witness :
  find_cmd "p"%string supported_cmds None false
  = (Some {| Cmd.cmd := "p"%string; Cmd.help := Some "(an alias for print)"%string;
             Cmd.fn := Fn.print_cmd |}, false).
Proof. apply (command_named_in_full "p"%string supported_cmds). reflexivity. Defined.

(** X2: a token that is the full name of no command is looked for at
    the start of the names: with none that it begins the command is
    unknown, with one that command is found, with several the token is
    ambiguous. *)
Theorem command_abbreviated (token : String.string) (cmds : list Cmd.t) :
  find (named token) cmds = None ->
  find_cmd token cmds None false
  = match filter (begins token) cmds with
    | [] => (None, false)
    | [c] => (Some c, false)
    | c :: _ => (Some c, true)
    end.
Proof.
  intros H. rewrite (find_cmd_begun token cmds None false H).
  destruct (filter (begins token) cmds) as [|c [|c' more]]; reflexivity.
Qed.

Lemma command_abbreviated_witness :
  find_cmd "s"%string supported_cmds None false
  = (Some {| Cmd.cmd := "search"%string; Cmd.help := Some "Search heap for object."%string;
             Cmd.fn := Fn.search_cmd |}, true).
Proof. apply (command_abbreviated "s"%string supported_cmds). reflexivity. Defined.

(** X3: every command of [supported_cmds] is run by its name typed in
    full; the names are distinct, and the one-letter aliases are found
    although other names begin with them. *)
Theorem supported_cmds_by_name (c : Cmd.t) :
  In c supported_cmds ->
  find_cmd (Cmd.cmd c) supported_cmds None false = (Some c, false).
Proof.
  intros H. apply find_cmd_named.
  repeat (destruct H as [<- | H]; [reflexivity|]). contradiction.
Qed.

Lemma supported_cmds_by_name_witness :
  find_cmd "d"%string supported_cmds None false
  = (Some {| Cmd.cmd := "d"%string; Cmd.help := Some "(an alias for dump)"%string;
             Cmd.fn := Fn.dump_cmd |}, false).
Proof.
  apply (supported_cmds_by_name
           {| Cmd.cmd := "d"%string; Cmd.help := Some "(an alias for dump)"%string;
              Cmd.fn := Fn.dump_cmd |}).
  cbn. tauto.
Defined.

(** X4: on an input that ends, the monitor ends: [length input + 1]
    rounds of its loop suffice; when the input is at its end the
    monitor does not return, the process exits with status 1. *)
Theorem ldb_monitor_ends (W : Type)
  (parse_token : String.string -> option (String.string * String.string))
  (reset_printer : W -> W) (gc_active_p : W -> bool)
  (crashdump_to : String.string -> W -> outcome W)
  (other_cmd : Fn.t -> String.string -> W -> outcome (Z * W))
  (s : mstate W) (fuel : nat) :
  (String.length (ldb_in s) < fuel)%nat ->
  exists o,
    ldb_monitor parse_token reset_printer gc_active_p crashdump_to other_cmd fuel s
    = Some o
    /\ (ldb_in s = String.EmptyString -> o = Exit1).
Proof.
  intros L. unfold ldb_monitor, bind, printf, when, ret.
  assert (E : exists s2 : mstate W,
            ldb_monitor parse_token reset_printer gc_active_p crashdump_to other_cmd
              fuel s
            = ldb_loop parse_token reset_printer crashdump_to other_cmd fuel s2
            /\ ldb_in s2 = ldb_in s).
  { unfold ldb_monitor, bind, printf, when, ret.
    destruct (gc_active_p (world s)); eexists; split; try reflexivity; reflexivity. }
  destruct E as [s2 [E I]]. unfold ldb_monitor, bind, printf, when, ret in E.
  rewrite E.
  destruct (ldb_loop_terminates W parse_token reset_printer crashdump_to other_cmd
              fuel s2) as [o Ho]; [rewrite I; exact L|].
  exists o. split; [exact Ho|].
  intros Hs. destruct fuel; [lia|]. cbn [ldb_loop] in Ho.
  unfold bind, printf, fgets in Ho. cbn [ldb_in put] in Ho. rewrite I, Hs in Ho.
  injection Ho as <-. reflexivity.
Qed.

Lemma ldb_monitor_ends_witness :
  exists o,
    example_monitor 12 example_input = Some o
    /\ (ldb_in (example_mstate example_input) = String.EmptyString -> o = Exit1).
Proof.
  apply (ldb_monitor_ends example_world example_parse_token (fun w => w)
           (fun _ => false) example_crashdump_to example_other_cmd
           (example_mstate example_input) 12).
  cbn. lia.
Defined.

Section MonitorRounds.
Variable W : Type.
Variable parse_token : String.string -> option (String.string * String.string).
Variable reset_printer : W -> W.
Variable crashdump_to : String.string -> W -> outcome W.
Variable other_cmd : Fn.t -> String.string -> W -> outcome (Z * W).

(** One round of the loop on a line that names a command. *)
Lemma ldb_loop_round fuel (s : mstate W) line rest token ptr c :
  ldb_in s <> String.EmptyString ->
  take_line 255 (ldb_in s) = (line, rest) ->
  parse_token (c_str line) = Some (token, ptr) ->
  find_cmd token supported_cmds None false = (Some c, false) ->
  ldb_loop parse_token reset_printer crashdump_to other_cmd (S fuel) s
  = match call_fn parse_token crashdump_to other_cmd (Cmd.fn c) ptr
            {| ldb_in := rest; stdout := stdout s ++ ["ldb> "%string];
               stderr := stderr s; world := reset_printer (world s) |} with
    | Done (done, s2) =>
      if done =? 0
      then ldb_loop parse_token reset_printer crashdump_to other_cmd fuel s2
      else Some (Done (tt, s2))
    | Lose why => Some (Lose why)
    | Exit1 => Some Exit1
    | Undefined => Some Undefined
    end.
Proof.
  intros Hs Ht Hp Hf. cbn [ldb_loop]. unfold bind at 1. unfold printf at 1, fgets.
  cbn [ldb_in put stdout stderr world].
  destruct (ldb_in s) as [|c0 st] eqn:E; [contradiction|].
  change (256 - 1)%nat with 255%nat. rewrite Ht, Hp, Hf. reflexivity.
Qed.

End MonitorRounds.

Definition says_yes (c : Ascii.ascii) : bool :=
  Ascii.eqb c "y" || Ascii.eqb c "Y" || Ascii.eqb c NEWLINE.

(** X5: [quit] ends the process with status 1 when the input is at its
    end or the reply begins with y, Y or a newline, and in no other
    case; any other reply makes it return 0 with the world as it was,
    having taken at most nine characters of the reply from the input,
    so that the rest of a longer reply is still to be read. *)
Theorem quit_cmd_answers (W : Type) (s : mstate W) :
  (quit_cmd s = Exit1
   <-> ldb_in s = String.EmptyString \/ says_yes (first_char (ldb_in s)) = true)
  /\ (forall done s', quit_cmd s = Done (done, s') ->
      done = 0 /\ world s' = world s
      /\ exists reply,
           ldb_in s = String.append reply (ldb_in s')
           /\ (1 <= String.length reply <= 9)%nat).
Proof.
  unfold quit_cmd, bind, printf.
  destruct (fgets_cases W 10 (put "Really quit? [y] "%string s))
    as [[E0 E] | [line [rest [E1 [E2 [E3 E]]]]]].
  - rewrite E. cbn in E0. unfold bind, printf.
    split; [split; auto|]. discriminate.
  - destruct (E3 ltac:(lia)) as [Hl Ef0].
    assert (Ef : first_char (c_str line) = first_char (ldb_in s)).
    { rewrite first_char_c_str. exact Ef0. }
    rewrite E. rewrite Ef. fold (says_yes (first_char (ldb_in s))).
    assert (Hn : ldb_in s <> String.EmptyString).
    { cbn in E1. rewrite E1. destruct line; [contradiction|]. discriminate. }
    destruct (says_yes (first_char (ldb_in s))).
    + split; [split; auto|]. discriminate.
    + split.
      * split; [discriminate|]. intros [H|H]; [contradiction|discriminate].
      * intros done s' H. unfold ret in H. injection H as <- <-.
        cbn. repeat split. exists line. cbn in E1. split; [exact E1|].
        split; [|lia]. destruct line; [contradiction|cbn; lia].
Qed.

(** X6: [save] with no file name after it ends the monitor as [exit]
    does: "Need filename" is printed, nothing is dumped, and
    [ldb_monitor] returns to its caller with the rest of the input
    unread. *)
Theorem save_without_name_ends_monitor (W : Type)
  (parse_token : String.string -> option (String.string * String.string))
  (reset_printer : W -> W)
  (crashdump_to : String.string -> W -> outcome W)
  (other_cmd : Fn.t -> String.string -> W -> outcome (Z * W))
  (fuel : nat) (s : mstate W) (line rest token ptr : String.string) :
  ldb_in s <> String.EmptyString ->
  take_line 255 (ldb_in s) = (line, rest) ->
  parse_token (c_str line) = Some (token, ptr) ->
  In token ["sa"; "sav"; "save"]%string ->
  parse_token ptr = None ->
  ldb_loop parse_token reset_printer crashdump_to other_cmd (S fuel) s
  = Some (Done (tt, {| ldb_in := rest;
                       stdout := stdout s ++ ["ldb> "%string];
                       stderr := stderr s ++ [line_of "Need filename"%string];
                       world := reset_printer (world s) |})).
Proof.
  intros Hs Ht Hp Hin Hn.
  assert (Hf : find_cmd token supported_cmds None false
               = (Some {| Cmd.cmd := "save"%string;
                          Cmd.help := Some "Produce crashdump"%string;
                          Cmd.fn := Fn.save_cmd |}, false)).
  { destruct Hin as [<-|[<-|[<-|[]]]]; reflexivity. }
  rewrite (ldb_loop_round W parse_token reset_printer crashdump_to other_cmd
             fuel s line rest token ptr _ Hs Ht Hp Hf).
  cbn [call_fn Cmd.fn]. unfold save_cmd. rewrite Hn. reflexivity.
Qed.

Lemma save_without_name_ends_monitor_witness :
  ldb_loop example_parse_token (fun w => w) example_crashdump_to example_other_cmd 1
           (example_mstate (String.append (line_of "save"%string) (line_of "help"%string)))
  = Some (Done (tt, {| ldb_in := line_of "help"%string;
                       stdout := ["ldb> "%string];
                       stderr := [line_of "Need filename"%string];
                       world := [] |})).
Proof.
  apply (save_without_name_ends_monitor example_world example_parse_token (fun w => w)
           example_crashdump_to example_other_cmd 0
           (example_mstate (String.append (line_of "save"%string) (line_of "help"%string)))
           (line_of "save"%string) (line_of "help"%string) "save"%string
           (String.String NEWLINE String.EmptyString)).
  - discriminate.
  - reflexivity.
  - reflexivity.
  - cbn. tauto.
  - reflexivity.
Defined.

(** X7: [exit], or any beginning of that word, makes [ldb_monitor]
    return to its caller; the world is as the command line left it and
    the rest of the input is unread. *)
Theorem exit_ends_monitor (W : Type)
  (parse_token : String.string -> option (String.string * String.string))
  (reset_printer : W -> W)
  (crashdump_to : String.string -> W -> outcome W)
  (other_cmd : Fn.t -> String.string -> W -> outcome (Z * W))
  (fuel : nat) (s : mstate W) (line rest token ptr : String.string) :
  ldb_in s <> String.EmptyString ->
  take_line 255 (ldb_in s) = (line, rest) ->
  parse_token (c_str line) = Some (token, ptr) ->
  In token ["e"; "ex"; "exi"; "exit"]%string ->
  ldb_loop parse_token reset_printer crashdump_to other_cmd (S fuel) s
  = Some (Done (tt, {| ldb_in := rest;
                       stdout := stdout s ++ ["ldb> "%string];
                       stderr := stderr s;
                       world := reset_printer (world s) |})).
Proof.
  intros Hs Ht Hp Hin.
  assert (Hf : find_cmd token supported_cmds None false
               = (Some {| Cmd.cmd := "exit"%string;
                          Cmd.help := Some "Exit this instance of the monitor."%string;
                          Cmd.fn := Fn.exit_cmd |}, false)).
  { destruct Hin as [<-|[<-|[<-|[<-|[]]]]]; reflexivity. }
  rewrite (ldb_loop_round W parse_token reset_printer crashdump_to other_cmd
             fuel s line rest token ptr _ Hs Ht Hp Hf).
  reflexivity.
Qed.

Lemma exit_ends_monitor_witness :
  ldb_loop example_parse_token (fun w => w) example_crashdump_to example_other_cmd 1
           (example_mstate (String.append (line_of "ex"%string) (line_of "help"%string)))
  = Some (Done (tt, {| ldb_in := line_of "help"%string;
                       stdout := ["ldb> "%string];
                       stderr := [];
                       world := [] |})).
Proof.
  apply (exit_ends_monitor example_world example_parse_token (fun w => w)
           example_crashdump_to example_other_cmd 0
           (example_mstate (String.append (line_of "ex"%string) (line_of "help"%string)))
           (line_of "ex"%string) (line_of "help"%string) "ex"%string
           (String.String NEWLINE String.EmptyString)).
  - discriminate.
  - reflexivity.
  - reflexivity.
  - cbn. tauto.
Defined.

(** ** The walk of the [dump] command *)

(** The addresses of the lines printed, in order. *)
Definition dump_addresses (out : list dump_output) : list Z :=
  flat_map (fun o => match o with
                     | InvalidAddress addr | DumpLine addr _ _ _ _ => [addr]
                     | _ => []
                     end) out.

(** The addresses of [count] words from [addr] on, upwards for a
    positive [count] and downwards for a negative one. *)
Definition walk (addr count : Z) : list Z :=
  map (fun i => to_uword (addr + Z.sgn count * N_WORD_BYTES * Z.of_nat i))
      (seq 0 (Z.abs_nat count)).

Definition dump_state_ok (st : Dump.state) : Prop :=
  0 <= Dump.lastaddr st < 2 ^ 64
  /\ - 2 ^ 31 <= Dump.lastcount st < 2 ^ 31
  /\ Dump.lastcount st <> 0.

Definition printable (c : Z) : Prop := 32 <= c <= 126.

Lemma to_uword_add_l x y : to_uword (to_uword x + y) = to_uword (x + y).
Proof. unfold to_uword, wrap_unsigned. apply Zplus_mod_idemp_l. Qed.

Lemma visible_printable c : printable (visible c).
Proof.
  unfold visible, printable.
  destruct (c <? 32) eqn:E1; destruct (126 <? c) eqn:E2; cbn [orb]; try lia.
Qed.


Section DumpRuns.
Variable B : build.
Variable more_p : String.string -> bool * String.string.
Variable parse_addr : String.string -> bool -> option (Z * String.string).
Variable parse_number : String.string -> option (Z * String.string).
Variable memory : Z -> option byte.
Variable gc_managed_addr_p : Z -> bool.
Variable gc_managed_heap_space_p : Z -> bool.
Variable gc_gen_of : Z -> Z -> Z.
Variable LOWTAG_MASK : Z.
Variable CONS_SIZE : Z.
Variable header_widetag : Z -> Z.
Variable other_immediate_lowtag_p : Z -> bool.
Variable is_header : Z -> bool.
Variable widetag_names : Z -> String.string.
Variable sizetab : Z -> Z -> option Z.

Let word_at :=
  dump_word B memory gc_managed_addr_p gc_managed_heap_space_p gc_gen_of CONS_SIZE
            header_widetag other_immediate_lowtag_p is_header widetag_names sizetab.
Let loop :=
  dump_loop B memory gc_managed_addr_p gc_managed_heap_space_p gc_gen_of CONS_SIZE
            header_widetag other_immediate_lowtag_p is_header widetag_names sizetab.
Let run :=
  dump_cmd B more_p parse_addr parse_number memory gc_managed_addr_p
           gc_managed_heap_space_p gc_gen_of LOWTAG_MASK CONS_SIZE header_widetag
           other_immediate_lowtag_p is_header widetag_names sizetab.
Let args := dump_args more_p parse_addr parse_number.

(** A line of the loop is one of the two kinds of lines for its address;
    a widetag is named only while decoding. *)
Definition line_at (addr : Z) (decode : bool) (o : dump_output) : Prop :=
  o = InvalidAddress addr
  \/ exists word chars gen name,
       o = DumpLine addr word chars gen name
       /\ length chars = 8%nat /\ Forall printable chars
       /\ (name <> None -> decode = true).

(** The word at an address can be dumped: it can be read if the dump
    reads it, and a size function called on it comes back. *)
Definition dumpable (force : bool) (addr : Z) : Prop :=
  (force || gc_managed_addr_p addr = true -> bytes_from memory addr 8 <> None)
  /\ forall widetag, sizetab widetag addr <> None.

Lemma length_bytes_from n : forall addr bytes,
  bytes_from memory addr n = Some bytes -> length bytes = n.
Proof.
  induction n as [|n IH]; intros addr bytes H; cbn [bytes_from] in H.
  - injection H as <-. reflexivity.
  - destruct (memory (to_uword addr)); [|discriminate].
    destruct (bytes_from memory (addr + 1) n) eqn:E; [|discriminate].
    injection H as <-. cbn [length]. f_equal. eapply IH. exact E.
Qed.

Lemma dump_word_line force aligned addr decode next line decode' next' :
  word_at force aligned addr decode next = Some (line, decode', next') ->
  line_at addr decode line /\ (decode' = true -> decode = true).
Proof.
  unfold word_at, dump_word. intros T.
  destruct (force || gc_managed_addr_p addr).
  - destruct (bytes_from memory addr 8) as [bytes|] eqn:Eb; [|discriminate].
    assert (L : length (map (fun c => visible (byte.unsigned c)) bytes) = 8%nat)
      by (rewrite length_map; eapply length_bytes_from; exact Eb).
    assert (P : Forall printable (map (fun c => visible (byte.unsigned c)) bytes)).
    { apply Forall_forall. intros c Hc. apply in_map_iff in Hc as [b [<- _]].
      apply visible_printable. }
    destruct decode.
    + cbn [andb] in T.
      repeat match type of T with
             | (if ?c then _ else _) = _ => destruct c
             | match ?o with Some _ => _ | None => _ end = _ => destruct o; [|discriminate]
             end;
        injection T as <- <- <-; (split; [right|auto]);
        do 4 eexists; (split; [reflexivity|]);
        (split; [exact L|]); (split; [exact P|auto]).
    + cbn [andb] in T. injection T as <- <- <-. split; [right|auto].
      do 4 eexists. split; [reflexivity|].
      split; [exact L|]. split; [exact P|]. intros N; contradiction.
  - injection T as <- <- <-. split; [left; reflexivity|auto].
Qed.

Lemma dump_word_dumpable force aligned addr decode next :
  dumpable force addr ->
  word_at force aligned addr decode next <> None.
Proof.
  intros [Hr Hs]. unfold word_at, dump_word.
  destruct (force || gc_managed_addr_p addr); [|discriminate].
  destruct (bytes_from memory addr 8) as [bytes|]; [|exfalso; apply Hr; reflexivity].
  destruct (decode && (addr =? next)) eqn:D; [|discriminate].
  apply andb_prop in D as [_ D]. apply Z.eqb_eq in D. subst next.
  repeat match goal with
         | |- (if ?c then _ else _) <> None => destruct c
         end; try discriminate.
  destruct (sizetab _ addr) eqn:E; [discriminate|]. exfalso. eapply Hs. exact E.
Qed.

Lemma dump_loop_lines count : forall force aligned d addr decode next lines last,
  loop count force aligned d addr decode next = (lines, last) ->
  0 <= addr < 2 ^ 64 ->
  Forall (fun o => exists a, line_at a decode o) lines
  /\ (forall a, last = Some a ->
      a = to_uword (addr + d * Z.of_nat count)
      /\ dump_addresses lines
         = map (fun i => to_uword (addr + d * Z.of_nat i)) (seq 0 count)).
Proof.
  induction count as [|count IH]; intros force aligned d addr decode next lines last H Ha.
  - cbn in H. injection H as <- <-. split; [constructor|].
    intros a E. injection E as <-. cbn. rewrite Z.mul_0_r, Z.add_0_r.
    rewrite to_uword_small by lia. auto.
  - unfold loop in H. cbn [dump_loop] in H. fold loop in H. fold word_at in H.
    destruct (word_at force aligned addr decode next) as [[[line decode'] next']|] eqn:T.
    2:{ injection H as <- <-. split; [constructor|]. intros a E. discriminate. }
    destruct (loop count force aligned d (to_uword (addr + d)) decode' next')
      as [lines' last'] eqn:L.
    injection H as <- <-.
    destruct (dump_word_line _ _ _ _ _ _ _ _ T) as [Hl Hd].
    destruct (IH _ _ _ _ _ _ _ _ L (to_uword_range _)) as [F A].
    split.
    + constructor; [exists addr; exact Hl|].
      eapply Forall_impl; [|exact F]. intros o [a Ho]. exists a.
      destruct Ho as [Ho | [w [c [g [n [Ho [H1 [H2 H3]]]]]]]]; [left; exact Ho|right].
      exists w, c, g, n. repeat split; auto.
    + intros a E. destruct (A a E) as [E1 E2]. split.
      * rewrite E1, to_uword_add_l. f_equal. lia.
      * cbn [seq map]. rewrite Z.mul_0_r, Z.add_0_r, to_uword_small by lia.
        replace (dump_addresses (line :: lines')) with (addr :: dump_addresses lines').
        2:{ unfold dump_addresses. cbn [flat_map].
            destruct Hl as [-> | [w [c [g [n [-> _]]]]]]; reflexivity. }
        rewrite E2. f_equal. rewrite <- seq_shift, map_map.
        apply map_ext. intros i. rewrite to_uword_add_l. f_equal. lia.
Qed.

Lemma dump_loop_completes count : forall force aligned d addr decode next,
  0 <= addr < 2 ^ 64 ->
  (forall i, (i < count)%nat -> dumpable force (to_uword (addr + d * Z.of_nat i))) ->
  snd (loop count force aligned d addr decode next) <> None.
Proof.
  induction count as [|count IH]; intros force aligned d addr decode next Ha Hd.
  - cbn. discriminate.
  - unfold loop. cbn [dump_loop]. fold loop. fold word_at.
    assert (D0 : dumpable force addr).
    { specialize (Hd 0%nat ltac:(lia)). rewrite Z.mul_0_r, Z.add_0_r in Hd.
      rewrite to_uword_small in Hd by lia. exact Hd. }
    destruct (word_at force aligned addr decode next) as [[[line decode'] next']|] eqn:T.
    2:{ exfalso. revert T. apply dump_word_dumpable. exact D0. }
    specialize (IH force aligned d (to_uword (addr + d)) decode' next' (to_uword_range _)).
    destruct (loop count force aligned d (to_uword (addr + d)) decode' next')
      as [lines' last'].
    cbn [snd] in *. apply IH. intros i Hi.
    rewrite to_uword_add_l.
    replace (addr + d + d * Z.of_nat i) with (addr + d * Z.of_nat (S i)) by lia.
    apply Hd. lia.
Qed.

Lemma dump_args_ok ptr st force decode addr count :
  dump_state_ok st ->
  args ptr st = Some (force, decode, addr, count) ->
  0 <= addr < 2 ^ 64 /\ - 2 ^ 31 <= count < 2 ^ 31.
Proof.
  intros [Ha [Hc _]] H. unfold args, dump_args in H.
  destruct (more_p ptr) as [[|] ptr1].
  - destruct (dump_flags ptr1 false false) as [[f d] p].
    destruct (parse_addr p (negb f)) as [[a p']|]; [|discriminate].
    destruct (more_p p') as [[|] p1].
    + destruct (parse_number p1) as [[c p'']|]; [|discriminate].
      injection H as <- <- <- <-. split; [apply to_uword_range | apply to_int_range].
    + injection H as <- <- <- <-. split; [apply to_uword_range | exact Hc].
  - injection H as <- <- <- <-. split; assumption.
Qed.


(** The run of the command once its arguments are known. *)
Lemma dump_cmd_run ptr st force decode addr count :
  args ptr st = Some (force, decode, addr, count) ->
  0 <= addr < 2 ^ 64 -> - 2 ^ 31 < count < 2 ^ 31 -> count <> 0 ->
  Forall (fun o => o = CanOnlyDecode
                   \/ exists a, line_at a (decode && (0 <? count)
                                           && (Z.land addr LOWTAG_MASK =? 0)) o)
         (snd (run ptr st))
  /\ (forall r, fst (run ptr st) = Done r ->
      r = (0, {| Dump.lastaddr := to_uword (addr + N_WORD_BYTES * count);
                 Dump.lastcount := count |})
      /\ dump_addresses (snd (run ptr st)) = walk addr count)
  /\ ((forall a, In a (walk addr count) -> dumpable force a) ->
      exists r, fst (run ptr st) = Done r)
  /\ (forall r, fst (run ptr st) <> Lose r) /\ fst (run ptr st) <> Exit1.
Proof.
  intros H Ha Hc Hz. unfold run, dump_cmd. fold args. rewrite H.
  replace (count =? 0) with false by (symmetry; apply Z.eqb_neq; exact Hz).
  set (d := if 0 <? count then N_WORD_BYTES else - N_WORD_BYTES).
  set (times := if 0 <? count then count else to_int (- count)).
  set (aligned := Z.land addr LOWTAG_MASK =? 0).
  set (refused := decode && (negb aligned || (d <? 0))).
  assert (Ed : d = Z.sgn count * N_WORD_BYTES).
  { unfold d, N_WORD_BYTES. destruct (0 <? count) eqn:E.
    - apply Z.ltb_lt in E. rewrite Z.sgn_pos by lia. reflexivity.
    - apply Z.ltb_ge in E. rewrite Z.sgn_neg by lia. reflexivity. }
  assert (Et : Z.to_nat times = Z.abs_nat count).
  { unfold times. destruct (0 <? count) eqn:E.
    - apply Z.ltb_lt in E. lia.
    - apply Z.ltb_ge in E. rewrite to_int_small by lia. lia. }
  assert (Ex : decode && negb refused
               = decode && (0 <? count) && (Z.land addr LOWTAG_MASK =? 0)).
  { unfold refused, d, N_WORD_BYTES. fold aligned.
    destruct decode, aligned, (0 <? count); reflexivity. }
  fold (loop (Z.to_nat times) force aligned d addr (decode && negb refused)
             (if decode && negb refused then addr else 0)).
  pose proof (dump_loop_completes (Z.to_nat times) force aligned d addr
                (decode && negb refused)
                (if decode && negb refused then addr else 0) Ha) as C.
  destruct (loop (Z.to_nat times) force aligned d addr (decode && negb refused)
                 (if decode && negb refused then addr else 0)) as [lines last] eqn:L.
  destruct (dump_loop_lines _ _ _ _ _ _ _ _ _ L Ha) as [F A].
  cbn [fst snd] in *.
  split; [|split; [|split; [|split]]].
  - apply Forall_app. split; [destruct refused; repeat constructor|].
    rewrite Ex in F. eapply Forall_impl; [|exact F]. intros o Ho. right. exact Ho.
  - intros r E. destruct last as [a|]; [|discriminate]. injection E as <-.
    destruct (A a eq_refl) as [-> A2]. split.
    + do 3 f_equal. rewrite Ed, Et.
      replace (Z.of_nat (Z.abs_nat count)) with (Z.abs count) by lia.
      replace (Z.sgn count * N_WORD_BYTES * Z.abs count)
        with (N_WORD_BYTES * (Z.sgn count * Z.abs count)) by lia.
      replace (Z.sgn count * Z.abs count) with count by (destruct count; cbn; lia).
      reflexivity.
    + unfold dump_addresses in *. rewrite flat_map_app.
      replace (flat_map _ (if refused then [CanOnlyDecode] else [])) with (@nil Z)
        by (destruct refused; reflexivity).
      cbn [app]. rewrite A2, Et, Ed. reflexivity.
  - intros Hd. destruct last as [a|]; [eexists; reflexivity|].
    exfalso. apply C; [|reflexivity]. intros i Hi. apply Hd.
    unfold walk. apply in_map_iff. exists i. split.
    + rewrite Ed. reflexivity.
    + apply in_seq. lia.
  - intros r. destruct last; discriminate.
  - destruct last; discriminate.
Qed.

(** The least [int] as count: no line. *)
Lemma dump_cmd_run_least ptr st force decode addr :
  args ptr st = Some (force, decode, addr, - 2 ^ 31) ->
  exists out,
    run ptr st = (Done (0, {| Dump.lastaddr := addr; Dump.lastcount := - 2 ^ 31 |}), out)
    /\ (out = [] \/ out = [CanOnlyDecode]).
Proof.
  intros H. unfold run, dump_cmd. fold args. rewrite H.
  change (- 2 ^ 31 =? 0) with false. change (0 <? - 2 ^ 31) with false. cbv iota.
  change (Z.to_nat (to_int (- - 2 ^ 31))) with 0%nat. cbn [dump_loop].
  eexists. split; [reflexivity|].
  destruct (decode && _); [right|left]; reflexivity.
Qed.



(** X9: the two static variables stay an address and a count other
    than 0, so that [dump] without arguments never answers "COUNT must
    be non-zero": that is printed only for a count of 0 given on the
    line, and then the command returns with the variables left as they
    were. *)
Theorem dump_cmd_keeps_state ptr st :
  dump_state_ok st ->
  (forall result st', fst (run ptr st) = Done (result, st') ->
   result = 0 /\ dump_state_ok st')
  /\ (In CountMustBeNonZero (snd (run ptr st)) ->
      fst (more_p ptr) = true /\ run ptr st = (Done (0, st), [CountMustBeNonZero])).
Proof.
  intros Hok. destruct (args ptr st) as [[[[force decode] addr] count]|] eqn:H.
  - destruct (dump_args_ok _ _ _ _ _ _ Hok H) as [Ha Hc].
    destruct (Z.eq_dec count 0) as [-> | Hz].
    + unfold run, dump_cmd. fold args. rewrite H. cbn.
      split; [intros r st' E; injection E as <- <-; split; [reflexivity|exact Hok]|].
      intros _. split; [|reflexivity]. unfold args, dump_args in H.
      destruct (more_p ptr) as [[|] ptr1]; [reflexivity|].
      injection H as _ _ _ H0. destruct Hok as [_ [_ N]]. contradiction.
    + destruct (Z.eq_dec count (- 2 ^ 31)) as [-> | Hm].
      * destruct (dump_cmd_run_least _ _ _ _ _ H) as [out [E O]]. rewrite E.
        cbn [fst snd]. split.
        { intros r st' E'. injection E' as <- <-. split; [reflexivity|].
          unfold dump_state_ok. cbn. lia. }
        destruct O as [-> | ->]; [intros []|intros [N|[]]; discriminate].
      * destruct (dump_cmd_run ptr st force decode addr count H Ha ltac:(lia) Hz)
          as [F [R _]].
        split.
        { intros r st' E. destruct (R _ E) as [E' _]. injection E' as -> ->.
          split; [reflexivity|].
          unfold dump_state_ok. cbn. split; [apply to_uword_range|]. lia. }
        intros Hin. exfalso. rewrite Forall_forall in F.
        destruct (F _ Hin) as [N | [a [N | [w [c [g [n [N _]]]]]]]]; discriminate.
  - unfold run, dump_cmd. fold args. rewrite H. cbn [fst snd].
    split; [intros r st' E; injection E as <- <-; split; [reflexivity|exact Hok]|].
    intros [].
Qed.


(** X11: every line for a word shows eight printable characters, and a
    widetag is named only on a dump asked to decode that starts at an
    aligned address and steps forward. *)
Theorem dump_cmd_lines ptr st addr word chars gen name :
  dump_state_ok st ->
  In (DumpLine addr word chars gen name) (snd (run ptr st)) ->
  length chars = 8%nat
  /\ Forall printable chars
  /\ (name <> None ->
      exists force start count,
        args ptr st = Some (force, true, start, count)
        /\ 0 < count /\ Z.land start LOWTAG_MASK = 0).
Proof.
  intros Hok Hin.
  destruct (args ptr st) as [[[[force decode] start] count]|] eqn:H.
  - destruct (dump_args_ok _ _ _ _ _ _ Hok H) as [Ha Hc].
    destruct (Z.eq_dec count 0) as [-> | Hz].
    { unfold run, dump_cmd in Hin. fold args in Hin. rewrite H in Hin. cbn in Hin.
      destruct Hin as [N|[]]. discriminate. }
    destruct (Z.eq_dec count (- 2 ^ 31)) as [-> | Hm].
    { destruct (dump_cmd_run_least _ _ _ _ _ H) as [out [E O]]. rewrite E in Hin.
      cbn [snd] in Hin.
      destruct O as [-> | ->]; [contradiction|destruct Hin as [N|[]]; discriminate]. }
    destruct (dump_cmd_run ptr st force decode start count H Ha ltac:(lia) Hz)
      as [F _].
    rewrite Forall_forall in F.
    destruct (F _ Hin) as [N | [a [N | [w [c [g [n [N [H1 [H2 H3]]]]]]]]]];
      try discriminate.
    injection N as -> -> -> -> ->. split; [exact H1|]. split; [exact H2|].
    intros Hn. specialize (H3 Hn).
    apply andb_prop in H3 as [H3 H5]. apply andb_prop in H3 as [H3 H4]. subst decode.
    exists force, start, count. split; [reflexivity|].
    split; [apply Z.ltb_lt; exact H4 | apply Z.eqb_eq; exact H5].
  - unfold run, dump_cmd in Hin. fold args in Hin. rewrite H in Hin. contradiction.
Qed.

End DumpRuns.

Lemma dump_initial_ok : dump_state_ok dump_initial.
Proof. unfold dump_state_ok, dump_initial. cbn. lia. Qed.


Lemma dump_cmd_keeps_state_witness :
  (forall result st',
     fst (example_dump_cmd "x"%string dump_initial) = Done (result, st') ->
     result = 0 /\ dump_state_ok st')
  /\ (In CountMustBeNonZero (snd (example_dump_cmd "x"%string dump_initial)) ->
      fst (example_more_p "x"%string) = true
      /\ example_dump_cmd "x"%string dump_initial
         = (Done (0, dump_initial), [CountMustBeNonZero])).
Proof.
  unfold example_dump_cmd.
  exact (dump_cmd_keeps_state example_build example_more_p example_parse_addr
           example_parse_number example_memory example_managed (fun _ => true)
           (fun _ default => default) 15 2 (fun word => Z.land word 255)
           (fun _ => true) (fun _ => false) (fun _ => "widetag"%string)
           (fun _ _ => Some 2)
           "x"%string dump_initial dump_initial_ok).
Defined.


Lemma dump_cmd_lines_witness :
  length (repeat 65 8) = 8%nat
  /\ Forall printable (repeat 65 8)
  /\ (Some "widetag"%string <> None ->
      exists force start count,
        dump_args example_more_p example_parse_addr example_parse_number
                  "-d x"%string dump_initial
        = Some (force, true, start, count)
        /\ 0 < count /\ Z.land start 15 = 0).
Proof.
  apply (dump_cmd_lines example_build example_more_p example_parse_addr
           example_parse_number example_memory example_managed (fun _ => true)
           (fun _ default => default) 15 2 (fun word => Z.land word 255)
           (fun _ => true) (fun _ => false) (fun _ => "widetag"%string)
           (fun _ _ => Some 2)
           "-d x"%string dump_initial 0x1000 0x4141414141414141 (repeat 65 8) None
           (Some "widetag"%string) dump_initial_ok).
  vm_compute. left. reflexivity.
Defined.

(** A forced dump that comes to memory that cannot be read does not
    return: of the twenty words from 0x1000 the first sixteen are
    printed. *)
Example dump_forced_beyond_memory :
  fst (example_dump_cmd "-f x"%string dump_initial) = Undefined
  /\ dump_addresses (snd (example_dump_cmd "-f x"%string dump_initial))
     = walk 0x1000 16
  /\ fst (example_dump_cmd "x"%string dump_initial)
     = Done (0, {| Dump.lastaddr := 0x10a0; Dump.lastcount := 20 |}).
Proof. vm_compute. auto. Qed.

(** * More on the dump file and its reader *)

(** ** More on the stack scan *)

Section ScanLines.
Variable B : build.
Variable search_dynamic_space : runtime -> Z -> Z.

(** A line for a word that the scan took for a pointer and found no
    object for. *)
Definition dangling_line (rt : runtime) (stack : list byte) (from bound : Z)
  (r : report) : Prop :=
  exists wordindex word,
    r = NotFound wordindex word
    /\ from <= wordindex < bound
    /\ word = load_word stack (wordindex * N_WORD_BYTES)
    /\ scan_candidate B rt word = true
    /\ search_dynamic_space rt word = 0.

Lemma scan_loop_lines rt stack count : forall from v d,
  0 <= from -> 0 <= d ->
  from + Z.of_nat count < 2 ^ 31 ->
  d + Z.of_nat count < 2 ^ 31 ->
  let '(_, d', out) := scan_loop B search_dynamic_space rt stack count from v d in
  d' = d + Z.of_nat (length out)
  /\ Z.of_nat (length out) <= Z.of_nat count
  /\ Forall (dangling_line rt stack from (from + Z.of_nat count)) out.
Proof.
  induction count as [|count IH]; intros from v d Hf Hd Bf Bd.
  - cbn. repeat split; try lia. constructor.
  - cbn [scan_loop].
    set (word := load_word stack (from * N_WORD_BYTES)).
    assert (Ef : to_int (from + 1) = from + 1) by (apply to_int_small; lia).
    assert (Ed : to_int (d + 1) = d + 1) by (apply to_int_small; lia).
    rewrite Ef, Ed.
    assert (W : forall out,
      Forall (dangling_line rt stack (from + 1) (from + 1 + Z.of_nat count)) out ->
      Forall (dangling_line rt stack from (from + Z.of_nat (S count))) out).
    { intros out F. eapply Forall_impl; [|exact F].
      intros r [i [w [E [R X]]]]. exists i, w. split; [exact E|]. split; [lia|exact X]. }
    destruct (scan_candidate B rt word) eqn:C.
    + destruct (negb (search_dynamic_space rt word =? 0)) eqn:R.
      * specialize (IH (from + 1) (to_int (v + 1)) d ltac:(lia) ltac:(lia) ltac:(lia)
                       ltac:(lia)).
        destruct (scan_loop B search_dynamic_space rt stack count (from + 1)
                            (to_int (v + 1)) d) as [[v' d'] out].
        destruct IH as [I1 [I2 I3]]. repeat split; try lia. apply W. exact I3.
      * specialize (IH (from + 1) v (d + 1) ltac:(lia) ltac:(lia) ltac:(lia) ltac:(lia)).
        destruct (scan_loop B search_dynamic_space rt stack count (from + 1) v (d + 1))
          as [[v' d'] out].
        destruct IH as [I1 [I2 I3]]. cbn [length]. repeat split; try lia.
        constructor; [|apply W; exact I3].
        exists from, word. repeat split; try lia; try assumption.
    + specialize (IH (from + 1) v d ltac:(lia) ltac:(lia) ltac:(lia) ltac:(lia)).
      destruct (scan_loop B search_dynamic_space rt stack count (from + 1) v d)
        as [[v' d'] out].
      destruct IH as [I1 [I2 I3]]. repeat split; try lia. apply W. exact I3.
Qed.

End ScanLines.

(** X12: the scan prints one "not found" line for each dangling word and
    for nothing else: the number of lines is the dangling count of the
    summary, and each line gives the index and the value of a word of
    the stack that passed the pointer test and for which
    [search_dynamic_space] found no object. *)
Theorem scan_reports_each_dangling_word (B : build)
  (search_dynamic_space : runtime -> Z -> Z) (rt : runtime) (stack : list byte)
  (control_stack_nbytes : Z) :
  let nwords := to_int (Z.shiftr control_stack_nbytes WORD_SHIFT) in
  let '(_, n_dangling, out) :=
    scan_stack B search_dynamic_space rt stack control_stack_nbytes in
  n_dangling = Z.of_nat (length out)
  /\ Forall (dangling_line B search_dynamic_space rt stack 0 nwords) out.
Proof.
  cbv zeta. unfold scan_stack.
  set (nwords := to_int (Z.shiftr control_stack_nbytes WORD_SHIFT)).
  pose proof (to_int_range (Z.shiftr control_stack_nbytes WORD_SHIFT)) as R.
  fold nwords in R.
  pose proof (scan_loop_lines B search_dynamic_space rt stack (Z.to_nat nwords) 0 0 0
                ltac:(lia) ltac:(lia) ltac:(lia) ltac:(lia)) as H.
  destruct (scan_loop B search_dynamic_space rt stack (Z.to_nat nwords) 0 0 0)
    as [[v d] out].
  destruct H as [H1 [H2 H3]]. split; [lia|].
  eapply Forall_impl; [|exact H3].
  intros r [i [w [E [Ri X]]]]. exists i, w. split; [exact E|]. split; [lia|exact X].
Qed.

(** ** What a reader that returns has met on its way *)

(** What must hold for a part of the reader to return. *)
Definition needs (P : Prop) {A} (m : M rstate A) : Prop :=
  forall s a s1, m s = Done (a, s1) -> P.

Lemma needs_now P {A C} (m : M rstate A) (f : A -> M rstate C) :
  needs P m -> needs P (bind m f).
Proof. intros Hm s c s2 H. apply bind_done in H as [a [s1 [H1 _]]]. eauto. Qed.

Lemma needs_later P {A C} (m : M rstate A) (f : A -> M rstate C) :
  (forall a, needs P (f a)) -> needs P (bind m f).
Proof. intros Hf s c s2 H. apply bind_done in H as [a [s1 [_ H2]]]. eapply Hf; eauto. Qed.

Lemma needs_when_lose c why : needs (c = false) (when c (lose why) : M rstate unit).
Proof. intros s a s1 H. destruct c; [discriminate|reflexivity]. Qed.

Lemma needs_when_undefined c : needs (c = false) (when c undefined : M rstate unit).
Proof. intros s a s1 H. destruct c; [discriminate|reflexivity]. Qed.

Lemma needs_gc_assert ex : needs (ex = true) (gc_assert ex).
Proof. intros s a s1 H. destruct ex; [reflexivity|discriminate]. Qed.

Ltac needs_search :=
  cbv zeta;
  first [ apply needs_now;
          solve [apply needs_when_lose | apply needs_gc_assert | apply needs_when_undefined]
        | apply needs_later; intros ?; needs_search ].

(** Parts of the reader that leave the list of threads as it is. *)
Definition keeps_threads {A} (m : M rstate A) : Prop :=
  forall s a s1, m s = Done (a, s1) -> threads s1 = threads s.

Lemma keeps_threads_bind {A C} (m : M rstate A) (f : A -> M rstate C) :
  keeps_threads m -> (forall a, keeps_threads (f a)) -> keeps_threads (bind m f).
Proof.
  intros Hm Hf s c s2 H. apply bind_done in H as [a [s1 [H1 H2]]].
  rewrite (Hf a s1 c s2 H2). apply (Hm s a s1 H1).
Qed.

Lemma keeps_threads_framed {A} (m : M rstate A) :
  (forall s a s1, m s = Done (a, s1) -> frame s s1) -> keeps_threads m.
Proof. intros F s a s1 H. destruct (F s a s1 H) as [_ [E _]]. exact E. Qed.

Lemma keeps_threads_modify f : keeps_threads (modify_globals f).
Proof. intros s a s1 H. inversion H. reflexivity. Qed.

Lemma keeps_threads_get_globals : keeps_threads get_globals.
Proof. intros s a s1 H. inversion H. reflexivity. Qed.

Lemma keeps_threads_when_lose c why : keeps_threads (when c (lose why) : M rstate unit).
Proof. intros s a s1 H. destruct c; [discriminate|]. inversion H. reflexivity. Qed.

Lemma keeps_threads_gc_assert ex : keeps_threads (gc_assert ex).
Proof. intros s a s1 H. destruct ex; [|discriminate]. inversion H. reflexivity. Qed.

Lemma keeps_threads_read_region r n : keeps_threads (read_region r n).
Proof.
  unfold read_region. apply keeps_threads_bind; [apply keeps_threads_get_globals|].
  intros rt. apply keeps_threads_bind.
  - apply keeps_threads_framed. apply read_into_frame.
  - intros new. apply keeps_threads_modify.
Qed.

Section Accepted.
Variable B : build.
Variable os_validate : Z -> Z -> Z.
Variable alloc_thread_struct : Z -> thread.
Variable malloc : Z -> Z -> list byte.
Variable search_dynamic_space : runtime -> Z -> Z.

Lemma length_relinked th ths : length (relinked B th ths) = length ths.
Proof. destruct ths; reflexivity. Qed.

Lemma load_thread_index preamble i s s' :
  load_thread B alloc_thread_struct malloc search_dynamic_space preamble i s = Done (tt, s') ->
  length (threads s') = S (length (threads s)).
Proof.
  intros H. apply load_thread_prints in H as [th [cname [E _]]]. rewrite E.
  cbn [length]. rewrite length_relinked. reflexivity.
Qed.

Lemma load_threads_count preamble l : forall s s',
  for_each l (load_thread B alloc_thread_struct malloc search_dynamic_space preamble) s
  = Done (tt, s') ->
  length (threads s') = (length (threads s) + length l)%nat.
Proof.
  induction l as [|i l IH]; intros s s' H.
  - cbn in H. inversion H. cbn [length]. lia.
  - cbn [for_each] in H. apply bind_done in H as [[] [s1 [H1 H2]]].
    apply load_thread_index in H1. apply IH in H2. cbn [length]. lia.
Qed.

Lemma load_records_first s s1 :
  load_records B os_validate alloc_thread_struct malloc search_dynamic_space s = Done (tt, s1) ->
  firstn (Z.to_nat sizeof_crash_preamble) (input s)
  = fst (match checked_read sizeof_crash_preamble s with
         | Done r => r | _ => ([], s) end).
Proof.
  intros H. unfold load_records in H. apply bind_done in H as [bs [s' [H1 _]]].
  rewrite H1. cbn [fst]. unfold checked_read in H1.
  destruct (to_uword sizeof_crash_preamble <=? Z.of_nat (length (input s)));
    [|discriminate].
  inversion H1. reflexivity.
Qed.

Definition threads_grow (n : nat) {A} (m : M rstate A) : Prop :=
  forall s a s1, m s = Done (a, s1) ->
    length (threads s1) = (length (threads s) + n)%nat.

Lemma threads_grow_bind n {A C} (m : M rstate A) (f : A -> M rstate C) :
  keeps_threads m -> (forall a, threads_grow n (f a)) ->
  threads_grow n (bind m f).
Proof.
  intros Hm Hf s c s2 H. apply bind_done in H as [a [s1 [H1 H2]]].
  rewrite <- (Hm s a s1 H1). eapply Hf; eauto.
Qed.

(** The reader past the preamble: the threads it links are as many as
    the preamble says, and the spaces were mapped and sized as the
    file has them. *)
Lemma load_records_accepts s s1 :
  load_records B os_validate alloc_thread_struct malloc search_dynamic_space s = Done (tt, s1) ->
  let p := preamble_of (input s) in
  let n := Z.to_nat (to_int (Preamble.nthreads p)) in
  length (threads s1) = (length (threads s) + n)%nat
  /\ os_validate (Preamble.dynspace_start p) (DEFAULT_DYNAMIC_SPACE_SIZE B)
     = Preamble.dynspace_start p
  /\ Preamble.fixedobj_size p = to_uword (FIXEDOBJ_SPACE_SIZE B)
  /\ Preamble.varyobj_size p = to_uword (VARYOBJ_SPACE_SIZE B).
Proof.
  intros H. cbv zeta. unfold load_records in H.
  apply bind_done in H as [bs [s' [H1 H]]].
  assert (Eb : bs = firstn (Z.to_nat sizeof_crash_preamble) (input s)).
  { unfold checked_read in H1.
    destruct (to_uword sizeof_crash_preamble <=? Z.of_nat (length (input s)));
      [|discriminate].
    inversion H1. reflexivity. }
  apply checked_read_frame in H1. destruct H1 as [_ [Et _]].
  unfold preamble_of. rewrite <- Eb, <- Et. clear Eb Et. cbv zeta in H.
  set (p := decode_preamble bs) in *.
  match type of H with
  | ?m _ = _ =>
    assert (G : threads_grow (Z.to_nat (to_int (Preamble.nthreads p))) m);
    [| assert (N1 : needs (negb (os_validate (Preamble.dynspace_start p)
                                   (DEFAULT_DYNAMIC_SPACE_SIZE B)
                                 =? Preamble.dynspace_start p) = false) m);
       [| assert (N2 : needs ((Preamble.fixedobj_size p
                               =? to_uword (FIXEDOBJ_SPACE_SIZE B)) = true) m);
          [| assert (N3 : needs ((Preamble.varyobj_size p
                                  =? to_uword (VARYOBJ_SPACE_SIZE B)) = true) m) ] ] ]
  end.
  - repeat (apply threads_grow_bind;
            [ first [ apply keeps_threads_modify | apply keeps_threads_when_lose
                    | apply keeps_threads_read_region | apply keeps_threads_gc_assert
                    | apply keeps_threads_get_globals ]
            | intros ?; cbv zeta ]).
    intros s0 u s2 H0. destruct u.
    apply load_threads_count in H0. rewrite H0. unfold upto.
    rewrite length_map, length_seq. reflexivity.
  - needs_search.
  - needs_search.
  - needs_search.
  - pose proof (G _ _ _ H) as G1.
    apply (N1 _ _ _) in H as N1'. apply (N2 _ _ _) in H as N2'.
    apply (N3 _ _ _) in H as N3'.
    apply negb_false_iff in N1'. apply Z.eqb_eq in N1', N2', N3'.
    repeat split; assumption.
Qed.

End Accepted.


(** ** The scan of the restored stacks *)


(** A restore that returns after reporting dangling words: on the
    stack of the first thread one candidate resolves and one does not,
    on the stack of the second the only candidate does not.  The first
    thread is called "main", the second has no string for a name. *)
Example restore_reports_dangling :
  exists s,
    restore example_build os_validate_as_asked fresh_thread fresh_block example_search
            (fresh_runtime 8) example_file = Done s
    /\ printed s
       = [ThreadLine 0x7e0000000000 0x7f0000001000 2 3
            (Some [Byte.x6d; Byte.x61; Byte.x69; Byte.x6e]);
          NotFound 1 0x1000000020; ValidPointers 1 1;
          ThreadLine 0x7e0000010000 0x7f0000011000 1 2 None;
          NotFound 0 0x1000001007; ValidPointers 0 1]
    /\ length (threads s) = 2%nat.
Proof.
  eexists. split; [vm_compute; reflexivity|]. split; reflexivity.
Qed.

(** ** Fields of the preamble that the reader does not look at *)

Lemma bytes_at_middle (a x y c : list byte) off len :
  length x = length y -> 0 <= off -> 0 <= len ->
  off + len <= Z.of_nat (length a) \/ Z.of_nat (length a + length x) <= off ->
  bytes_at (a ++ x ++ c) off len = bytes_at (a ++ y ++ c) off len.
Proof.
  intros L Ho Hl [H | H]; unfold bytes_at.
  - rewrite !skipn_app.
    rewrite !firstn_app. f_equal. rewrite !length_skipn.
    replace (Z.to_nat len - (length a - Z.to_nat off))%nat with O by lia.
    reflexivity.
  - rewrite !app_assoc. rewrite !(skipn_app _ (_ ++ _)).
    rewrite (skipn_all2 (a ++ x)) by (rewrite length_app; lia).
    rewrite (skipn_all2 (a ++ y)) by (rewrite length_app; lia).
    rewrite !length_app, L. reflexivity.
Qed.

Section Unchecked.
Variable B : build.
Variable os_validate : Z -> Z -> Z.
Variable alloc_thread_struct : Z -> thread.
Variable malloc : Z -> Z -> list byte.
Variable search_dynamic_space : runtime -> Z -> Z.

Lemma load_records_static_start (sig start start' rest : list byte) g t p :
  length sig = 8%nat -> length start = 8%nat -> length start' = 8%nat ->
  load_records B os_validate alloc_thread_struct malloc search_dynamic_space
    (Build_rstate (sig ++ start ++ rest) g t p)
  = load_records B os_validate alloc_thread_struct malloc search_dynamic_space
      (Build_rstate (sig ++ start' ++ rest) g t p).
Proof.
  intros Ls L L'. unfold load_records.
  match goal with |- bind _ ?k _ = _ => set (K := k) end.
  unfold bind, checked_read. cbn [input].
  change (to_uword sizeof_crash_preamble) with 120.
  rewrite !length_app, Ls, L, L'.
  destruct (120 <=? Z.of_nat (8 + (8 + length rest))) eqn:E; [|reflexivity].
  apply Z.leb_le in E.
  assert (Ef : forall x, length x = 8%nat ->
            firstn (Z.to_nat 120) (sig ++ x ++ rest) = sig ++ x ++ firstn 104 rest).
  { intros x Lx. rewrite !firstn_app, Ls, Lx.
    rewrite (firstn_all2 sig) by lia. rewrite (firstn_all2 x) by lia. reflexivity. }
  assert (Es : forall x, length x = 8%nat ->
            skipn (Z.to_nat 120) (sig ++ x ++ rest) = skipn 104 rest).
  { intros x Lx. rewrite !skipn_app, Ls, Lx.
    rewrite (skipn_all2 sig) by lia. rewrite (skipn_all2 x) by lia. reflexivity. }
  rewrite (Ef start L), (Ef start' L'). unfold with_input.
  cbn [input globals threads printed]. rewrite (Es start L), (Es start' L').
  set (bs := sig ++ start ++ firstn 104 rest).
  set (bs' := sig ++ start' ++ firstn 104 rest).
  assert (F : forall off len, 0 <= off -> 0 <= len -> off + len <= 8 \/ 16 <= off ->
            bytes_at bs off len = bytes_at bs' off len).
  { intros off len Ho Hl Hc. apply bytes_at_middle; [lia..|]. rewrite Ls, L. lia. }
  subst K. cbv beta zeta. unfold load_thread, replay_tls. unfold decode_preamble.
  cbn [Preamble.signature Preamble.static_nbytes Preamble.dynspace_start
       Preamble.dynspace_npages Preamble.card_size Preamble.card_table_nbits
       Preamble.fixedobj_start Preamble.fixedobj_size Preamble.fixedobj_free_pointer
       Preamble.varyobj_start Preamble.varyobj_size Preamble.varyobj_free_pointer
       Preamble.nthreads Preamble.tls_size Preamble.lisp_package_vector
       Preamble.sprof_enabled Preamble.pin_dynspace_code Preamble.padding
       Preamble.sizeof_context Preamble.static_start].
  unfold field_signed, field_unsigned.
  rewrite !(F 0 8), !(F 16 8), !(F 24 8), !(F 32 8), !(F 40 4), !(F 44 4), !(F 48 8),
    !(F 56 8), !(F 64 8), !(F 72 8), !(F 80 8), !(F 88 8), !(F 96 4), !(F 100 4),
    !(F 104 8), !(F 112 1), !(F 116 4) by lia.
  reflexivity.
Qed.

End Unchecked.

(** X14: the reader never looks at the [static_start] field of the
    preamble: whatever address the writer had its static space at, the
    restore ends the same way, with the static space loaded at the
    reader's own [STATIC_SPACE_START]. *)
Theorem static_start_is_not_checked (B : build) (os_validate : Z -> Z -> Z)
  (alloc_thread_struct : Z -> thread)
  (malloc : Z -> Z -> list byte) (search_dynamic_space : runtime -> Z -> Z)
  (rt0 : runtime) (signature static_start static_start' rest : list byte) :
  length signature = 8%nat -> length static_start = 8%nat ->
  length static_start' = 8%nat ->
  restore B os_validate alloc_thread_struct malloc search_dynamic_space rt0
          (signature ++ static_start ++ rest)
  = restore B os_validate alloc_thread_struct malloc search_dynamic_space rt0
            (signature ++ static_start' ++ rest).
Proof.
  intros Ls L L'. unfold restore, load_gc_crashdump.
  match goal with |- context [bind _ ?k _] => set (K := k) end.
  unfold bind.
  rewrite (load_records_static_start B os_validate alloc_thread_struct malloc
             search_dynamic_space signature static_start static_start' rest
             rt0 [] [] Ls L L').
  reflexivity.
Qed.

(** ** The threads of a restored process *)

Lemma fixnum_one (B : build) :
  0 <= N_FIXNUM_TAG_BITS B <= 62 ->
  to_int (fixnum_value B (to_uword (make_fixnum B 1))) = 1.
Proof.
  intros H. unfold fixnum_value, make_fixnum. rewrite to_uword_idem.
  rewrite Z.shiftl_1_l.
  assert (P : 0 < 2 ^ N_FIXNUM_TAG_BITS B <= 2 ^ 62).
  { split; [apply Z.pow_pos_nonneg; lia | apply Z.pow_le_mono_r; lia]. }
  rewrite to_uword_small by lia. rewrite to_long_small by lia.
  rewrite Z.shiftr_div_pow2 by lia. rewrite Z.div_same by lia. reflexivity.
Qed.

(** Parts of the reader that link only threads with a property. *)
Definition links (P : thread -> Prop) {A} (m : M rstate A) : Prop :=
  forall s a s1, m s = Done (a, s1) ->
    Forall P (threads s) -> Forall P (threads s1).

Lemma links_bind P {A C} (m : M rstate A) (f : A -> M rstate C) :
  links P m -> (forall a, links P (f a)) -> links P (bind m f).
Proof.
  intros Hm Hf s c s2 H F. apply bind_done in H as [a [s1 [H1 H2]]].
  eapply Hf; eauto.
Qed.

Lemma links_keeps P {A} (m : M rstate A) : keeps_threads m -> links P m.
Proof. intros K s a s1 H F. rewrite (K _ _ _ H). exact F. Qed.

Lemma links_for_each P {A} (body : A -> M rstate unit) l :
  (forall a, links P (body a)) -> links P (for_each l body).
Proof.
  intros Hb. induction l as [|a l IH]; cbn [for_each].
  - intros s u s1 H F. inversion H; subst. exact F.
  - apply links_bind; [apply Hb | intros _; exact IH].
Qed.

Section Recapture.
Variable B : build.
Variable os_validate : Z -> Z -> Z.
Variable alloc_thread_struct : Z -> thread.
Variable malloc : Z -> Z -> list byte.
Variable search_dynamic_space : runtime -> Z -> Z.
Hypothesis tag_bits : 0 <= N_FIXNUM_TAG_BITS B <= 62.
Hypothesis prev_before_slot :
  offsetof_prev B + N_WORD_BYTES <= FREE_INTERRUPT_CONTEXT_INDEX B.

(** A thread as the reader leaves it: stopped in one interrupt
    context. *)
Definition stopped_in_handler (th : thread) : Prop :=
  interrupt_context_count B th = 1.

(** The store of [threads->prev = th] is below the slot of the count. *)
Lemma set_prev_stopped p head :
  fits (tls head) (offsetof_prev B) N_WORD_BYTES = true ->
  stopped_in_handler head -> stopped_in_handler (set_prev B p head).
Proof.
  intros Fh. unfold stopped_in_handler, interrupt_context_count, read_TLS.
  cbn [set_prev tls]. unfold load_word, store_word.
  rewrite bytes_at_blit_after; [tauto | rewrite length_le_split; exact Fh
                                | rewrite length_le_split; exact prev_before_slot].
Qed.

Lemma load_thread_stopped preamble i :
  links stopped_in_handler
        (load_thread B alloc_thread_struct malloc search_dynamic_space preamble i).
Proof.
  intros s [] s' H F. unfold load_thread in H.
  apply bind_done in H as [ths [s0 [H0 H]]]. inversion H0; subst ths s0. clear H0.
  apply bind_done in H as [[] [s0 [H0 H]]]. apply when_undefined_done in H0. subst s0.
  apply bind_done in H as [[] [s0 [H0 H]]]. apply when_undefined_done in H0. subst s0.
  apply bind_done in H as [older [s0 [H0 H]]].
  apply link_before_done in H0 as [-> [-> Fh]].
  apply bind_done in H as [bs [s1 [H1 H]]]. apply checked_read_frame in H1.
  apply bind_done in H as [context [s3 [H3 H]]].
  apply bind_done in H as [[] [s4 [H4 H]]]. apply when_undefined_done in H4. subst s4.
  apply bind_done in H as [stack [s5 [H5 H]]].
  apply bind_done in H as [bstack [s6 [H6 H]]].
  apply bind_done in H as [block [s7 [H7 H]]].
  apply bind_done in H as [[] [s8 [H8 H]]].
  assert (Fb : fits block (FREE_INTERRUPT_CONTEXT_INDEX B) N_WORD_BYTES = true).
  { destruct (fits block (FREE_INTERRUPT_CONTEXT_INDEX B) N_WORD_BYTES);
      [reflexivity|discriminate]. }
  apply when_undefined_done in H8. subst s8.
  apply bind_done in H as [[] [s8 [H8 H]]]. apply when_undefined_done in H8. subst s8.
  apply bind_done in H as [rt' [s8 [H8 H]]]. inversion H8; subst rt' s8. clear H8.
  apply bind_done in H as [cname [s8 [H8 H]]]. apply defined_done in H8 as [-> _].
  apply bind_done in H as [[] [s8 [H8 H]]]. inversion H8; subst s8. clear H8.
  apply bind_done in H as [rt [s9 [H9 H]]]. inversion H9; subst rt s9. clear H9.
  match type of H with
  | context [scan_stack ?a ?b ?c ?d ?e] =>
    destruct (scan_stack a b c d e) as [[v d'] out]
  end.
  apply bind_done in H as [[] [s10 [H10 H]]].
  inversion H10; subst s10. inversion H; subst s'. clear H H10.
  cbn [threads]. constructor.
  - unfold stopped_in_handler, interrupt_context_count, read_TLS. cbn [tls].
    rewrite load_store_word by exact Fb. apply fixnum_one. exact tag_bits.
  - destruct (threads s) as [|head rest]; [constructor|]. cbn [relinked].
    inversion F; subst. constructor; [|assumption].
    apply set_prev_stopped; assumption.
Qed.

Lemma load_gc_crashdump_stopped :
  links stopped_in_handler
        (load_gc_crashdump B os_validate alloc_thread_struct malloc search_dynamic_space).
Proof.
  unfold load_gc_crashdump, load_records, read_trailer, at_eof.
  repeat match goal with
  | |- links _ (for_each _ _) =>
    apply links_for_each; intros ?; apply load_thread_stopped
  | |- links _ (bind _ _) => apply links_bind; [|intros ?; cbv zeta]
  | |- links _ _ =>
    apply links_keeps;
    first [ apply keeps_threads_modify | apply keeps_threads_when_lose
          | apply keeps_threads_read_region | apply keeps_threads_gc_assert
          | apply keeps_threads_get_globals
          | apply keeps_threads_framed; apply checked_read_frame
          | intros ? ? ? E; inversion E; reflexivity ]
  end.
Qed.

End Recapture.

(** Parts of the writer that do not end in [_exit(1)]. *)
Definition no_exit {A} (m : M wstate A) : Prop := forall w, m w <> Exit1.

Lemma no_exit_bind {A C} (m : M wstate A) (f : A -> M wstate C) :
  no_exit m -> (forall a, no_exit (f a)) -> no_exit (bind m f).
Proof.
  intros Hm Hf w. unfold bind. specialize (Hm w).
  destruct (m w) as [[a w']| | |]; try discriminate; [apply Hf | contradiction].
Qed.

Lemma no_exit_ret {A} (a : A) : no_exit (ret a).
Proof. intros w. discriminate. Qed.

Lemma no_exit_sys_write io buf count : no_exit (sys_write io buf count).
Proof.
  intros w. destruct (sys_write_returns io buf count w) as [r [w' E]]. rewrite E.
  discriminate.
Qed.

Lemma no_exit_checked_write io buf nbytes : no_exit (checked_write io buf nbytes).
Proof.
  intros w. destruct (checked_write_cases io buf nbytes w) as [[w' E] | E];
    rewrite E; discriminate.
Qed.

Lemma no_exit_for_each {A} (body : A -> M wstate unit) l :
  (forall a, In a l -> no_exit (body a)) -> no_exit (for_each l body).
Proof.
  induction l as [|a l IH]; intros Hb; cbn [for_each].
  - apply no_exit_ret.
  - apply no_exit_bind; [apply Hb; left; reflexivity|].
    intros _. apply IH. intros x Hx. apply Hb. right. exact Hx.
Qed.

Lemma no_exit_save_thread B io self sp nbytes_tls th :
  interrupt_context_count B th = 1 ->
  no_exit (save_thread B io self sp nbytes_tls th).
Proof.
  intros H. unfold save_thread, crash_stackptr. rewrite H. cbn [Z.eqb negb].
  cbv zeta.
  repeat match goal with
  | |- no_exit (bind _ _) => apply no_exit_bind; [|intros ?]
  | |- no_exit (checked_write _ _ _) => apply no_exit_checked_write
  | |- no_exit (sys_write _ _ _) => apply no_exit_sys_write
  | |- no_exit (ret _) => apply no_exit_ret
  end.
Qed.

Lemma no_exit_save_gc_crashdump B io self padding rt sp :
  Forall (fun th => interrupt_context_count B th = 1) (all_threads rt) ->
  no_exit (save_gc_crashdump B io self padding rt sp).
Proof.
  intros F. unfold save_gc_crashdump. cbv zeta.
  repeat match goal with
  | |- no_exit (bind _ _) => apply no_exit_bind; [|intros ?]
  | |- no_exit (checked_write _ _ _) => apply no_exit_checked_write
  | |- no_exit (for_each _ _) => apply no_exit_for_each; intros th Hin
  end.
  apply no_exit_save_thread. rewrite Forall_forall in F. apply F. exact Hin.
Qed.

(** X15: every thread of a restored process is stopped in one interrupt
    context (the reader has set the free interrupt context index of
    each to 1 and given each a context), so the writer run on the
    restored process finds a stack pointer for every thread and never
    ends in "No stackptr for crash dump". *)
Theorem restored_process_can_be_dumped (B : build) (os_validate : Z -> Z -> Z)
  (alloc_thread_struct : Z -> thread)
  (malloc : Z -> Z -> list byte) (search_dynamic_space : runtime -> Z -> Z)
  (rt0 : runtime) (file : list byte) (s : rstate) :
  0 <= N_FIXNUM_TAG_BITS B <= 62 ->
  offsetof_prev B + N_WORD_BYTES <= FREE_INTERRUPT_CONTEXT_INDEX B ->
  restore B os_validate alloc_thread_struct malloc search_dynamic_space rt0 file = Done s ->
  Forall (fun th => interrupt_context_count B th = 1) (all_threads (globals s))
  /\ forall io self padding sp,
       capture B io self padding (globals s) sp <> Exit1.
Proof.
  intros Hb Hl H.
  assert (F : Forall (fun th => interrupt_context_count B th = 1)
                     (all_threads (globals s))).
  { unfold restore in H.
    destruct (load_gc_crashdump B os_validate alloc_thread_struct malloc search_dynamic_space _)
      as [[[] s1]| | |] eqn:E; try discriminate.
    injection H as <-.
    pose proof (load_gc_crashdump_stopped B os_validate alloc_thread_struct malloc
                  search_dynamic_space Hb Hl _ _ _ E (Forall_nil _)) as F.
    unfold load_gc_crashdump in E.
    apply bind_done in E as [[] [s2 [_ E]]]. apply bind_done in E as [[] [s3 [_ E]]].
    apply bind_done in E as [[] [s4 [_ E]]]. apply bind_done in E as [ths [s5 [E1 E]]].
    inversion E1; subst ths s5. inversion E; subst s1.
    cbn [globals all_threads set_all_threads threads] in *. exact F. }
  split; [exact F|]. intros io self padding sp. unfold capture.
  pose proof (no_exit_save_gc_crashdump B io self padding (globals s) sp F []) as N.
  destruct (save_gc_crashdump B io self padding (globals s) sp []) as [[[] w]| | |];
    try discriminate. contradiction.
Qed.

(** X16: a restore that returns has mapped the dynamic space at the
    address the preamble names, and has found the sizes of the two
    immobile spaces in the preamble equal to its own. *)
Theorem restore_needs_mapping (B : build) (os_validate : Z -> Z -> Z)
  (alloc_thread_struct : Z -> thread)
  (malloc : Z -> Z -> list byte) (search_dynamic_space : runtime -> Z -> Z)
  (rt0 : runtime) (file : list byte) (s : rstate) :
  restore B os_validate alloc_thread_struct malloc search_dynamic_space rt0 file = Done s ->
  os_validate (Preamble.dynspace_start (preamble_of file)) (DEFAULT_DYNAMIC_SPACE_SIZE B)
  = Preamble.dynspace_start (preamble_of file)
  /\ Preamble.fixedobj_size (preamble_of file) = to_uword (FIXEDOBJ_SPACE_SIZE B)
  /\ Preamble.varyobj_size (preamble_of file) = to_uword (VARYOBJ_SPACE_SIZE B).
Proof.
  intros H. rewrite restore_parts in H. unfold load_checked in H.
  destruct (bind _ _ (start_state rt0 file)) as [[[] s2]| | |] eqn:E; try discriminate.
  apply bind_done in E as [[] [s1 [E1 _]]].
  apply load_records_accepts in E1. cbv zeta in E1.
  destruct E1 as [_ R]. exact R.
Qed.

(** ** The size of the dump file *)

Section FileSize.
Variable B : build.





End FileSize.


(** ** The padding of the preamble *)

Lemma pad2_pad2 l : pad2 (pad2 l) = pad2 l.
Proof.
  destruct (pad2_two l) as [a [b E]]. rewrite E. reflexivity.
Qed.

Lemma skipn_pad2 l (rest : list byte) : skipn 2 (pad2 l ++ rest) = rest.
Proof.
  destruct (pad2_two l) as [a [b E]]. rewrite E. reflexivity.
Qed.

(** The image of a preamble around its two bytes of padding. *)
Lemma encode_preamble_padding (B : build) (rt : runtime) (padding : list byte) :
  exists head,
    length head = 114%nat
    /\ forall padding,
         encode_preamble (crash_preamble_of B rt padding)
         = head ++ pad2 padding ++ le_split 4 (to_int (sizeof_os_context B)).
Proof.
  eexists. split; [|intros pad; unfold encode_preamble, crash_preamble_of;
                    cbn [Preamble.signature Preamble.static_start Preamble.static_nbytes
                         Preamble.dynspace_start Preamble.dynspace_npages
                         Preamble.card_size Preamble.card_table_nbits
                         Preamble.fixedobj_start Preamble.fixedobj_size
                         Preamble.fixedobj_free_pointer Preamble.varyobj_start
                         Preamble.varyobj_size Preamble.varyobj_free_pointer
                         Preamble.nthreads Preamble.tls_size
                         Preamble.lisp_package_vector Preamble.sprof_enabled
                         Preamble.pin_dynspace_code Preamble.padding
                         Preamble.sizeof_context];
                    rewrite pad2_pad2; rewrite !app_assoc; reflexivity].
  rewrite !length_app, !length_le_split. reflexivity.
Qed.

(** X18: the two bytes of the file at offsets 114 and 115 are the padding
    of the writer's local [preamble], which the writer never assigns:
    they hold what its stack held there, and two dumps of one process
    are the same file but for these two bytes. *)
Theorem dump_file_padding (B : build) (self sp0 : Z) (padding padding' : list byte)
  (rt : runtime) :
  capturable B self sp0 rt = true ->
  exists w w',
    capture B io_full self padding rt sp0 = Done w
    /\ capture B io_full self padding' rt sp0 = Done w'
    /\ forall old,
         bytes_at (file_contents old w) 114 2 = pad2 padding
         /\ firstn 114 (file_contents old w) = firstn 114 (file_contents old w')
         /\ skipn 116 (file_contents old w) = skipn 116 (file_contents old w').
Proof.
  intros H. exists (dump_pieces B self sp0 padding rt), (dump_pieces B self sp0 padding' rt).
  split; [apply capture_full; exact H|]. split; [apply capture_full; exact H|].
  destruct (encode_preamble_padding B rt padding) as [head [Lh E]].
  intros old.
  unfold file_contents, dump_pieces, header_pieces. cbn [app concat].
  rewrite !E, <- !app_assoc. rewrite !length_app, !length_pad2.
  split; [|split].
  - apply bytes_at_app_exact; [rewrite Lh; reflexivity | rewrite length_pad2; reflexivity].
  - rewrite <- Lh. rewrite !firstn_app_exact. reflexivity.
  - change 116%nat with (2 + 114)%nat. rewrite <- !skipn_skipn.
    rewrite <- Lh. rewrite !skipn_app_exact, !skipn_pad2. reflexivity.
Qed.

(** ** Runs on the example process *)


Lemma restore_needs_mapping_witness :
  os_validate_as_asked (Preamble.dynspace_start (preamble_of example_file))
                       (DEFAULT_DYNAMIC_SPACE_SIZE example_build)
  = Preamble.dynspace_start (preamble_of example_file)
  /\ Preamble.fixedobj_size (preamble_of example_file)
     = to_uword (FIXEDOBJ_SPACE_SIZE example_build)
  /\ Preamble.varyobj_size (preamble_of example_file)
     = to_uword (VARYOBJ_SPACE_SIZE example_build).
Proof.
  apply (restore_needs_mapping example_build os_validate_as_asked fresh_thread fresh_block
           example_search (fresh_runtime 8) example_file example_restored).
  vm_compute. reflexivity.
Defined.

Lemma static_start_is_not_checked_witness :
  restore example_build os_validate_as_asked fresh_thread fresh_block example_search
          (fresh_runtime 8)
          (firstn 8 example_file ++ bytes_at example_file 8 8 ++ skipn 16 example_file)
  = restore example_build os_validate_as_asked fresh_thread fresh_block example_search
            (fresh_runtime 8)
            (firstn 8 example_file ++ le_split 8 0 ++ skipn 16 example_file).
Proof.
  apply (static_start_is_not_checked example_build os_validate_as_asked fresh_thread fresh_block
           example_search (fresh_runtime 8)
           (firstn 8 example_file) (bytes_at example_file 8 8) (le_split 8 0)
           (skipn 16 example_file)).
  - vm_compute. reflexivity.
  - vm_compute. reflexivity.
  - reflexivity.
Defined.

Lemma restored_process_can_be_dumped_witness :
  Forall (fun th => interrupt_context_count example_build th = 1)
         (all_threads (globals example_restored))
  /\ forall io self padding sp,
       capture example_build io self padding (globals example_restored) sp <> Exit1.
Proof.
  apply (restored_process_can_be_dumped example_build os_validate_as_asked fresh_thread fresh_block
           example_search (fresh_runtime 8) example_file example_restored).
  - cbn. lia.
  - vm_compute. discriminate.
  - vm_compute. reflexivity.
Defined.


Lemma dump_file_padding_witness :
  exists w w',
    capture example_build io_full 0x7f0000001000 [Byte.xde; Byte.xad]
            (example_runtime 1 [example_self; example_other]) 0x7f0000001fe8 = Done w
    /\ capture example_build io_full 0x7f0000001000 []
               (example_runtime 1 [example_self; example_other]) 0x7f0000001fe8 = Done w'
    /\ forall old,
         bytes_at (file_contents old w) 114 2 = pad2 [Byte.xde; Byte.xad]
         /\ firstn 114 (file_contents old w) = firstn 114 (file_contents old w')
         /\ skipn 116 (file_contents old w) = skipn 116 (file_contents old w').
Proof.
  apply (dump_file_padding example_build 0x7f0000001000 0x7f0000001fe8
           [Byte.xde; Byte.xad] []
           (example_runtime 1 [example_self; example_other])).
  vm_compute. reflexivity.
Defined.

(** ** The range of the [context] command *)

(** X19: the [context] command returns 0 and prints one of the
    thread's [free_ici] contexts: given a number that is at least 0
    and below [free_ici], the context of that number, after the count
    and the number; given a number out of this range, no context but
    the remark and the count; given something that is no number,
    nothing; given nothing, the last context, or the remark that there
    is none when [free_ici] is 0.  Only without a number and with a
    negative count in the thread's block is a context below 0 looked
    at. *)
Theorem print_context_cmd_in_range (B : build)
  (more_p : String.string -> bool * String.string)
  (parse_number : String.string -> option (Z * String.string))
  (thread : thread) (ptr : String.string) :
  let free_ici := interrupt_context_count B thread in
  let run := print_context_cmd B more_p parse_number thread ptr in
  fst run = 0
  /\ (forall index, In (Context index) (snd run) ->
       0 <= index < free_ici
       \/ (fst (more_p ptr) = false /\ free_ici < 0 /\ index = to_int (free_ici - 1)))
  /\ (fst (more_p ptr) = true ->
       match parse_number (snd (more_p ptr)) with
       | None => snd run = []
       | Some (n, _) =>
         (0 <= to_int n < free_ici ->
          snd run = [ThereAre free_ici; PrintingContext (to_int n); Context (to_int n)])
         /\ (~ 0 <= to_int n < free_ici -> snd run = [NotThatMany; ThereAre free_ici])
       end)
  /\ (fst (more_p ptr) = false ->
       (free_ici = 0 -> snd run = [NoContexts])
       /\ (free_ici <> 0 ->
           snd run = [ThereAre free_ici; PrintingContext (to_int (free_ici - 1));
                      Context (to_int (free_ici - 1))])).
Proof.
  cbv zeta. unfold print_context_cmd.
  pose proof (to_int_range (fixnum_value B (read_TLS (FREE_INTERRUPT_CONTEXT_INDEX B) thread)))
    as R.
  fold (interrupt_context_count B thread) in R.
  set (free_ici := interrupt_context_count B thread) in *.
  destruct (more_p ptr) as [[|] ptr1]; cbn [fst snd].
  - destruct (parse_number ptr1) as [[n rest]|];
      [|repeat split; try discriminate; intros ? []].
    destruct ((0 <=? to_int n) && (to_int n <? free_ici)) eqn:E; cbn [fst snd].
    + apply andb_prop in E as [E1 E2]. apply Z.leb_le in E1. apply Z.ltb_lt in E2.
      split; [reflexivity|]. split; [|split; [|discriminate]].
      * intros index [H|[H|[H|[]]]]; try discriminate. injection H as <-. left. lia.
      * intros _. split; [reflexivity|]. intros N. exfalso. apply N. lia.
    + split; [reflexivity|]. split; [|split; [|discriminate]].
      * intros index [H|[H|[]]]; discriminate.
      * intros _. split; [|reflexivity]. intros N. exfalso.
        apply andb_false_iff in E as [E|E];
          [apply Z.leb_gt in E | apply Z.ltb_ge in E]; lia.
  - destruct (free_ici =? 0) eqn:E; cbn [fst snd].
    + apply Z.eqb_eq in E.
      split; [reflexivity|]. split; [|split; [discriminate|]].
      * intros index [H|[]]. discriminate.
      * intros _. split; [reflexivity|]. intros N. contradiction.
    + apply Z.eqb_neq in E.
      split; [reflexivity|]. split; [|split; [discriminate|]].
      * intros index [H|[H|[H|[]]]]; try discriminate. injection H as <-.
        destruct (Z_lt_le_dec free_ici 0) as [N|N].
        -- right. auto.
        -- left. rewrite to_int_small by lia. lia.
      * intros _. split; [|reflexivity]. intros N. contradiction.
Qed.

(** The [context] command on the second thread of the example, which is
    in one interrupt context: without a number that one, number 0, is
    printed. *)
Example print_context_cmd_last :
  print_context_cmd example_build (fun ptr => (false, ptr)) (fun _ => None)
                    example_other String.EmptyString
  = (0, [ThereAre 1; PrintingContext 0; Context 0]).
Proof. vm_compute. reflexivity. Qed.

